(** * macroeco: distribution fitting and model comparison

    A shallow embedding of [code/macroeco/predict_sad.py] and
    [scripts/macroeco/compare.py], and the properties of their
    documented contracts.

    Conventions of the embedding.
    - Python floats are idealised as real numbers ([R]): [+], [-], [*], [/]
      and the comparisons are exact.  Python ints are [Z].
    - Where rounding decides how many values come back or which whole
      number is returned ([np.arange] on a float step, and with it
      [make_rank_abund]), floats are binary64 with round to nearest even
      ([F64], on the Standard Library's [SpecFloat]).
    - The entries of an integer array are int64: [np.sum] of one wraps
      modulo [2^64].
    - The routines of [math], [numpy], [scipy.stats], [scipy.optimize] and
      [scipy.integrate] that the code calls are fields of a record
      [numlib]; a function that calls one takes the record as its first
      argument, and a theorem holds for every such record, stating what it
      needs of a routine where it needs something.
    - Exceptions are values of [exn]; a function that can raise returns in
      [result] (an error or a value) or in [M], which also records the
      lines printed and the numerical routines entered, in order.
    - A local variable that some path leaves unassigned is an [option];
      reading it unassigned raises [UnboundLocalError]. *)

From Stdlib Require Import String Reals Lra Lia ZArith Bool List Sorted.
From Stdlib Require Import SpecFloat.
Import ListNotations.
Open Scope R_scope.

(* ================================================================== *)
(** * Python: exceptions, effects, values *)
(* ================================================================== *)

Module Py.

Inductive exn : Type :=
| AssertionError (msg : string)
| ValueError (msg : string)
| RootError (value : string)
| UnboundLocalError (name : string)
| ZeroDivisionError
| IndexError
| TypeError (msg : string)
| OverflowError (msg : string).

(** What a call leaves behind besides its value. *)
Inductive event : Type :=
| Stdout (line : string)
| CallBrentq (a b : R)
| CallLogserPmf (x : R)
| CallNbinomPmf (k p : R)
| CallQuad (n : Z)
| CallFmin (x0 : list R).

Definition result (A : Type) : Type := (exn + A)%type.

Definition M (A : Type) : Type := (list event * result A)%type.

Class Monad (m : Type -> Type) : Type := {
  ret : forall {A : Type}, A -> m A;
  bind : forall {A B : Type}, m A -> (A -> m B) -> m B;
  raise : forall {A : Type}, exn -> m A
}.

#[export] Instance result_monad : Monad result := {
  ret := fun A a => inr a;
  bind := fun A B c f => match c with inl e => inl e | inr a => f a end;
  raise := fun A e => inl e
}.

#[export] Instance M_monad : Monad M := {
  ret := fun A a => ([], inr a);
  bind := fun A B c f =>
    match c with
    | (t, inl e) => (t, inl e)
    | (t, inr a) => (t ++ fst (f a), snd (f a))
    end;
  raise := fun A e => ([], inl e)
}.

Declare Scope py_scope.
Delimit Scope py_scope with py.

Notation "x <- c1 ;; c2" := (bind c1 (fun x => c2))
  (at level 100, c1 at next level, right associativity) : py_scope.
Notation "c1 ;; c2" := (bind c1 (fun _ => c2))
  (at level 100, right associativity) : py_scope.

Open Scope py_scope.

(** A computation without effects, run inside [M]. *)
Definition lift {A : Type} (r : result A) : M A := ([], r).

Definition emit (ev : event) : M unit := ([ev], inr tt).

(** [print line] *)
Definition print (line : string) : M unit := emit (Stdout line).

(** [assert cond, msg] *)
Definition assert_ {m : Type -> Type} `{Monad m} (cond : bool) (msg : string)
  : m unit :=
  if cond then ret tt else raise (AssertionError msg).

(** [try: body  except ValueError: handler] *)
Definition try_except_ValueError {A : Type} (body handler : M A) : M A :=
  match body with
  | (t, inl (ValueError _)) => (t ++ fst handler, snd handler)
  | _ => body
  end.

(** Reading the local variable [name]. *)
Definition load {A : Type} (name : string) (slot : option A) : M A :=
  match slot with
  | Some v => ret v
  | None => raise (UnboundLocalError name)
  end.

(** A keyword argument the caller may leave out. *)
Definition kwarg {A : Type} (default : A) (given : option A) : A :=
  match given with
  | Some v => v
  | None => default
  end.

(** The values an [or] chain of the source ranges over. *)
Inductive pyval : Type :=
| PyBool (b : bool)
| PyStr (s : string).

Definition truthy (v : pyval) : bool :=
  match v with
  | PyBool b => b
  | PyStr s => negb (String.eqb s EmptyString)
  end.

(** [a or b]: [a] when it is truthy, else [b]. *)
Definition py_or (a b : pyval) : pyval := if truthy a then a else b.

(** An argument documented as "array-like": a bare number has no [len]. *)
Inductive pyarg : Type :=
| Scalar (x : R)
| Sequence (l : list R).

(** Builtin [sum]: a left fold from [0]. *)
Definition py_sum (l : list R) : R := fold_left Rplus l 0.

Definition py_sum_Z (l : list Z) : Z := fold_left Z.add l 0%Z.

(** [len] as a Python int. *)
Definition len {A : Type} (l : list A) : Z := Z.of_nat (length l).

Definition Rleb (x y : R) : bool := if Rle_dec x y then true else false.
Definition Rltb (x y : R) : bool := if Rlt_dec x y then true else false.
Definition Reqb (x y : R) : bool := if Req_dec_T x y then true else false.

End Py.
Export Py.

(* ================================================================== *)
(** * binary64 *)
(* ================================================================== *)

Module F64.

(** A Python float, where it is not idealised: a binary64 number, every
    operation rounded to nearest, ties to even. *)
Definition float : Type := spec_float.

Definition prec : Z := 53.
Definition emax : Z := 1024.

Definition add : float -> float -> float := SFadd prec emax.
Definition sub : float -> float -> float := SFsub prec emax.
Definition mul : float -> float -> float := SFmul prec emax.
Definition div : float -> float -> float := SFdiv prec emax.

(** [x <= y]; false when either is [nan]. *)
Definition leb : float -> float -> bool := SFleb.

(** [float(z)] *)
Definition of_Z (z : Z) : float := binary_normalize prec emax z 0 false.

Definition zero : float := S754_zero false.
Definition one : float := of_Z 1.

Definition is_zero (x : float) : bool :=
  match x with
  | S754_zero _ => true
  | _ => false
  end.

(** An int as the dividend or the divisor of a true division: no
    rounding before the quotient is taken. *)
Definition exact (z : Z) : float :=
  match z with
  | Z0 => S754_zero false
  | Zpos p => S754_finite false p 0
  | Zneg p => S754_finite true p 0
  end.

(** [a / b] on ints under [from __future__ import division]: the
    quotient, rounded once. *)
Definition int_truediv (a b : Z) : result float :=
  if (b =? 0)%Z then raise ZeroDivisionError
  else match div (exact a) (exact b) with
       | S754_infinity _ =>
           raise (OverflowError
                    "integer division result too large for a float")
       | q => ret q
       end.

(** The float nearest to [a / b], as a literal such as [0.5] or [0.3]
    denotes it. *)
Definition ratio (a b : Z) : float := div (exact a) (exact b).

(** [x / y] on Python floats. *)
Definition float_truediv (x y : float) : result float :=
  if is_zero y then raise ZeroDivisionError else ret (div x y).

(** The ceiling of a finite float. *)
Definition ceil (x : float) : option Z :=
  match x with
  | S754_zero _ => Some 0%Z
  | S754_finite s m e =>
      let n := cond_Zopp s (Zpos m) in
      Some (if (0 <=? e)%Z then (n * 2 ^ e)%Z
            else (- ((- n) / 2 ^ (- e)))%Z)
  | S754_infinity _ | S754_nan => None
  end.

End F64.

(* ================================================================== *)
(** * The NumPy operations the code uses *)
(* ================================================================== *)

Module Np.

(** [np.min], [np.max]: a zero-size array has no minimum. *)
Definition np_min (a : list R) : result R :=
  match a with
  | [] => inl (ValueError "zero-size array to reduction operation minimum which has no identity")
  | x :: t => inr (fold_left Rmin t x)
  end.

Definition np_max (a : list R) : result R :=
  match a with
  | [] => inl (ValueError "zero-size array to reduction operation maximum which has no identity")
  | x :: t => inr (fold_left Rmax t x)
  end.

(** [list.index(v)]: the first position holding [v]. *)
Fixpoint index (v : R) (l : list R) : nat :=
  match l with
  | [] => 0
  | x :: t => if Reqb x v then 0%nat else S (index v t)
  end.

(** [np.linspace(start, stop, num)], end point included. *)
Definition np_linspace (start stop : R) (num : nat) : list R :=
  map (fun i => start + INR i * ((stop - start) / INR (num - 1))) (seq 0 num).

(** [np.arange(start, stop, step)] on Python floats.  The length is the
    ceiling of [(stop - start) / step] as binary64 computes it, and no
    point is made when that is not positive; the first two points are
    [start] and [start + step], and the point at [i] after them is
    [start + i * delta], [delta] being the second point minus the
    first. *)
Definition np_arange (start stop step : F64.float)
  : result (list F64.float) :=
  value <- F64.float_truediv (F64.sub stop start) step ;;
  match F64.ceil value with
  | None =>
      match value with
      | S754_nan => raise (ValueError "arange: cannot compute length")
      | _ => raise (OverflowError "arange: overflow while computing length")
      end
  | Some len =>
      if ((len <? - 2 ^ 63) || (2 ^ 63 - 1 <? len))%Z
      then raise (OverflowError "arange: overflow while computing length")
      else
        let next := F64.add start step in
        let delta := F64.sub next start in
        ret (map (fun i =>
                    match i with
                    | O => start
                    | S O => next
                    | _ => F64.add start
                             (F64.mul (F64.of_Z (Z.of_nat i)) delta)
                    end)
                 (seq 0 (Z.to_nat len)))
  end.

(** An int64: the value an int takes in an integer array. *)
Definition wrap64 (z : Z) : Z := ((z + 2 ^ 63) mod 2 ^ 64 - 2 ^ 63)%Z.

(** [np.sum] of an integer array. *)
Definition np_sum_int64 (a : list Z) : Z := wrap64 (py_sum_Z a).

(** [np.arange(lo, hi)] on ints. *)
Definition np_arange_Z (lo hi : Z) : list Z :=
  map (fun i => (lo + Z.of_nat i)%Z) (seq 0 (Z.to_nat (hi - lo))).

(** [np.cumsum] *)
Fixpoint cumsum_from (acc : R) (a : list R) : list R :=
  match a with
  | [] => []
  | x :: t => (acc + x) :: cumsum_from (acc + x) t
  end.

Definition np_cumsum (a : list R) : list R := cumsum_from 0 a.

(** [np.cumsum] on binary64, left to right. *)
Fixpoint cumsum_from_f (acc : F64.float) (a : list F64.float)
  : list F64.float :=
  match a with
  | [] => []
  | x :: t => F64.add acc x :: cumsum_from_f (F64.add acc x) t
  end.

Definition np_cumsum_f (a : list F64.float) : list F64.float :=
  match a with
  | [] => []
  | x :: t => x :: cumsum_from_f x t
  end.

Definition np_zeros (n : nat) : list F64.float := repeat F64.zero n.

(** [np.empty(n)]: [n] cells holding whatever the memory held, [junk]. *)
Definition np_empty (junk : nat -> R) (n : nat) : list R :=
  map junk (seq 0 n).

(** [np.repeat(v, n)] *)
Definition np_repeat (v : R) (n : nat) : list R := repeat v n.

(** [np.unique]: the distinct values, ascending. *)
Fixpoint insert_unique (x : R) (l : list R) : list R :=
  match l with
  | [] => [x]
  | y :: t =>
      if Rltb x y then x :: y :: t
      else if Reqb x y then y :: t
      else y :: insert_unique x t
  end.

Definition np_unique (a : list R) : list R := fold_right insert_unique [] a.

(** [np.where(v == a)[0]]: the positions of [a] holding [v]. *)
Fixpoint where_eq_from (pos : nat) (v : R) (a : list R) : list nat :=
  match a with
  | [] => []
  | x :: t =>
      if Reqb v x then pos :: where_eq_from (S pos) v t
      else where_eq_from (S pos) v t
  end.

Definition np_where_eq (v : R) (a : list R) : list nat := where_eq_from 0 v a.

(** [a[j] = v] for one in-range position. *)
Fixpoint set_nth (j : nat) (v : R) (a : list R) : list R :=
  match a, j with
  | [], _ => []
  | _ :: t, O => v :: t
  | x :: t, S j' => x :: set_nth j' v t
  end.

(** [a[loc] = v] for an index array [loc]. *)
Definition set_at (loc : list nat) (v : R) (a : list R) : list R :=
  fold_left (fun a j => set_nth j v a) loc a.

(** [a[mask] += v] for a boolean mask of the length of [a]. *)
Fixpoint add_where (mask : list bool) (v : F64.float) (a : list F64.float)
  : list F64.float :=
  match mask, a with
  | b :: mask', x :: t =>
      (if b then F64.add x v else x) :: add_where mask' v t
  | _, _ => a
  end.

(** [mask.any()] *)
Definition any (mask : list bool) : bool := existsb (fun b => b) mask.

(** Elementwise [op] of two one-dimensional arrays under broadcasting:
    equal lengths pair up, a length-one operand is stretched, anything
    else is refused. *)
Definition broadcast (op : R -> R -> R) (a b : list R) : result (list R) :=
  if Nat.eqb (length a) (length b) then
    inr (map (fun p => op (fst p) (snd p)) (combine a b))
  else match a, b with
       | [x], _ => inr (map (fun y => op x y) b)
       | _, [y] => inr (map (fun x => op x y) a)
       | _, _ => inl (ValueError "operands could not be broadcast together")
       end.

(** [np.mean] and [np.var(_, ddof=1)] *)
Definition np_mean (a : list R) : R := py_sum a / INR (length a).

Definition np_var_ddof1 (a : list R) : R :=
  py_sum (map (fun x => (x - np_mean a) * (x - np_mean a)) a)
  / (INR (length a) - 1).

End Np.
Export Np.

(* ================================================================== *)
(** * What the runtime and the numerical libraries provide *)
(* ================================================================== *)

(** Each field is the routine named in its comment, on idealised floats.
    [brentq] returns the root it found or the exception it raised;
    [fmin] runs an objective that may itself have effects. *)
Record numlib : Type := {
  m_log : R -> R;                                  (* math.log, np.log *)
  np_exp : R -> R;                                 (* np.exp *)
  m_lgamma : R -> R;                               (* math.lgamma *)
  m_sqrt : R -> R;                                 (* math.sqrt *)
  m_pi : R;                                        (* math.pi *)
  fpow : R -> R -> R;                              (* x ** y *)
  float_max : R;                                   (* sys.float_info[0] *)
  brentq : (R -> R) -> R -> R -> result R;         (* scipy.optimize.brentq *)
  quad_inf : (R -> R) -> R;                        (* integrate.quad(f, -inf, inf)[0] *)
  logser_pmf : R -> R -> R;                        (* stats.logser.pmf(k, x) *)
  nbinom_pmf : R -> R -> R -> R;                   (* stats.nbinom.pmf(n, k, p) *)
  chisqprob : R -> R -> R;                         (* stats.chisqprob(ts, df) *)
  fmin : (list R -> M R) -> list R -> M (list R);  (* scipy.optimize.fmin *)
  str_is : string -> string -> bool                (* [is] on two str objects *)
}.

(* ================================================================== *)
(** * code/macroeco/predict_sad.py *)
(* ================================================================== *)

Module PredictSad.

Section Distributions.

Variable lib : numlib.

Definition call_brentq (f : R -> R) (a b : R) : M R :=
  ([CallBrentq a b], brentq lib f a b).

(** [for x in l: out.append(f x)] *)
Fixpoint map_M {A B : Type} (f : A -> M B) (l : list A) : M (list B) :=
  match l with
  | [] => ret []
  | x :: t => y <- f x ;; ys <- map_M f t ;; ret (y :: ys)
  end.

(** The assertions that open [lgsr_pmf], [neg_binom_pmf], [mete_lgsr_pmf]
    and [mete_lgsr_approx_pmf].  [m4] and [m5] are the messages of the two
    assertions on the abundance vector, which the METE functions word
    differently. *)
Definition check_shape (S N : Z) (abundances : list Z) (pmf_ret : bool)
  (m4 m5 : string) : M unit :=
  assert_ (S <? N)%Z "S must be less than N" ;;
  assert_ (S >? 1)%Z "S must be greater than 1" ;;
  assert_ (N >? 0)%Z "N must be greater than 0" ;;
  if negb pmf_ret then
    assert_ (len abundances =? S)%Z m4 ;;
    assert_ (np_sum_int64 abundances =? N)%Z m5
  else ret tt.

Definition lgsr_pmf (S N : Z) (abundances : list Z) (pmf_ret : bool)
  : M (list R) :=
  check_shape S N abundances pmf_ret
    "Length of abundances must equal S" "Sum of abundances must equal N" ;;
  let start := -2 in
  let stop := 1 - 1e-10 in
  let eq := fun x => ((IZR N / x) - IZR N) * (- (m_log lib (1 - x))) - IZR S in
  x <- call_brentq eq start stop ;;
  let k := if pmf_ret then np_linspace 1 (IZR N) (Z.to_nat N)
           else map IZR abundances in
  emit (CallLogserPmf x) ;;
  ret (map (fun k => logser_pmf lib k x) k).

Definition neg_binom_pmf (S N : Z) (k : R) (abundances : list Z)
  (pmf_ret : bool) : M (list R) :=
  check_shape S N abundances pmf_ret
    "Length of abundances must equal S" "Sum of abundances must equal N" ;;
  let mu := IZR N / IZR S in
  p <- (if Reqb (mu + k) 0 then raise ZeroDivisionError
        else ret (k / (mu + k))) ;;
  let n := if pmf_ret then map IZR (np_arange_Z 1 (N + 1))
           else map IZR abundances in
  emit (CallNbinomPmf k p) ;;
  ret (map (fun n => nbinom_pmf lib n k p) n).

Definition fit_neg_binom_pmf (sad : list Z) (guess_for_k : R) : M R :=
  let nll_nb := fun k : list R =>
    match k with
    | [k] =>
        pmf <- neg_binom_pmf (len sad) (np_sum_int64 sad) k sad false ;;
        ret (- py_sum (map (m_log lib) pmf))
    | _ => raise (TypeError "only length-1 arrays can be converted to Python scalars")
    end in
  emit (CallFmin [guess_for_k]) ;;
  xopt <- fmin lib nll_nb [guess_for_k] ;;
  match xopt with
  | mlek :: _ => ret mlek
  | [] => raise IndexError
  end.

Definition floor_pmf : R := 1e-120.

(** [m.lgamma(n + 1)] for an int [n]: [math.lgamma] has a pole at every
    integer that is not positive. *)
Definition math_lgamma_succ (n : Z) : result R :=
  if (n + 1 <=? 0)%Z then raise (ValueError "math domain error")
  else ret (m_lgamma lib (IZR n + 1)).

Definition plognorm_pmf (mean var : R) (abundances : list Z) (pmf_ret : bool)
  : M (list R) :=
  (* the type assertion holds of every [list] *)
  assert_ (len abundances >=? 1)%Z "Abundance vector cannot be empty" ;;
  let n_array := if pmf_ret
                 then np_arange_Z 1 (py_sum_Z abundances + 1)
                 else abundances in
  if Rleb var 0 || Rleb mean 0 then
    ret (np_repeat floor_pmf (length n_array))
  else
    let sd := fpow lib var 0.5 in
    let eq := fun t x =>
      np_exp lib (t * x - np_exp lib t
                  - 0.5 * fpow lib ((t - mean) / sd) 2) in
    map_M (fun n : Z =>
      if (n <=? 170)%Z then
        emit (CallQuad n) ;;
        let integral := quad_inf lib (fun t => eq t (IZR n)) in
        lgamma <- lift (math_lgamma_succ n) ;;
        let norm := np_exp lib (-0.5 * m_log lib (2 * m_pi lib * var)
                                - lgamma) in
        ret (norm * integral)
      else
        let z := (m_log lib (IZR n) - mean) / sd in
        ret ((1 + (fpow lib z 2 + m_log lib (IZR n) - mean - 1)
                  / (2 * IZR n * fpow lib sd 2))
             * np_exp lib (-0.5 * fpow lib z 2)
             / (m_sqrt lib (2 * m_pi lib) * sd * IZR n)))
      n_array.

Definition trun_plognorm_pmf (mean var : R) (abundances : list Z)
  (pmf_ret : bool) : M (list R) :=
  untr_pmf <- plognorm_pmf mean var abundances pmf_ret ;;
  pmf0 <- plognorm_pmf mean var [0%Z] false ;;
  lift (broadcast Rdiv untr_pmf (map (fun p => 1 - p) pmf0)).

Definition plognorm_MLE (abundances : list Z) (trun : bool) : M (R * R) :=
  assert_ (len abundances >=? 1)%Z
    "len(abundances) must be greater than or equal to 1" ;;
  let logs := map (fun n => m_log lib (IZR n)) abundances in
  let mu0 := np_mean logs in
  let var0 := np_var_ddof1 logs in
  let pln_func := fun x : list R =>
    match x with
    | x0 :: x1 :: _ =>
        pmf <- (if trun then trun_plognorm_pmf x0 x1 abundances false
                else plognorm_pmf x0 x1 abundances false) ;;
        ret (- py_sum (map (m_log lib) pmf))
    | _ => raise IndexError
    end in
  emit (CallFmin [mu0; var0]) ;;
  xopt <- fmin lib pln_func [mu0; var0] ;;
  match xopt with
  | [mu; var] => ret (mu, var)
  | _ => raise (ValueError "wrong number of values to unpack")
  end.

Definition mete_lgsr_pmf (S N : Z) (abundances : list Z) (pmf_ret : bool)
  : M (list R) :=
  check_shape S N abundances pmf_ret
    "If pmf_ret = False, length of abundances must equal S"
    "If pmf_ret = False, sum of abundances must equal N" ;;
  let start := 0.3 in
  let stop := 2 in
  let n := np_linspace 1 (IZR N) (Z.to_nat N) in
  let eq := fun x =>
    py_sum (map (fun n => fpow lib x n / IZR N * IZR S) n)
    - py_sum (map (fun n => fpow lib x n / n) n) in
  x <- call_brentq eq start
         (Rmin (fpow lib (float_max lib / IZR S) (1 / IZR N)) stop) ;;
  let nvals := if pmf_ret then np_linspace 1 (IZR N) (Z.to_nat N)
               else map IZR abundances in
  let norm := py_sum (map (fun n => fpow lib x n / n) n) in
  ret (map (fun nv => (fpow lib x nv / nv) / norm) nvals).

(** The constraint equation (7.30) for [S] and [N]. *)
Definition approx_eq (S N : Z) (x : R) : R :=
  (- m_log lib x) * m_log lib (-1 / m_log lib x) - IZR S / IZR N.

Definition approx_start : R := 0.3.
Definition approx_stop : R := 1 - 1e-10.

(** The grid of the [except] branch, its values, and the maximum. *)
Definition approx_values : list R := np_linspace approx_start approx_stop 1000.

Definition approx_solns (S N : Z) : list R := map (approx_eq S N) approx_values.

Definition approx_pmf_of (N : Z) (abundances : list Z) (pmf_ret : bool)
  (x : R) : list R :=
  let k := if pmf_ret then np_linspace 1 (IZR N) (Z.to_nat N)
           else map IZR abundances in
  let g := -1 / m_log lib x in
  map (fun k => (1 / m_log lib g) * (fpow lib x k / k)) k.

Definition mete_lgsr_approx_pmf (S N : Z) (abundances : list Z)
  (pmf_ret : bool) (root : Z) : M (list R) :=
  check_shape S N abundances pmf_ret
    "If pmf_ret = False, length of abundances must equal S"
    "If pmf_ret = False, sum of abundances must equal N" ;;
  let start := approx_start in
  let stop := approx_stop in
  let eq := approx_eq S N in
  x <- try_except_ValueError
         (v <- call_brentq eq start stop ;; ret (Some v))
         (let values := approx_values in
          let solns := approx_solns S N in
          ymax <- lift (np_max solns) ;;
          let xmax := nth (index ymax solns) values 0 in
          x <- (if Rltb 0 ymax then
                  print "Warning: More than one solution." ;;
                  x <- (if (root =? 1)%Z
                        then v <- call_brentq eq start xmax ;; ret (Some v)
                        else ret None) ;;
                  (if (root =? 2)%Z
                   then v <- call_brentq eq xmax stop ;; ret (Some v)
                   else ret x)
                else ret None) ;;
          (if Rltb ymax 0 then
             raise (RootError
               "No solution to constraint equation with given values of S and N")
           else ret tt) ;;
          ret x) ;;
  xv <- load "x" x ;;
  ret (approx_pmf_of N abundances pmf_ret xv).

(** A call of [mete_lgsr_approx_pmf(S, N, ...)] that may leave out
    [abundances=[]], [pmf_ret=False] and [root=2]. *)
Definition mete_lgsr_approx_pmf_kw (S N : Z) (abundances : option (list Z))
  (pmf_ret : option bool) (root : option Z) : M (list R) :=
  mete_lgsr_approx_pmf S N (kwarg [] abundances) (kwarg false pmf_ret)
    (kwarg 2%Z root).

(** [S_abunds[S_points >= cutoff] += 1] for the cutoffs in turn, leaving
    the loop after the first cutoff above every point. *)
Fixpoint rank_loop (S_points cutoffs S_abunds : list F64.float)
  : list F64.float :=
  match cutoffs with
  | [] => S_abunds
  | cutoff :: rest =>
      let greater_thans := map (fun p => F64.leb cutoff p) S_points in
      let S_abunds := add_where greater_thans F64.one S_abunds in
      if negb (any greater_thans) then S_abunds
      else rank_loop S_points rest S_abunds
  end.

(** The arguments of [np.arange(1/(2*S), 1 + 1/(2*S), 1/S)], left to
    right, and the range. *)
Definition S_points_of (S : Z) : result (list F64.float) :=
  start <- F64.int_truediv 1 (2 * S) ;;
  half <- F64.int_truediv 1 (2 * S) ;;
  let stop := F64.add F64.one half in
  step <- F64.int_truediv 1 S ;;
  np_arange start stop step.

Definition make_rank_abund (sad_pmf : list F64.float) (S : Z)
  : result (list F64.float) :=
  S_points <- S_points_of S ;;
  let S_abunds := np_zeros (length S_points) in
  let sad_pmf_w_zero := F64.zero :: sad_pmf in
  let cum_sad_pmf_w_zero := np_cumsum_f sad_pmf_w_zero in
  ret (rank_loop S_points cum_sad_pmf_w_zero S_abunds).

(** The condition of the assertion of [nll]:
    [distribution is 'mete' or 'mete_approx' or 'neg_binom' or 'lgsr'
     or 'trun_plognorm' or 'plognorm']. *)
Definition nll_assert_cond (distribution : string) : pyval :=
  py_or (py_or (py_or (py_or (py_or
    (PyBool (str_is lib distribution "mete"))
    (PyStr "mete_approx")) (PyStr "neg_binom")) (PyStr "lgsr"))
    (PyStr "trun_plognorm")) (PyStr "plognorm").

Definition nll (sad : list Z) (distribution : string) : M R :=
  assert_ (truthy (nll_assert_cond distribution))
    ("Do not recognize " ++ distribution ++ " distribution") ;;
  pmf <- (if (distribution =? "mete")%string
          then p <- mete_lgsr_pmf (len sad) (py_sum_Z sad) sad false ;;
               ret (Some p)
          else ret None) ;;
  pmf <- (if (distribution =? "mete_approx")%string
          then p <- mete_lgsr_approx_pmf_kw (len sad) (py_sum_Z sad)
                      (Some sad) None None ;;
               ret (Some p)
          else ret pmf) ;;
  pmf <- (if (distribution =? "neg_binom")%string
          then mlek <- fit_neg_binom_pmf sad 1 ;;
               p <- neg_binom_pmf (len sad) (py_sum_Z sad) mlek sad false ;;
               ret (Some p)
          else ret pmf) ;;
  pmf <- (if (distribution =? "trun_plognorm")%string
          then mv <- plognorm_MLE sad true ;;
               p <- trun_plognorm_pmf (fst mv) (snd mv) sad false ;;
               ret (Some p)
          else ret pmf) ;;
  pmf <- (if (distribution =? "plognorm")%string
          then mv <- plognorm_MLE sad false ;;
               p <- plognorm_pmf (fst mv) (snd mv) sad false ;;
               ret (Some p)
          else ret pmf) ;;
  pmf <- (if (distribution =? "lgsr")%string
          then p <- lgsr_pmf (len sad) (py_sum_Z sad) sad false ;;
               ret (Some p)
          else ret pmf) ;;
  pmf <- load "pmf" pmf ;;
  ret (- py_sum (map (m_log lib) pmf)).

End Distributions.

End PredictSad.

(* ================================================================== *)
(** * scripts/macroeco/compare.py *)
(* ================================================================== *)

Module Compare.

(** One argument of [cnvrt_to_arrays]: [np.array(arg)] when [len(arg)]
    works, [np.array([arg])] when it raises. *)
Definition cnvrt_to_array (arg : pyarg) : list R :=
  match arg with
  | Scalar x => [x]
  | Sequence l => l
  end.

Definition cnvrt_to_arrays (args : list pyarg) : list (list R) :=
  map cnvrt_to_array args.

Section Comparison.

Variable lib : numlib.

Definition nll (pdist : list (list R)) : list R :=
  map (fun dist => - py_sum (map (m_log lib) dist)) pdist.

(** One turn of the loop over the unique values: [count] and [cdf] before,
    [i] the value, the pair after. *)
Definition cdf_step (emp_data : list R) (leng : nat) (st : nat * list R)
  (i : R) : nat * list R :=
  let loc := np_where_eq i emp_data in
  let count := (fst st + length loc)%nat in
  (count, set_at loc (INR count / INR leng) (snd st)).

Definition empirical_cdf (junk : nat -> R) (emp_data : pyarg)
  : result (list R) :=
  match cnvrt_to_arrays [emp_data] with
  | emp_data :: _ =>
      let unq_vals := np_unique emp_data in
      let leng := length emp_data in
      let cdf := np_empty junk (length emp_data) in
      let count := 0%nat in
      ret (snd (fold_left (cdf_step emp_data leng) unq_vals (count, cdf)))
  | [] => raise IndexError
  end.

Definition aic_weights (aic_values : pyarg) : result (list R) :=
  match cnvrt_to_arrays [aic_values] with
  | aic_values :: _ =>
      minimum <- np_min aic_values ;;
      let delta := map (fun x => x - minimum) aic_values in
      let values := map (fun d => np_exp lib (- d / 2)) delta in
      let weights := map (fun x => x / py_sum values) values in
      ret weights
  | [] => raise IndexError
  end.

Definition likelihood_ratio_test (nll_null nll_alt df_list : pyarg)
  : result (list (R * R)) :=
  match cnvrt_to_arrays [nll_null; nll_alt; df_list] with
  | [nll_null; nll_alt; df_list] =>
      assert_ (Nat.eqb (length nll_null) (length nll_alt)
               && Nat.eqb (length nll_null) (length df_list)
               && Nat.eqb (length nll_alt) (length df_list))
        "nll_null, nll_alt, and df_list must have the same length" ;;
      test_stat <- broadcast Rminus (map (Rmult 2) nll_null)
                     (map (Rmult 2) nll_alt) ;;
      ret (map (fun p => (fst p, chisqprob lib (fst p) (snd p)))
             (combine test_stat df_list))
  | _ => raise (ValueError "wrong number of values to unpack")
  end.

End Comparison.

End Compare.

(* ================================================================== *)
(** * Two concrete libraries, to run the embedding on inputs *)
(* ================================================================== *)

Module Sample.

(** Bisection on a bracket: the precondition of [brentq] (a sign change
    between the ends, else [ValueError]) and [steps] halvings. *)
Fixpoint bisect (f : R -> R) (a b : R) (steps : nat) : R :=
  match steps with
  | O => (a + b) / 2
  | S steps' =>
      let c := (a + b) / 2 in
      if Rleb (f a * f c) 0 then bisect f a c steps'
      else bisect f c b steps'
  end.

Definition bisect_brentq (f : R -> R) (a b : R) : result R :=
  if Rltb 0 (f a * f b)
  then raise (ValueError "f(a) and f(b) must have different signs")
  else ret (bisect f a b 100).

(** Midpoint rule on [[-50, 50]] in cells of width [0.1]. *)
Definition midpoint_quad (f : R -> R) : R :=
  py_sum (map (fun i => f (-50 + (INR i + 0.5) * 0.1) * 0.1) (seq 0 1000)).

(** [ln ((n - 1)!)] at the integer part [n] of the argument. *)
Definition ln_fact_pred (x : R) : R :=
  ln (INR (fact (Z.to_nat (Int_part x - 1)))).

Definition logser (k x : R) : R := - Rpower x k / (k * ln (1 - x)).

(** [k (k+1) ... (k+n-1) / n!  p^k (1-p)^n] *)
Definition nbinom (n k p : R) : R :=
  fold_left (fun acc i => acc * (k + INR i) / INR (S i))
            (seq 0 (Z.to_nat (Int_part n))) 1
  * Rpower p k * Rpower (1 - p) n.

(** The survival function of the chi-squared law, in the closed form it
    has at an even number of degrees of freedom. *)
Definition chisq_sf_even (ts df : R) : R :=
  exp (- ts / 2)
  * py_sum (map (fun j => (ts / 2) ^ j / INR (fact j))
                (seq 0 (Z.to_nat (Int_part (df / 2))))).

(** The mathematical functions themselves where the library of reals has
    them, bisection for [brentq], the closed forms above for the
    distributions, and an optimiser that returns its starting point. *)
Definition sample_lib : numlib := {|
  m_log := ln;
  np_exp := exp;
  m_lgamma := ln_fact_pred;
  m_sqrt := sqrt;
  m_pi := PI;
  fpow := Rpower;
  float_max := (2 - / 2 ^ 52) * 2 ^ 1023;
  brentq := bisect_brentq;
  quad_inf := midpoint_quad;
  logser_pmf := logser;
  nbinom_pmf := nbinom;
  chisqprob := chisq_sf_even;
  fmin := fun _ x0 => ret x0;
  str_is := String.eqb
|}.

(** A logarithm as a rounding libm could return it on the bracket of
    [mete_lgsr_approx_pmf]: [-1/2] at and below [0.3], [-1] strictly inside
    the bracket, [-1/2] from its upper end up to [1], [peak] at [1] and [0]
    above.  With it the constraint function is [peak - S/N] strictly
    inside the bracket and [- S/N] at both ends. *)
Definition plateau_log (peak : R) (x : R) : R :=
  if Rleb x 0.3 then - (1 / 2)
  else if Rltb x (1 - 1e-10) then -1
  else if Rltb x 1 then - (1 / 2)
  else if Rleb x 1 then peak
  else 0.

Definition plateau_lib (peak : R) : numlib := {|
  m_log := plateau_log peak;
  np_exp := exp;
  m_lgamma := ln_fact_pred;
  m_sqrt := sqrt;
  m_pi := PI;
  fpow := Rpower;
  float_max := (2 - / 2 ^ 52) * 2 ^ 1023;
  brentq := bisect_brentq;
  quad_inf := midpoint_quad;
  logser_pmf := logser;
  nbinom_pmf := nbinom;
  chisqprob := chisq_sf_even;
  fmin := fun _ x0 => ret x0;
  str_is := String.eqb
|}.

(** Two values of the grid that [mete_lgsr_approx_pmf] scans: number 1,
    just inside the bracket, and number 500, a little above [0.65]. *)
Definition grid_value (i : nat) : R :=
  PredictSad.approx_start
  + INR i * ((PredictSad.approx_stop - PredictSad.approx_start)
             / INR (1000 - 1)).

Definition first_inner_grid : R := grid_value 1.
Definition mid_grid : R := grid_value 500.

End Sample.

(* ================================================================== *)
(** * Vocabulary of the statements *)
(* ================================================================== *)

Module Vocabulary.

(** The unnormalised weights of the AIC values [a] against the value [m]. *)
Definition rel_likelihoods (lib : numlib) (m : R) (a : list R) : list R :=
  map (fun x => np_exp lib (- (x - m) / 2)) a.

(** How many entries of [l] satisfy [p]. *)
Definition countb (p : R -> bool) (l : list R) : nat := length (filter p l).

(** How many observations are at most [v]. *)
Definition count_le (v : R) (data : list R) : nat :=
  countb (fun y => Rleb y v) data.

(** An abundance vector is an integer array: its entries are int64. *)
Definition int64_entries (a : list Z) : Prop :=
  Forall (fun z => (- 2 ^ 63 <= z < 2 ^ 63)%Z) a.

(** The shape arguments that [lgsr_pmf], [neg_binom_pmf] and
    [mete_lgsr_pmf] refuse, and those they accept: the sum is the one the
    assertion takes, [np.sum] of the int64 array. *)
Definition malformed (S N : Z) (abundances : list Z) (pmf_ret : bool) : Prop :=
  (S >= N)%Z \/ (S <= 1)%Z \/
  (pmf_ret = false /\
   (len abundances <> S \/
    (int64_entries abundances /\ np_sum_int64 abundances <> N))).

Definition well_formed (S N : Z) (abundances : list Z) (pmf_ret : bool) : Prop :=
  (1 < S < N)%Z /\
  (pmf_ret = false ->
   len abundances = S /\ np_sum_int64 abundances = N /\
   int64_entries abundances).

(** The names documented for [nll]. *)
Definition supported_distributions : list string :=
  ["mete"; "mete_approx"; "neg_binom"; "plognorm"; "trun_plognorm"; "lgsr"]%string.

(** The step quantile function of the pmf at [q]: how many cutoffs of
    its cumulative sums, a leading zero included, do not exceed [q]. *)
Definition quantile_rank (sad_pmf : list R) (q : R) : nat :=
  countb (fun cutoff => Rleb cutoff q) (np_cumsum (0 :: sad_pmf)).

(** Where the grid of [mete_lgsr_approx_pmf] first attains [ymax]. *)
Definition approx_xmax (lib : numlib) (S N : Z) (ymax : R) : R :=
  nth (index ymax (PredictSad.approx_solns lib S N))
      PredictSad.approx_values 0.

(** What [mete_lgsr_approx_pmf] returns once [brentq] has answered on the
    bracket it was given: the pmf at the root, or the exception. *)
Definition approx_pmf_at (lib : numlib) (N : Z) (abundances : list Z)
  (pmf_ret : bool) (found : result R) : result (list R) :=
  x <- found ;; ret (PredictSad.approx_pmf_of lib N abundances pmf_ret x).

Definition two_roots_warning : string := "Warning: More than one solution.".

End Vocabulary.
Export Vocabulary.

(* ================================================================== *)
(** * predict_sad.py: the METE cdf and the Bulmer likelihood *)
(* ================================================================== *)

Module PredictSadRest.

Import PredictSad.

(** One row of the structured array of [mete_lgsr_cdf]. *)
Record cdf_row : Type := { cdf : R; n : Z }.

(** [math.factorial] *)
Definition py_factorial (k : Z) : result R :=
  if (k <? 0)%Z
  then raise (ValueError "factorial() not defined for negative values")
  else ret (INR (fact (Z.to_nat k))).

(** Builtin [max] of a sequence of ints. *)
Definition py_max_Z (l : list Z) : result Z :=
  match l with
  | [] => raise (ValueError "max() arg is an empty sequence")
  | x :: t => ret (fold_left Z.max t x)
  end.

(** [a.sort()] on ints, ascending. *)
Fixpoint insert_Z (x : Z) (l : list Z) : list Z :=
  match l with
  | [] => [x]
  | y :: t => if (x <=? y)%Z then x :: y :: t else y :: insert_Z x t
  end.

Definition np_sort_Z (a : list Z) : list Z := fold_right insert_Z [] a.

(** [range(lo, hi)] *)
Definition py_range (lo hi : Z) : list Z := np_arange_Z lo hi.

(** The counts of [np.histogram(a, bins=edges)]: one per pair of
    consecutive edges, the left edge included, the right edge excluded
    except in the last bin. *)
Fixpoint hist_counts (a : list Z) (edges : list Z) : list Z :=
  match edges with
  | lo :: ((hi :: rest) as tl) =>
      Z.of_nat (length (filter (fun x =>
        match rest with
        | [] => (lo <=? x)%Z && (x <=? hi)%Z
        | _ :: _ => (lo <=? x)%Z && (x <? hi)%Z
        end) a))
      :: hist_counts a tl
  | _ => []
  end.

(** [values[mask]] for a boolean mask no longer than [values]. *)
Definition mask_select {A : Type} (values : list A) (mask : list bool)
  : list A :=
  map fst (filter snd (combine values mask)).

(** [seq[i]] *)
Definition py_index (l : list R) (i : nat) : result R :=
  match nth_error l i with
  | Some v => ret v
  | None => raise IndexError
  end.

Section Bulmer.

Variable lib : numlib.

(** [integrate.quad(f, a, b)[0]]; [None] for an infinite upper limit. *)
Variable quad_on : (R -> R) -> R -> option R -> R.

Definition mete_lgsr_cdf (S N : Z) : M (list cdf_row) :=
  pmf <- mete_lgsr_pmf lib S N [] true ;;
  let cdf := np_cumsum pmf in
  let ns := np_arange_Z 1 (N + 1) in
  (* both fields of the [np.empty] array are assigned in full *)
  if Nat.eqb (length cdf) (length ns)
  then ret (map (fun p => {| cdf := fst p; n := snd p |}) (combine cdf ns))
  else raise (ValueError "could not broadcast input array")%string.

(** The integrand of Bulmer's equation 2 for the abundance [ab]. *)
Definition bulmer_integrand (mu sigma : R) (ab : Z) (x : R) : R :=
  fpow lib x (IZR ab - 1) * np_exp lib (- x)
  * np_exp lib (- fpow lib (m_log lib x - mu) 2 / (2 * fpow lib sigma 2)).

(** One turn of the loop of [pln_lik]. *)
Definition pln_lik_entry (mu sigma : R) (approx_cut ab : Z) : M R :=
  if (ab >? approx_cut)%Z then
    let V := fpow lib sigma 2 in
    ret (1 / m_sqrt lib (2 * m_pi lib * V) / IZR ab
         * np_exp lib (- fpow lib (m_log lib (IZR ab) - mu) 2 / (2 * V))
         * (1 + 1 / (2 * IZR ab * V)
                * (fpow lib (m_log lib (IZR ab) - mu) 2 / V
                   + m_log lib (IZR ab) - mu - 1)))
  else
    let ub := if (ab <? 10)%Z then 10 else IZR ab in
    fa <- lift (py_factorial ab) ;;
    let term1 := fpow lib (2 * m_pi lib * fpow lib sigma 2) (-0.5) / fa in
    emit (CallQuad ab) ;;
    let term2a := quad_on (bulmer_integrand mu sigma ab) 0 (Some ub) in
    emit (CallQuad ab) ;;
    let term2b := quad_on (bulmer_integrand mu sigma ab) ub None in
    let Pr := term1 * term2a in
    let Pr_add := term1 * term2b in
    let L := Pr + Pr_add in
    ret (if Rleb L 0 then 1e-120 else L).

(** The column that [pln_lik] returns, top to bottom. *)
Definition pln_lik (mu sigma : R) (abund_vect : list Z) (approx_cut : Z)
  : M (list R) :=
  if Rleb sigma 0 then ret (np_repeat 1e-120 (length abund_vect))
  else map_M (pln_lik_entry mu sigma approx_cut) abund_vect.

(** [for i, count in enumerate(counts): term1 = append(term1, count * plik[i])] *)
Fixpoint weigh_from (i : nat) (counts : list Z) (plik : list R)
  : result (list R) :=
  match counts with
  | [] => ret []
  | count :: rest =>
      p <- py_index plik i ;;
      more <- weigh_from (S i) rest plik ;;
      ret (IZR count * p :: more)
  end.

(** The number in the one-element array that [pln_ll] returns. *)
Definition pln_ll (mu sigma : R) (ab : list Z) : M R :=
  let ab := filter (fun a => (0 <? a)%Z) ab in
  let ab := np_sort_Z ab in
  top <- lift (py_max_Z ab) ;;
  let edges := py_range 1 (top + 2) in
  let hist := hist_counts ab edges in
  let nonzero := map (fun c => negb (c =? 0)%Z) hist in
  let observed_abund_vals := mask_select edges nonzero in
  let counts := mask_select hist nonzero in
  L <- pln_lik mu sigma observed_abund_vals 10 ;;
  let plik := map (m_log lib) L in
  term1 <- lift (weigh_from 0 counts plik) ;;
  L0 <- pln_lik mu sigma [0%Z] 10 ;;
  let term2 := map (fun l0 => INR (length ab) * m_log lib (1 - l0)) L0 in
  let ll := map (fun t2 => py_sum term1 - t2) term2 in
  lift (py_index ll 0).

End Bulmer.

End PredictSadRest.

(* ================================================================== *)
(** * More vocabulary *)
(* ================================================================== *)

Module Notions.

(** The entry of [plognorm_pmf] for the abundance [n], when the
    parameters are not degenerate. *)
Definition plognorm_term (lib : numlib) (mean var : R) (n : Z) : R :=
  let sd := fpow lib var 0.5 in
  if (n <=? 170)%Z then
    np_exp lib (-0.5 * m_log lib (2 * m_pi lib * var)
                - m_lgamma lib (IZR n + 1))
    * quad_inf lib (fun t =>
        np_exp lib (t * IZR n - np_exp lib t
                    - 0.5 * fpow lib ((t - mean) / sd) 2))
  else
    let z := (m_log lib (IZR n) - mean) / sd in
    (1 + (fpow lib z 2 + m_log lib (IZR n) - mean - 1)
         / (2 * IZR n * fpow lib sd 2))
    * np_exp lib (-0.5 * fpow lib z 2)
    / (m_sqrt lib (2 * m_pi lib) * sd * IZR n).

(** The abundances [plognorm_pmf] evaluates: the vector itself, or
    [1..sum] when the whole pmf is asked for. *)
Definition plognorm_queries (abundances : list Z) (pmf_ret : bool) : list Z :=
  if pmf_ret then np_arange_Z 1 (py_sum_Z abundances + 1) else abundances.

(** [full[a - 1]] for every abundance [a]. *)
Definition pick (full : list R) (abundances : list Z) : list R :=
  map (fun a => nth (Z.to_nat (a - 1)) full 0) abundances.

(** The constraint function of [mete_lgsr_pmf], the upper end of its
    bracket, and the normalising sum at [x]. *)
Definition mete_eq (lib : numlib) (S N : Z) (x : R) : R :=
  py_sum (map (fun n => fpow lib x n / IZR N * IZR S)
              (np_linspace 1 (IZR N) (Z.to_nat N)))
  - py_sum (map (fun n => fpow lib x n / n)
                (np_linspace 1 (IZR N) (Z.to_nat N))).

Definition mete_stop (lib : numlib) (S N : Z) : R :=
  Rmin (fpow lib (float_max lib / IZR S) (1 / IZR N)) 2.

Definition mete_norm (lib : numlib) (N : Z) (x : R) : R :=
  py_sum (map (fun n => fpow lib x n / n)
              (np_linspace 1 (IZR N) (Z.to_nat N))).

(** [lo, lo + 1, ..., lo + k - 1] *)
Fixpoint zrange (lo : Z) (k : nat) : list Z :=
  match k with
  | O => []
  | S k' => lo :: zrange (lo + 1) k'
  end.

(** How often [v] occurs in [l]. *)
Definition occ (v : Z) (l : list Z) : nat := length (filter (Z.eqb v) l).

(** The likelihood that [pln_lik] returns for one abundance [ab >= 0]. *)
Definition pln_lik_value (lib : numlib)
  (quad_on : (R -> R) -> R -> option R -> R)
  (mu sigma : R) (approx_cut ab : Z) : R :=
  if Rleb sigma 0 then 1e-120
  else if (ab >? approx_cut)%Z then
    let V := fpow lib sigma 2 in
    1 / m_sqrt lib (2 * m_pi lib * V) / IZR ab
    * np_exp lib (- fpow lib (m_log lib (IZR ab) - mu) 2 / (2 * V))
    * (1 + 1 / (2 * IZR ab * V)
           * (fpow lib (m_log lib (IZR ab) - mu) 2 / V
              + m_log lib (IZR ab) - mu - 1))
  else
    let ub := if (ab <? 10)%Z then 10 else IZR ab in
    let term1 := fpow lib (2 * m_pi lib * fpow lib sigma 2) (-0.5)
                 / INR (fact (Z.to_nat ab)) in
    let L := term1 * quad_on (PredictSadRest.bulmer_integrand lib mu sigma ab)
                       0 (Some ub)
             + term1 * quad_on (PredictSadRest.bulmer_integrand lib mu sigma ab)
                         ub None in
    if Rleb L 0 then 1e-120 else L.

(** The quadratures [pln_lik] enters for one abundance. *)
Definition pln_lik_quads (sigma : R) (approx_cut ab : Z) : list event :=
  if Rleb sigma 0 then []
  else if (ab >? approx_cut)%Z then []
  else [CallQuad ab; CallQuad ab].

(** The positive abundances, and their distinct values in ascending
    order. *)
Definition positive (ab : list Z) : list Z := filter (fun a => (0 <? a)%Z) ab.

Definition distinct_positive (ab : list Z) : list Z :=
  filter (fun v => negb (Nat.eqb (occ v (positive ab)) 0))
         (zrange 1 (Z.to_nat (fold_left Z.max (positive ab) 0%Z))).

(** The whole number that [np.arange] takes for the length of a range of
    floats, and the one it takes for the range of [make_rank_abund]; no
    point is made when it is not positive. *)
Definition arange_len (start stop step : F64.float) : result Z :=
  value <- F64.float_truediv (F64.sub stop start) step ;;
  match F64.ceil value with
  | None =>
      match value with
      | S754_nan => raise (ValueError "arange: cannot compute length")
      | _ => raise (OverflowError "arange: overflow while computing length")
      end
  | Some len =>
      if ((len <? - 2 ^ 63) || (2 ^ 63 - 1 <? len))%Z
      then raise (OverflowError "arange: overflow while computing length")
      else ret len
  end.

Definition S_points_len (S : Z) : result Z :=
  start <- F64.int_truediv 1 (2 * S) ;;
  half <- F64.int_truediv 1 (2 * S) ;;
  let stop := F64.add F64.one half in
  step <- F64.int_truediv 1 S ;;
  arange_len start stop step.

End Notions.
Export Notions.

(* ================================================================== *)
(** * One more sample routine *)
(* ================================================================== *)

Module SampleRest.

(** A quadrature on [a, b] by one midpoint panel; nothing for a tail. *)
Definition one_panel_quad (f : R -> R) (a : R) (b : option R) : R :=
  match b with
  | Some b => f ((a + b) / 2) * (b - a)
  | None => 0
  end.

End SampleRest.

(* ================================================================== *)
(** * compare.py: [aic] and [aicc] *)
(* ================================================================== *)

Module CompareRest.

Import Compare.

(** A float64 that a division of arrays can leave. *)
Inductive npfloat : Type :=
| Fin (x : R)
| PosInf
| NegInf
| NaN.

(** [x / y] on arrays: a zero divisor gives an infinity or [nan] under a
    warning, never an exception. *)
Definition np_divide (x y : R) : npfloat :=
  if Reqb y 0 then
    if Reqb x 0 then NaN else if Rltb 0 x then PosInf else NegInf
  else Fin (x / y).

(** A finite number plus a float64. *)
Definition np_add (a : R) (b : npfloat) : npfloat :=
  match b with
  | Fin y => Fin (a + y)
  | PosInf => PosInf
  | NegInf => NegInf
  | NaN => NaN
  end.

Definition aic (neg_L k : pyarg) : result (list R) :=
  match cnvrt_to_arrays [neg_L; k] with
  | [neg_L; k] =>
      assert_ (Nat.eqb (length k) (length neg_L)) EmptyString ;;
      broadcast Rplus (map (Rmult 2) neg_L) (map (Rmult 2) k)
  | _ => raise (ValueError "wrong number of values to unpack")
  end.

Definition aicc (neg_L k n : pyarg) : result (list npfloat) :=
  match cnvrt_to_arrays [neg_L; k; n] with
  | [neg_L; k; n] =>
      assert_ (Nat.eqb (length neg_L) (length k)
               && Nat.eqb (length neg_L) (length n)
               && Nat.eqb (length k) (length n))
        "neg_L, k, and n must all have the same length" ;;
      aic_value <- aic (Sequence neg_L) (Sequence k) ;;
      let num := map (fun k_i => 2 * k_i * (k_i + 1)) k in
      n_k <- broadcast Rminus n k ;;
      let den := map (fun d => d - 1) n_k in
      (* the arrays have one length here: nothing is stretched *)
      let crt := map (fun p => np_divide (fst p) (snd p)) (combine num den) in
      ret (map (fun p => np_add (fst p) (snd p)) (combine aic_value crt))
  | _ => raise (ValueError "wrong number of values to unpack")
  end.

End CompareRest.

(* ================================================================== *)
(** * utility/format_data.py: [Columnar_Data.split_up_data_by_field] *)
(* ================================================================== *)

Module UtilityFormatData.

Section Columnar.

(** What a field of a record array holds. *)
Variable column : Type.

(** A record array: its fields, in order. *)
Definition recarray : Type := list (string * column).

(** [numpy.lib.recfunctions.drop_fields]: the array without the named
    fields, [None] when no field is left; an unknown name drops nothing. *)
Definition drop_fields (base : recarray) (drop_names : list string)
  : option recarray :=
  match filter (fun f => negb (existsb (String.eqb (fst f)) drop_names)) base
  with
  | [] => None
  | kept => Some kept
  end.

(** [ind = np.bitwise_and((name != given_col_names), ind)] *)
Definition mask_step (given_col_names : list string) (ind : list bool)
  (name : string) : list bool :=
  map (fun p => negb (String.eqb name (fst p)) && snd p)
      (combine given_col_names ind).

(** The new [self.data_list]. *)
Definition split_up_data_by_field (data_list : list recarray)
  (split_columns : list (list string)) : list (option recarray) :=
  let given_col_names :=
    fold_left (fun acc tup => fold_left (fun acc name => acc ++ [name]) tup acc)
              split_columns [] in
  fold_left (fun split_data data =>
    fold_left (fun split_data tup =>
      let ind := repeat true (length given_col_names) in
      let ind := fold_left (mask_step given_col_names) tup ind in
      let remove_names := PredictSadRest.mask_select given_col_names ind in
      split_data ++ [drop_fields data remove_names])
      split_columns split_data)
    data_list [].

End Columnar.

End UtilityFormatData.

(* ================================================================== *)
(** * misc/format_data.py: [data_read_write] and [format_dense] *)
(* ================================================================== *)

Module MiscFormatData.

(** The exceptions of this module: those of [exn], [NameError] and
    [KeyError]. *)
Inductive fexn : Type :=
| Builtin (e : exn)
| NameError (msg : string)
| KeyError (msg : string).

(** The files a call touches. *)
Inductive io : Type :=
| ReadCsv (path : string)
| ToCsv (path : string).

Definition F (A : Type) : Type := (list io * (fexn + A))%type.

Definition fret {A : Type} (a : A) : F A := ([], inr a).

Definition fraise {A : Type} (e : fexn) : F A := ([], inl e).

Definition fbind {A B : Type} (c : F A) (k : A -> F B) : F B :=
  match c with
  | (t, inl e) => (t, inl e)
  | (t, inr a) => let (t', r) := k a in (t ++ t', r)
  end.

(** The names bound at the top of the module; none of the names looked
    up below is a builtin. *)
Definition module_globals : list string :=
  ["np"; "pd"; "data_read_write"; "format_columnar"; "format_dense";
   "set_defaults_and_eval"; "format_transect"; "format_grid"]%string.

(** Reading a global name. *)
Definition lookup_global (name : string) : F unit :=
  if existsb (String.eqb name) module_globals then fret tt
  else fraise (NameError ("global name '" ++ name ++ "' is not defined")).

Section Formats.

(** A data frame. *)
Variable frame : Type.

(** The dense branch of [data_read_write] from the call of its first
    line on, and the body of [format_dense] from the call of its first
    line on. *)
Variable dense_branch : F frame.
Variable format_dense_body : F frame.

Definition data_read_write (data_path_in data_path_out format_type : string)
  : F unit :=
  fbind
    (if (format_type =? "dense")%string then
       fbind (lookup_global "_set_dense_defaults_and_eval") (fun _ =>
       fbind dense_branch (fun form_data => fret (Some form_data)))
     else if (format_type =? "grid")%string then fret None
     else if (format_type =? "columnar")%string then fret None
     else if (format_type =? "transect")%string then fret None
     else fraise (NameError (format_type ++ " is not a supported data format")))
    (fun form_data =>
       match form_data with
       | Some _ => ([ToCsv data_path_out], inr tt)
       | None => fraise (Builtin (UnboundLocalError "form_data"))
       end).

(** [kwargs = set_defaults_and_eval(kwargs, evaluate)] opens the body:
    the function name and then the arguments are read. *)
Definition format_dense : F frame :=
  fbind (lookup_global "set_defaults_and_eval") (fun _ =>
  fbind (lookup_global "evaluate") (fun _ =>
  format_dense_body)).

End Formats.

End MiscFormatData.
(* ================================================================== *)
(** * Facts about the Python and NumPy layer *)
(* ================================================================== *)

Module PyFacts.

Lemma Rleb_true (x y : R) : Rleb x y = true <-> x <= y.
Proof. unfold Rleb. destruct (Rle_dec x y); split; intros; (easy || lra). Qed.

Lemma Rleb_false (x y : R) : Rleb x y = false <-> y < x.
Proof. unfold Rleb. destruct (Rle_dec x y); split; intros; (easy || lra). Qed.

Lemma Rltb_true (x y : R) : Rltb x y = true <-> x < y.
Proof. unfold Rltb. destruct (Rlt_dec x y); split; intros; (easy || lra). Qed.

Lemma Rltb_false (x y : R) : Rltb x y = false <-> y <= x.
Proof. unfold Rltb. destruct (Rlt_dec x y); split; intros; (easy || lra). Qed.

Lemma Reqb_true (x y : R) : Reqb x y = true <-> x = y.
Proof. unfold Reqb. destruct (Req_dec_T x y); split; intros; easy. Qed.

Lemma Reqb_false (x y : R) : Reqb x y = false <-> x <> y.
Proof. unfold Reqb. destruct (Req_dec_T x y); split; intros; easy. Qed.

Lemma Reqb_refl (x : R) : Reqb x x = true.
Proof. now apply Reqb_true. Qed.

Lemma py_sum_from (l : list R) (a : R) : fold_left Rplus l a = a + py_sum l.
Proof.
  unfold py_sum. revert a.
  induction l as [|x l IH]; intros a; simpl.
  - lra.
  - rewrite IH, (IH (0 + x)). lra.
Qed.

Lemma py_sum_cons (x : R) (l : list R) : py_sum (x :: l) = x + py_sum l.
Proof. unfold py_sum at 1. simpl. rewrite py_sum_from. lra. Qed.

Lemma py_sum_nil : py_sum [] = 0.
Proof. reflexivity. Qed.

Lemma py_sum_scaled (s : R) (l : list R) :
  py_sum (map (fun x => x / s) l) = py_sum l / s.
Proof.
  induction l as [|x l IH]; simpl.
  - rewrite py_sum_nil. unfold Rdiv. lra.
  - rewrite !py_sum_cons, IH. unfold Rdiv. lra.
Qed.

Lemma py_sum_nonneg (l : list R) :
  (forall x, In x l -> 0 <= x) -> 0 <= py_sum l.
Proof.
  induction l as [|x l IH]; intros H.
  - rewrite py_sum_nil. lra.
  - rewrite py_sum_cons.
    assert (0 <= x) by (apply H; now left).
    assert (0 <= py_sum l) by (apply IH; intros; apply H; now right).
    lra.
Qed.

Lemma py_sum_ge_member (l : list R) (y : R) :
  (forall x, In x l -> 0 <= x) -> In y l -> y <= py_sum l.
Proof.
  induction l as [|x l IH]; intros H Hy; [easy|].
  rewrite py_sum_cons.
  assert (0 <= x) by (apply H; now left).
  assert (0 <= py_sum l) by (apply py_sum_nonneg; intros; apply H; now right).
  destruct Hy as [->|Hy].
  - lra.
  - assert (y <= py_sum l) by (apply IH; [intros; apply H; now right|easy]).
    lra.
Qed.

Lemma py_sum_Z_from (l : list Z) (a : Z) :
  fold_left Z.add l a = (a + py_sum_Z l)%Z.
Proof.
  unfold py_sum_Z. revert a.
  induction l as [|x l IH]; intros a; simpl.
  - lia.
  - rewrite IH, (IH x). lia.
Qed.

Lemma bind_M_raise {A B : Type} (t : list event) (e : exn) (f : A -> M B) :
  bind (t, inl e) f = (t, inl e).
Proof. reflexivity. Qed.

Lemma bind_M_ret {A B : Type} (a : A) (f : A -> M B) :
  bind (([], inr a) : M A) f = f a.
Proof. simpl. now destruct (f a). Qed.

Lemma bind_M_step {A B : Type} (t : list event) (a : A) (f : A -> M B) :
  bind ((t, inr a) : M A) f = (t ++ fst (f a), snd (f a)).
Proof. reflexivity. Qed.

(** Settles the comparisons of concrete reals in the goal. *)
Ltac Rcmp :=
  repeat match goal with
  | |- context [Rleb ?x ?y] =>
      (replace (Rleb x y) with true by (symmetry; apply Rleb_true; lra))
      || (replace (Rleb x y) with false by (symmetry; apply Rleb_false; lra))
  | |- context [Rltb ?x ?y] =>
      (replace (Rltb x y) with true by (symmetry; apply Rltb_true; lra))
      || (replace (Rltb x y) with false by (symmetry; apply Rltb_false; lra))
  | |- context [Reqb ?x ?y] =>
      (replace (Reqb x y) with true by (symmetry; apply Reqb_true; lra))
      || (replace (Reqb x y) with false by (symmetry; apply Reqb_false; lra))
  end.

End PyFacts.
Export PyFacts.

Module NpFacts.

Lemma fold_Rmin_le_init (t : list R) (x : R) : fold_left Rmin t x <= x.
Proof.
  revert x. induction t as [|y t IH]; intros x; simpl.
  - lra.
  - eapply Rle_trans; [apply IH|apply Rmin_l].
Qed.

Lemma fold_Rmin_lower (t : list R) (x y : R) :
  In y (x :: t) -> fold_left Rmin t x <= y.
Proof.
  revert x. induction t as [|z t IH]; intros x Hy; simpl.
  - destruct Hy as [->|[]]. lra.
  - destruct Hy as [->|[->|Hy]].
    + eapply Rle_trans; [apply fold_Rmin_le_init|apply Rmin_l].
    + eapply Rle_trans; [apply fold_Rmin_le_init|apply Rmin_r].
    + apply IH. now right.
Qed.

Lemma fold_Rmin_member (t : list R) (x : R) : In (fold_left Rmin t x) (x :: t).
Proof.
  revert x. induction t as [|z t IH]; intros x; simpl.
  - now left.
  - destruct (IH (Rmin x z)) as [H|H].
    + unfold Rmin in H at 1. unfold Rmin at 1 3.
      destruct (Rle_dec x z); [left|right; left]; exact H.
    + right; right; exact H.
Qed.

Lemma fold_Rmin_shift (c : R) (t : list R) (x : R) :
  fold_left Rmin (map (fun y => y + c) t) (x + c) = fold_left Rmin t x + c.
Proof.
  revert x. induction t as [|z t IH]; intros x; simpl; [reflexivity|].
  replace (Rmin (x + c) (z + c)) with (Rmin x z + c); [apply IH|].
  unfold Rmin. destruct (Rle_dec x z), (Rle_dec (x + c) (z + c)); lra.
Qed.

Lemma fold_Rmax_ge_init (t : list R) (x : R) : x <= fold_left Rmax t x.
Proof.
  revert x. induction t as [|y t IH]; intros x; simpl.
  - lra.
  - eapply Rle_trans; [apply Rmax_l|apply IH].
Qed.

Lemma fold_Rmax_upper (t : list R) (x y : R) :
  In y (x :: t) -> y <= fold_left Rmax t x.
Proof.
  revert x. induction t as [|z t IH]; intros x Hy; simpl.
  - destruct Hy as [->|[]]. lra.
  - destruct Hy as [->|[->|Hy]].
    + eapply Rle_trans; [apply Rmax_l|apply fold_Rmax_ge_init].
    + eapply Rle_trans; [apply Rmax_r|apply fold_Rmax_ge_init].
    + apply IH. now right.
Qed.

Lemma fold_Rmax_member (t : list R) (x : R) : In (fold_left Rmax t x) (x :: t).
Proof.
  revert x. induction t as [|z t IH]; intros x; simpl.
  - now left.
  - destruct (IH (Rmax x z)) as [H|H].
    + unfold Rmax in H at 1. unfold Rmax at 1 3.
      destruct (Rle_dec x z); [right; left|left]; exact H.
    + right; right; exact H.
Qed.

(** [np.max] of a non-empty array is one of its entries and bounds all. *)
Lemma np_max_spec (a : list R) :
  a <> [] ->
  exists m, np_max a = inr m /\ In m a /\ forall y, In y a -> y <= m.
Proof.
  destruct a as [|x t]; [easy|intros _].
  exists (fold_left Rmax t x). split; [reflexivity|]. split.
  - apply fold_Rmax_member.
  - intros y Hy. now apply fold_Rmax_upper.
Qed.

Lemma np_min_spec (a : list R) :
  a <> [] ->
  exists m, np_min a = inr m /\ In m a /\ forall y, In y a -> m <= y.
Proof.
  destruct a as [|x t]; [easy|intros _].
  exists (fold_left Rmin t x). split; [reflexivity|]. split.
  - apply fold_Rmin_member.
  - intros y Hy. now apply fold_Rmin_lower.
Qed.

Lemma nth_map_in_range {A B : Type} (f : A -> B) (l : list A) (i : nat)
  (d : A) (d' : B) :
  (i < length l)%nat -> nth i (map f l) d' = f (nth i l d).
Proof.
  intros Hi. rewrite (nth_indep _ d' (f d)) by now rewrite length_map.
  apply map_nth.
Qed.

Lemma broadcast_same_length (op : R -> R -> R) (a b : list R) :
  length a = length b ->
  broadcast op a b = inr (map (fun p => op (fst p) (snd p)) (combine a b)).
Proof. intros H. unfold broadcast. now rewrite H, Nat.eqb_refl. Qed.

(** *** Index arrays and assignment through them *)

Lemma set_nth_length (j : nat) (v : R) (a : list R) :
  length (set_nth j v a) = length a.
Proof.
  revert j. induction a as [|x t IH]; intros [|j]; simpl; auto.
Qed.

Lemma set_nth_same (j : nat) (v d : R) (a : list R) :
  (j < length a)%nat -> nth j (set_nth j v a) d = v.
Proof.
  revert j. induction a as [|x t IH]; intros [|j] H; simpl in *; try lia.
  - reflexivity.
  - apply IH. lia.
Qed.

Lemma set_nth_other (j k : nat) (v d : R) (a : list R) :
  k <> j -> nth k (set_nth j v a) d = nth k a d.
Proof.
  revert j k. induction a as [|x t IH]; intros [|j] [|k] H; simpl; try easy.
  apply IH. lia.
Qed.

Lemma set_at_length (loc : list nat) (v : R) (a : list R) :
  length (set_at loc v a) = length a.
Proof.
  unfold set_at. revert a.
  induction loc as [|j loc IH]; intros a; simpl; [reflexivity|].
  now rewrite IH, set_nth_length.
Qed.

Lemma set_at_outside (loc : list nat) (v d : R) (a : list R) (k : nat) :
  ~ In k loc -> nth k (set_at loc v a) d = nth k a d.
Proof.
  unfold set_at. revert a.
  induction loc as [|j loc IH]; intros a Hk; simpl; [reflexivity|].
  rewrite IH by (intros H; apply Hk; now right).
  apply set_nth_other. intros ->. apply Hk. now left.
Qed.

Lemma set_at_inside (loc : list nat) (v d : R) (a : list R) (k : nat) :
  In k loc -> (k < length a)%nat -> nth k (set_at loc v a) d = v.
Proof.
  unfold set_at. revert a.
  induction loc as [|j loc IH]; intros a Hk Hlen; simpl; [easy|].
  destruct (in_dec Nat.eq_dec k loc) as [Hin|Hout].
  - apply IH; [exact Hin|now rewrite set_nth_length].
  - fold (set_at loc v (set_nth j v a)).
    rewrite set_at_outside by exact Hout.
    destruct Hk as [->|Hk]; [|easy].
    now apply set_nth_same.
Qed.

Lemma where_eq_from_spec (pos : nat) (v d : R) (a : list R) (j : nat) :
  In j (where_eq_from pos v a)
  <-> (pos <= j)%nat /\ (j - pos < length a)%nat /\ nth (j - pos) a d = v.
Proof.
  revert pos. induction a as [|x t IH]; intros pos; simpl.
  - split; [easy|]. intros (_ & H & _). lia.
  - destruct (Reqb v x) eqn:E.
    + apply Reqb_true in E. subst x. simpl. rewrite IH. split.
      * intros [<-|(H1 & H2 & H3)].
        -- rewrite Nat.sub_diag. repeat split; lia.
        -- destruct (j - pos)%nat as [|n] eqn:En; [lia|].
           replace (j - S pos)%nat with n in * by lia.
           repeat split; (lia || easy).
      * intros (H1 & H2 & H3).
        destruct (j - pos)%nat as [|n] eqn:En.
        -- left. lia.
        -- right. replace (j - S pos)%nat with n by lia.
           repeat split; (lia || easy).
    + apply Reqb_false in E. rewrite IH. split.
      * intros (H1 & H2 & H3).
        destruct (j - pos)%nat as [|n] eqn:En; [lia|].
        replace (j - S pos)%nat with n in * by lia.
        repeat split; (lia || easy).
      * intros (H1 & H2 & H3).
        destruct (j - pos)%nat as [|n] eqn:En.
        -- now subst x.
        -- replace (j - S pos)%nat with n by lia.
           repeat split; (lia || easy).
Qed.

Lemma np_where_eq_spec (v d : R) (a : list R) (j : nat) :
  In j (np_where_eq v a) <-> (j < length a)%nat /\ nth j a d = v.
Proof.
  unfold np_where_eq. rewrite (where_eq_from_spec 0 v d).
  rewrite Nat.sub_0_r. split; intros H; repeat split; (lia || easy).
Qed.

Lemma where_eq_from_length (pos : nat) (v : R) (a : list R) :
  length (where_eq_from pos v a) = countb (Reqb v) a.
Proof.
  unfold countb. revert pos.
  induction a as [|x t IH]; intros pos; simpl; [reflexivity|].
  destruct (Reqb v x); simpl; now rewrite IH.
Qed.

(** *** Counting *)

Lemma countb_ext_in (p q : R -> bool) (l : list R) :
  (forall y, In y l -> p y = q y) -> countb p l = countb q l.
Proof.
  unfold countb. induction l as [|x t IH]; intros H; simpl; [reflexivity|].
  rewrite (H x) by now left.
  assert (Ht : length (filter p t) = length (filter q t))
    by (apply IH; intros; apply H; now right).
  destruct (q x); simpl; now rewrite Ht.
Qed.

Lemma countb_split (r p q : R -> bool) (l : list R) :
  (forall y, In y l -> r y = p y || q y) ->
  (forall y, In y l -> p y && q y = false) ->
  countb r l = (countb p l + countb q l)%nat.
Proof.
  unfold countb. induction l as [|x t IH]; intros Hr Hd; simpl; [reflexivity|].
  assert (Ht : length (filter r t)
               = (length (filter p t) + length (filter q t))%nat)
    by (apply IH; intros; [apply Hr|apply Hd]; now right).
  pose proof (Hr x (or_introl eq_refl)) as Hx.
  pose proof (Hd x (or_introl eq_refl)) as Hdx.
  rewrite Hx. destruct (p x), (q x); simpl in *; try discriminate; lia.
Qed.

Lemma countb_all (p : R -> bool) (l : list R) :
  (forall y, In y l -> p y = true) -> countb p l = length l.
Proof.
  unfold countb. induction l as [|x t IH]; intros H; simpl; [reflexivity|].
  rewrite (H x) by now left. simpl. f_equal. apply IH.
  intros; apply H; now right.
Qed.

(** *** [np.unique] *)

Lemma insert_unique_In (x y : R) (l : list R) :
  In y (insert_unique x l) <-> y = x \/ In y l.
Proof.
  induction l as [|z t IH]; simpl.
  - intuition.
  - destruct (Rltb x z) eqn:E1; [simpl; intuition|].
    destruct (Reqb x z) eqn:E2.
    + apply Reqb_true in E2. subst z. simpl. intuition.
    + simpl. rewrite IH. intuition.
Qed.

Lemma insert_unique_sorted (x : R) (l : list R) :
  StronglySorted Rlt l -> StronglySorted Rlt (insert_unique x l).
Proof.
  induction l as [|z t IH]; intros Hs; simpl.
  - constructor; constructor.
  - inversion Hs as [|? ? Hst Hall]; subst.
    destruct (Rltb x z) eqn:E1.
    + apply Rltb_true in E1. constructor; [exact Hs|].
      constructor; [exact E1|].
      rewrite Forall_forall in *. intros y Hy.
      apply Rlt_trans with z; [exact E1|now apply Hall].
    + destruct (Reqb x z) eqn:E2; [exact Hs|].
      apply Rltb_false in E1. apply Reqb_false in E2.
      constructor; [now apply IH|].
      rewrite Forall_forall in *. intros y Hy.
      apply insert_unique_In in Hy. destruct Hy as [->|Hy].
      * lra.
      * now apply Hall.
Qed.

Lemma np_unique_In (a : list R) (y : R) : In y (np_unique a) <-> In y a.
Proof.
  unfold np_unique. induction a as [|x t IH]; simpl; [reflexivity|].
  rewrite insert_unique_In, IH. intuition.
Qed.

Lemma np_unique_sorted (a : list R) : StronglySorted Rlt (np_unique a).
Proof.
  unfold np_unique. induction a as [|x t IH]; simpl.
  - constructor.
  - now apply insert_unique_sorted.
Qed.

Lemma sorted_Rlt_NoDup (l : list R) : StronglySorted Rlt l -> NoDup l.
Proof.
  induction 1 as [|x t Hs IH Hall]; constructor; [|exact IH].
  intros Hin. rewrite Forall_forall in Hall. specialize (Hall x Hin). lra.
Qed.

Lemma countb_cons (p : R -> bool) (x : R) (l : list R) :
  countb p (x :: l) = ((if p x then 1 else 0) + countb p l)%nat.
Proof. unfold countb. simpl. now destruct (p x). Qed.

Lemma countb_none (p : R -> bool) (l : list R) :
  (forall y, In y l -> p y = false) -> countb p l = 0%nat.
Proof.
  unfold countb. induction l as [|x t IH]; intros H; simpl; [reflexivity|].
  rewrite (H x) by now left. apply IH. intros; apply H; now right.
Qed.

(** *** Integer arrays *)

Lemma wrap64_small (z : Z) :
  (- 2 ^ 63 <= z < 2 ^ 63)%Z -> wrap64 z = z.
Proof.
  intros H. unfold wrap64. rewrite Z.mod_small by lia. lia.
Qed.

Lemma wrap64_range (z : Z) : (- 2 ^ 63 <= wrap64 z < 2 ^ 63)%Z.
Proof.
  unfold wrap64.
  pose proof (Z.mod_pos_bound (z + 2 ^ 63) (2 ^ 64) ltac:(lia)). lia.
Qed.

Lemma np_sum_int64_small (a : list Z) :
  (- 2 ^ 63 <= py_sum_Z a < 2 ^ 63)%Z -> np_sum_int64 a = py_sum_Z a.
Proof. apply wrap64_small. Qed.

(** *** Masks *)

Lemma add_where_length (mask : list bool) (v : F64.float)
  (a : list F64.float) :
  length (add_where mask v a) = length a.
Proof.
  revert a. induction mask as [|b mask IH]; intros [|x t]; simpl; auto.
Qed.

(** *** Cumulative sums *)

Lemma cumsum_from_sorted (a : list R) :
  Forall (fun p => 0 <= p) a ->
  forall acc, StronglySorted Rle (cumsum_from acc a)
              /\ Forall (fun c => acc <= c) (cumsum_from acc a).
Proof.
  induction 1 as [|x t Hx Ht IH]; intros acc; simpl.
  - split; constructor.
  - destruct (IH (acc + x)) as (Hs & Hb). split.
    + constructor; [exact Hs|exact Hb].
    + constructor; [lra|].
      rewrite Forall_forall in *. intros c Hc. specialize (Hb c Hc). lra.
Qed.

(** *** Grids and first positions *)

Lemma index_nth (m d : R) (l : list R) :
  In m l -> nth (index m l) l d = m.
Proof.
  induction l as [|x t IH]; intros Hin; [easy|]. simpl.
  destruct (Reqb x m) eqn:E.
  - now apply Reqb_true in E.
  - apply Reqb_false in E. destruct Hin as [->|Hin]; [easy|]. now apply IH.
Qed.

Lemma index_in_range (m : R) (l : list R) :
  In m l -> (index m l < length l)%nat.
Proof.
  induction l as [|x t IH]; intros Hin; [easy|]. simpl.
  destruct (Reqb x m) eqn:E; [lia|].
  apply Reqb_false in E. destruct Hin as [->|Hin]; [easy|].
  specialize (IH Hin). lia.
Qed.

(** The grid value at which a function first attains the maximum of its
    values on the grid. *)
Lemma argmax_on_grid (f : R -> R) (grid : list R) (m : R) :
  In m (map f grid) -> f (nth (index m (map f grid)) grid 0) = m.
Proof.
  intros Hin.
  rewrite <- (nth_map_in_range f grid _ 0 0).
  - now apply index_nth.
  - rewrite <- (length_map f). now apply index_in_range.
Qed.

Lemma np_linspace_In (start stop : R) (num i : nat) :
  (i < num)%nat ->
  In (start + INR i * ((stop - start) / INR (num - 1)))
     (np_linspace start stop num).
Proof.
  intros Hi. unfold np_linspace.
  apply in_map_iff. exists i. split; [reflexivity|].
  apply in_seq. lia.
Qed.

End NpFacts.
Export NpFacts.

(* ================================================================== *)
(** * compare.py: AIC weights, likelihood-ratio test, empirical CDF *)
(* ================================================================== *)

Module CompareSpec.

Import Compare.

Section Weights.

Variable lib : numlib.

Lemma aic_weights_unfold (a : list R) (m : R) :
  np_min a = inr m ->
  aic_weights lib (Sequence a)
  = inr (map (fun v => v / py_sum (rel_likelihoods lib m a)) (rel_likelihoods lib m a)).
Proof.
  intros Hm. unfold aic_weights. simpl. rewrite Hm. simpl.
  unfold rel_likelihoods. rewrite !map_map. reflexivity.
Qed.

Lemma rel_likelihoods_sum_pos (a : list R) (m : R) :
  np_exp lib 0 = 1 -> (forall x, 0 <= np_exp lib x) -> In m a ->
  1 <= py_sum (rel_likelihoods lib m a).
Proof.
  intros H0 Hpos Hin.
  apply py_sum_ge_member.
  - intros x Hx. unfold rel_likelihoods in Hx.
    apply in_map_iff in Hx. destruct Hx as (y & <- & _). apply Hpos.
  - unfold rel_likelihoods. apply in_map_iff. exists m. split; [|easy].
    replace (- (m - m) / 2) with 0 by lra. exact H0.
Qed.

Lemma rel_likelihoods_shift (a : list R) (m c : R) :
  rel_likelihoods lib (m + c) (map (fun x => x + c) a) = rel_likelihoods lib m a.
Proof.
  unfold rel_likelihoods. rewrite map_map. apply map_ext.
  intros x. f_equal. lra.
Qed.

Lemma np_min_shift (a : list R) (m c : R) :
  np_min a = inr m -> np_min (map (fun x => x + c) a) = inr (m + c).
Proof.
  destruct a as [|x t]; simpl; [discriminate|].
  intros H. injection H as <-. now rewrite fold_Rmin_shift.
Qed.

End Weights.

(** ** C3 *)

(** C3. For a non-empty list [a] of AIC values, [aic_weights] returns one
    weight per value; the weight of [a_i] is [exp(-(a_i - m)/2)] over the
    sum of these terms, [m] being the least of the values; the weights sum
    to 1 (so within 1e-9 of it); and adding a constant [c] to every value
    gives the same weights.  Of [np.exp] it needs [exp 0 = 1] and a
    non-negative result. *)
Theorem aic_weights_normalised (lib : numlib) (a : list R) (c : R) :
  np_exp lib 0 = 1 ->
  (forall x, 0 <= np_exp lib x) ->
  a <> [] ->
  exists (minimum : R) (weights : list R),
    aic_weights lib (Sequence a) = inr weights /\
    In minimum a /\ (forall x, In x a -> minimum <= x) /\
    length weights = length a /\
    (forall i, (i < length a)%nat ->
       nth i weights 0
       = np_exp lib (- (nth i a 0 - minimum) / 2)
         / py_sum (map (fun x => np_exp lib (- (x - minimum) / 2)) a)) /\
    py_sum weights = 1 /\
    Rabs (py_sum weights - 1) <= 1e-9 /\
    aic_weights lib (Sequence (map (fun x => x + c) a)) = inr weights.
Proof.
  intros H0 Hpos Hne.
  destruct (np_min_spec a Hne) as (m & Hm & Hin & Hlow).
  exists m, (map (fun v => v / py_sum (rel_likelihoods lib m a))
                 (rel_likelihoods lib m a)).
  pose proof (rel_likelihoods_sum_pos lib a m H0 Hpos Hin) as Hsum.
  assert (Hone : py_sum (map (fun v => v / py_sum (rel_likelihoods lib m a))
                             (rel_likelihoods lib m a)) = 1).
  { rewrite py_sum_scaled. field. lra. }
  repeat split.
  - now apply aic_weights_unfold.
  - exact Hin.
  - exact Hlow.
  - unfold rel_likelihoods. now rewrite !length_map.
  - intros i Hi.
    rewrite (nth_map_in_range _ _ _ 0 0)
      by (unfold rel_likelihoods; now rewrite length_map).
    unfold rel_likelihoods at 1.
    rewrite (nth_map_in_range _ _ _ 0 0) by exact Hi.
    reflexivity.
  - exact Hone.
  - rewrite Hone. rewrite Rminus_diag, Rabs_R0. lra.
  - rewrite (aic_weights_unfold lib _ (m + c)) by now apply np_min_shift.
    now rewrite rel_likelihoods_shift.
Qed.

Lemma aic_weights_normalised_witness :
  exists (minimum : R) (weights : list R),
    aic_weights Sample.sample_lib (Sequence [12; 10]) = inr weights /\
    In minimum [12; 10] /\ (forall x, In x [12; 10] -> minimum <= x) /\
    length weights = length [12; 10] /\
    (forall i, (i < length [12; 10])%nat ->
       nth i weights 0
       = np_exp Sample.sample_lib (- (nth i [12; 10] 0 - minimum) / 2)
         / py_sum (map (fun x => np_exp Sample.sample_lib (- (x - minimum) / 2))
                       [12; 10])) /\
    py_sum weights = 1 /\
    Rabs (py_sum weights - 1) <= 1e-9 /\
    aic_weights Sample.sample_lib (Sequence (map (fun x => x + 5) [12; 10]))
    = inr weights.
Proof.
  apply (aic_weights_normalised Sample.sample_lib [12; 10] 5).
  - exact exp_0.
  - intros x. left. apply exp_pos.
  - discriminate.
Defined.

(** On an empty list [np.min] raises, and so does [aic_weights]. *)
Lemma aic_weights_empty (lib : numlib) :
  exists msg, aic_weights lib (Sequence []) = inl (ValueError msg).
Proof. eexists. reflexivity. Qed.

(** A bare number is a list of one value: its weight is 1. *)
Lemma aic_weights_scalar (lib : numlib) (x : R) :
  np_exp lib 0 = 1 -> aic_weights lib (Scalar x) = inr [1].
Proof.
  intros H0. unfold aic_weights. simpl.
  replace (- (x - x) / 2) with 0 by lra.
  rewrite H0. unfold py_sum. simpl. do 2 f_equal. field.
Qed.

(** ** C4 *)

Lemma likelihood_ratio_test_unfold (lib : numlib) (nll_null nll_alt df_list : list R) :
  length nll_null = length nll_alt ->
  length nll_null = length df_list ->
  likelihood_ratio_test lib (Sequence nll_null) (Sequence nll_alt)
    (Sequence df_list)
  = inr (map (fun p => (fst p, chisqprob lib (fst p) (snd p)))
           (combine (map (fun p => 2 * fst p - 2 * snd p)
                         (combine nll_null nll_alt))
                    df_list)).
Proof.
  intros H1 H2. unfold likelihood_ratio_test. simpl.
  rewrite <- H1, <- H2, !Nat.eqb_refl. simpl.
  rewrite broadcast_same_length by now rewrite !length_map.
  simpl. do 3 f_equal.
  clear H2. revert nll_alt H1.
  induction nll_null as [|x t IH]; intros [|y u] H; simpl; try easy.
  f_equal. apply IH. simpl in H. lia.
Qed.

(** C4. On three arrays of one length, [likelihood_ratio_test] returns one
    pair per position: the statistic [2*nll_null - 2*nll_alt] and
    [chisqprob] of that statistic and the degrees of freedom there; the
    statistic is non-negative wherever [nll_null >= nll_alt]; and for
    [nll_null = 50.0], [nll_alt = 45.0], [df = 1] it is [10.0]. *)
Theorem likelihood_ratio_test_spec (lib : numlib)
  (nll_null nll_alt df_list : list R) :
  length nll_null = length nll_alt ->
  length nll_null = length df_list ->
  exists out : list (R * R),
    likelihood_ratio_test lib (Sequence nll_null) (Sequence nll_alt)
      (Sequence df_list) = inr out /\
    length out = length nll_null /\
    (forall i, (i < length nll_null)%nat ->
       nth i out (0, 0)
       = (2 * nth i nll_null 0 - 2 * nth i nll_alt 0,
          chisqprob lib (2 * nth i nll_null 0 - 2 * nth i nll_alt 0)
            (nth i df_list 0)) /\
       (nth i nll_alt 0 <= nth i nll_null 0 -> 0 <= fst (nth i out (0, 0)))) /\
    likelihood_ratio_test lib (Scalar 50) (Scalar 45) (Scalar 1)
    = inr [(10, chisqprob lib 10 1)].
Proof.
  intros H1 H2.
  eexists. split; [now apply likelihood_ratio_test_unfold|].
  assert (Hlen : length (combine (map (fun p => 2 * fst p - 2 * snd p)
                                      (combine nll_null nll_alt)) df_list)
                 = length nll_null).
  { rewrite length_combine, length_map, length_combine. lia. }
  split; [now rewrite length_map|]. split.
  - intros i Hi.
    assert (Hrow : nth i (map (fun p => (fst p, chisqprob lib (fst p) (snd p)))
                     (combine (map (fun p => 2 * fst p - 2 * snd p)
                                   (combine nll_null nll_alt)) df_list)) (0, 0)
                   = (2 * nth i nll_null 0 - 2 * nth i nll_alt 0,
                      chisqprob lib (2 * nth i nll_null 0 - 2 * nth i nll_alt 0)
                        (nth i df_list 0))).
    { rewrite (nth_map_in_range _ _ _ (0, 0)) by lia.
      rewrite combine_nth by (rewrite length_map, length_combine; lia).
      rewrite (nth_map_in_range _ _ _ (0, 0)) by (rewrite length_combine; lia).
      rewrite combine_nth by exact H1. reflexivity. }
    split; [exact Hrow|].
    intros Hle. rewrite Hrow. simpl. lra.
  - unfold likelihood_ratio_test, broadcast. simpl.
    replace (2 * 50 - 2 * 45) with 10 by lra. reflexivity.
Qed.

Lemma likelihood_ratio_test_spec_witness :
  exists out : list (R * R),
    likelihood_ratio_test Sample.sample_lib (Sequence [50; 40])
      (Sequence [45; 41]) (Sequence [1; 2]) = inr out /\
    length out = length [50; 40] /\
    (forall i, (i < length [50; 40])%nat ->
       nth i out (0, 0)
       = (2 * nth i [50; 40] 0 - 2 * nth i [45; 41] 0,
          chisqprob Sample.sample_lib
            (2 * nth i [50; 40] 0 - 2 * nth i [45; 41] 0)
            (nth i [1; 2] 0)) /\
       (nth i [45; 41] 0 <= nth i [50; 40] 0 -> 0 <= fst (nth i out (0, 0)))) /\
    likelihood_ratio_test Sample.sample_lib (Scalar 50) (Scalar 45) (Scalar 1)
    = inr [(10, chisqprob Sample.sample_lib 10 1)].
Proof.
  apply (likelihood_ratio_test_spec Sample.sample_lib [50; 40] [45; 41] [1; 2]);
    reflexivity.
Defined.

(** Arrays of different lengths are refused by the assertion. *)
Lemma likelihood_ratio_test_length_mismatch (lib : numlib) :
  exists msg,
    likelihood_ratio_test lib (Sequence [50; 40]) (Sequence [45]) (Scalar 1)
    = inl (AssertionError msg).
Proof. eexists. reflexivity. Qed.

(** ** C5 *)

Lemma below_all_iff (us : list R) (y : R) :
  forallb (Rltb y) us = true <-> forall u, In u us -> y < u.
Proof.
  rewrite forallb_forall. split; intros H u Hu.
  - now apply Rltb_true, H.
  - now apply Rltb_true, H.
Qed.

Section CdfLoop.

Variable data : list R.

(** What the observations at most [u] are, when [u] heads the pending
    unique values: those below every pending value, and those equal
    to [u]. *)
Lemma count_le_head (u : R) (us : list R) :
  StronglySorted Rlt (u :: us) ->
  (forall y, In y data -> In y (u :: us) \/ forallb (Rltb y) (u :: us) = true) ->
  count_le u data
  = (countb (fun y => forallb (Rltb y) (u :: us)) data
     + length (np_where_eq u data))%nat.
Proof.
  intros Hs Hcov. inversion Hs as [|? ? Hst Hall]; subst.
  rewrite Forall_forall in Hall.
  unfold np_where_eq. rewrite where_eq_from_length.
  unfold count_le. apply countb_split.
  - intros y Hy. apply eq_iff_eq_true.
    rewrite orb_true_iff, Rleb_true, below_all_iff, Reqb_true. split.
    + intros Hle. destruct (Hcov y Hy) as [[<-|Hin]|Hb].
      * now right.
      * specialize (Hall y Hin). lra.
      * left. now apply below_all_iff.
    + intros [Hb|<-]; [|lra].
      left. apply Hb. now left.
  - intros y Hy. apply not_true_is_false. intros H.
    apply andb_true_iff in H. destruct H as (Hb & He).
    apply Reqb_true in He. subst y.
    rewrite below_all_iff in Hb. specialize (Hb u (or_introl eq_refl)). lra.
Qed.

Lemma count_le_tail (u : R) (us : list R) :
  StronglySorted Rlt (u :: us) ->
  (forall y, In y data -> In y (u :: us) \/ forallb (Rltb y) (u :: us) = true) ->
  count_le u data = countb (fun y => forallb (Rltb y) us) data.
Proof.
  intros Hs Hcov. inversion Hs as [|? ? Hst Hall]; subst.
  rewrite Forall_forall in Hall.
  unfold count_le. apply countb_ext_in. intros y Hy.
  apply eq_iff_eq_true. rewrite Rleb_true, below_all_iff. split.
  - intros Hle v Hv. specialize (Hall v Hv). lra.
  - intros Hb. destruct (Hcov y Hy) as [[<-|Hin]|Hb'].
    + lra.
    + specialize (Hb y Hin). lra.
    + rewrite below_all_iff in Hb'. left. apply Hb'. now left.
Qed.

Lemma cover_tail (u : R) (us : list R) :
  StronglySorted Rlt (u :: us) ->
  (forall y, In y data -> In y (u :: us) \/ forallb (Rltb y) (u :: us) = true) ->
  forall y, In y data -> In y us \/ forallb (Rltb y) us = true.
Proof.
  intros Hs Hcov y Hy. inversion Hs as [|? ? Hst Hall]; subst.
  rewrite Forall_forall in Hall.
  destruct (Hcov y Hy) as [[<-|Hin]|Hb].
  - right. now apply below_all_iff.
  - now left.
  - right. simpl in Hb. now apply andb_true_iff in Hb.
Qed.

(** The loop over the pending unique values [us], entered with [count]
    and [cdf]: every position holding a pending value gets its cumulative
    fraction, every other position keeps what it held. *)
Lemma cdf_loop (us : list R) :
  StronglySorted Rlt us ->
  forall (count : nat) (cdf : list R),
  (forall y, In y data -> In y us \/ forallb (Rltb y) us = true) ->
  count = countb (fun y => forallb (Rltb y) us) data ->
  length cdf = length data ->
  length (snd (fold_left (cdf_step data (length data)) us (count, cdf)))
  = length data /\
  forall j, (j < length data)%nat ->
    (In (nth j data 0) us ->
     nth j (snd (fold_left (cdf_step data (length data)) us (count, cdf))) 0
     = INR (count_le (nth j data 0) data) / INR (length data)) /\
    (~ In (nth j data 0) us ->
     nth j (snd (fold_left (cdf_step data (length data)) us (count, cdf))) 0
     = nth j cdf 0).
Proof.
  induction us as [|u us IH]; intros Hs count cdf Hcov Hcount Hlen.
  - simpl. split; [exact Hlen|]. intros j Hj. split; [easy|reflexivity].
  - simpl fold_left. unfold cdf_step at 2 4 6. simpl fst. simpl snd.
    assert (Hc1 : (count + length (np_where_eq u data))%nat = count_le u data).
    { rewrite Hcount. symmetry. now apply count_le_head. }
    rewrite Hc1.
    assert (Hst : StronglySorted Rlt us) by now inversion Hs.
    assert (Hall : forall v, In v us -> u < v).
    { inversion Hs as [|? ? ? Hf]. now rewrite Forall_forall in Hf. }
    set (cdf1 := set_at (np_where_eq u data)
                   (INR (count_le u data) / INR (length data)) cdf).
    assert (Hlen1 : length cdf1 = length data)
      by (unfold cdf1; now rewrite set_at_length).
    destruct (IH Hst (count_le u data) cdf1
                (cover_tail u us Hs Hcov) (count_le_tail u us Hs Hcov) Hlen1)
      as (HL & HJ).
    split; [exact HL|].
    intros j Hj. destruct (HJ j Hj) as (Hin & Hout). split.
    + intros [Hu|Hus]; [|now apply Hin].
      rewrite Hout.
      * unfold cdf1. rewrite <- Hu. apply set_at_inside; [|lia].
        apply (np_where_eq_spec _ 0). split; [exact Hj|now symmetry].
      * intros Hus. specialize (Hall _ Hus). lra.
    + intros Hnot. rewrite Hout by (intros H; apply Hnot; now right).
      unfold cdf1. apply set_at_outside.
      intros Hloc. apply (np_where_eq_spec _ 0) in Hloc.
      apply Hnot. left. symmetry. apply Hloc.
Qed.

End CdfLoop.

Lemma empirical_cdf_unfold (junk : nat -> R) (data : list R) :
  empirical_cdf junk (Sequence data)
  = inr (snd (fold_left (cdf_step data (length data)) (np_unique data)
                (0%nat, np_empty junk (length data)))).
Proof. reflexivity. Qed.

Lemma empirical_cdf_entries (junk : nat -> R) (data : list R) :
  length (snd (fold_left (cdf_step data (length data)) (np_unique data)
                 (0%nat, np_empty junk (length data)))) = length data /\
  forall j, (j < length data)%nat ->
    nth j (snd (fold_left (cdf_step data (length data)) (np_unique data)
                  (0%nat, np_empty junk (length data)))) 0
    = INR (count_le (nth j data 0) data) / INR (length data).
Proof.
  destruct (cdf_loop data (np_unique data) (np_unique_sorted data)
              0%nat (np_empty junk (length data))) as (HL & HJ).
  - intros y Hy. left. now apply np_unique_In.
  - rewrite (countb_ext_in _ (fun _ => false)).
    + unfold countb. clear. induction data; simpl; auto.
    + intros y Hy. apply not_true_is_false. intros H.
      rewrite below_all_iff in H.
      specialize (H y (proj2 (np_unique_In data y) Hy)). lra.
  - unfold np_empty. now rewrite length_map, length_seq.
  - split; [exact HL|]. intros j Hj. apply (HJ j Hj).
    apply np_unique_In. now apply nth_In.
Qed.

(** C5. For a non-empty array [data], [empirical_cdf] returns an array of
    the same length whose entry at [j] is the number of observations at
    most [data[j]] over the number of observations, whatever the
    uninitialised array held; equal observations get equal entries; and
    the loop that fills the array runs over [np.unique], in which every
    observed value occurs once. *)
Theorem empirical_cdf_spec (junk : nat -> R) (data : list R) :
  data <> [] ->
  exists cdf : list R,
    empirical_cdf junk (Sequence data) = inr cdf /\
    length cdf = length data /\
    (forall j, (j < length data)%nat ->
       nth j cdf 0 = INR (count_le (nth j data 0) data) / INR (length data)) /\
    (forall j k, (j < length data)%nat -> (k < length data)%nat ->
       nth j data 0 = nth k data 0 -> nth j cdf 0 = nth k cdf 0) /\
    cdf = snd (fold_left (cdf_step data (length data)) (np_unique data)
                 (0%nat, np_empty junk (length data))) /\
    NoDup (np_unique data) /\
    (forall v, In v (np_unique data) <-> In v data).
Proof.
  intros _.
  destruct (empirical_cdf_entries junk data) as (HL & HJ).
  eexists. split; [apply empirical_cdf_unfold|].
  split; [exact HL|]. split; [exact HJ|]. split.
  - intros j k Hj Hk E. rewrite (HJ j Hj), (HJ k Hk), E. reflexivity.
  - split; [reflexivity|]. split.
    + apply sorted_Rlt_NoDup, np_unique_sorted.
    + intros v. apply np_unique_In.
Qed.

Lemma empirical_cdf_spec_witness :
  exists cdf : list R,
    empirical_cdf (fun _ => 7) (Sequence [3; 1; 3; 2]) = inr cdf /\
    length cdf = length [3; 1; 3; 2] /\
    (forall j, (j < length [3; 1; 3; 2])%nat ->
       nth j cdf 0 = INR (count_le (nth j [3; 1; 3; 2] 0) [3; 1; 3; 2])
                     / INR (length [3; 1; 3; 2])) /\
    (forall j k, (j < length [3; 1; 3; 2])%nat ->
       (k < length [3; 1; 3; 2])%nat ->
       nth j [3; 1; 3; 2] 0 = nth k [3; 1; 3; 2] 0 ->
       nth j cdf 0 = nth k cdf 0) /\
    cdf = snd (fold_left (cdf_step [3; 1; 3; 2] (length [3; 1; 3; 2]))
                 (np_unique [3; 1; 3; 2])
                 (0%nat, np_empty (fun _ => 7) (length [3; 1; 3; 2]))) /\
    NoDup (np_unique [3; 1; 3; 2]) /\
    (forall v, In v (np_unique [3; 1; 3; 2]) <-> In v [3; 1; 3; 2]).
Proof.
  apply (empirical_cdf_spec (fun _ => 7) [3; 1; 3; 2]). discriminate.
Defined.

(** The loop on [[3, 1, 3, 2]]: the unique values are [1, 2, 3], and the
    two observations [3] share the last fraction. *)
Example np_unique_3132 : np_unique [3; 1; 3; 2] = [1; 2; 3].
Proof. unfold np_unique. repeat (progress (simpl; Rcmp)). reflexivity. Qed.

Example empirical_cdf_3132 (junk : nat -> R) :
  empirical_cdf junk (Sequence [3; 1; 3; 2]) = inr [1; 1 / 4; 1; 1 / 2].
Proof.
  rewrite empirical_cdf_unfold, np_unique_3132.
  unfold cdf_step, np_where_eq, np_empty.
  repeat (progress (simpl; Rcmp)).
  f_equal. repeat (apply f_equal2; [field|]). reflexivity.
Qed.

(** No observation, no entry. *)
Lemma empirical_cdf_empty (junk : nat -> R) :
  empirical_cdf junk (Sequence []) = inr [].
Proof. reflexivity. Qed.

End CompareSpec.


(* ================================================================== *)
(** * The sample libraries on the bracket of the approximation *)
(* ================================================================== *)

Module SampleFacts.

Import PredictSad Sample.

(** ** The logarithm itself *)

Lemma ln_le_pred (y : R) : 0 < y -> ln y <= y - 1.
Proof.
  intros Hy. destruct (Req_dec y 1) as [->|Hne].
  - rewrite ln_1. lra.
  - left. rewrite <- (ln_exp (y - 1)). apply ln_increasing; [exact Hy|].
    pose proof (exp_ineq1 (y - 1)). lra.
Qed.

Lemma ln_ge_inv (y : R) : 0 < y -> 1 - / y <= ln y.
Proof.
  intros Hy. pose proof (Rinv_0_lt_compat y Hy) as Hi.
  pose proof (ln_le_pred (/ y) Hi) as H. rewrite ln_Rinv in H by exact Hy. lra.
Qed.

(** On [0 < x < 1] the constraint function is [u ln(1/u) - S/N] at
    [u = - ln x]. *)
Lemma approx_eq_ln (S N : Z) (x : R) :
  0 < x < 1 ->
  approx_eq sample_lib S N x
  = (- ln x) * ln (/ (- ln x)) - IZR S / IZR N.
Proof.
  intros Hx. unfold approx_eq. simpl m_log.
  assert (ln x < 0) by (rewrite <- ln_1; apply ln_increasing; lra).
  replace (-1 / ln x) with (/ (- ln x)) by (field; lra). reflexivity.
Qed.

Lemma neg_ln_bounds (x : R) : 0 < x -> 1 - x <= - ln x <= / x - 1.
Proof.
  intros Hx. pose proof (ln_le_pred x Hx). pose proof (ln_ge_inv x Hx). lra.
Qed.

Lemma u_ln_inv_neg (u : R) : 1 < u -> u * ln (/ u) < 0.
Proof.
  intros Hu. rewrite ln_Rinv by lra.
  assert (0 < ln u) by (rewrite <- ln_1; apply ln_increasing; lra). nra.
Qed.

Lemma u_ln_inv_small (u : R) : 0 < u -> u * ln (/ u) <= 1 / 10 + 8 * u.
Proof.
  intros Hu. pose proof (Rinv_0_lt_compat u Hu) as Hw.
  assert (Hln : ln (/ u) <= / u / 10 + 8).
  { replace (/ u) with ((/ u / 10) * 10) at 1 by (field; lra).
    rewrite ln_mult by lra.
    pose proof (ln_le_pred (/ u / 10)). pose proof (ln_le_pred 10). lra. }
  replace (1 / 10 + 8 * u) with (u * (/ u / 10 + 8)) by (field; lra).
  apply Rmult_le_compat_l; lra.
Qed.

Lemma u_ln_inv_lower (u : R) : 0 < u -> u * (1 - u) <= u * ln (/ u).
Proof.
  intros Hu. pose proof (Rinv_0_lt_compat u Hu) as Hw.
  pose proof (ln_ge_inv (/ u) Hw) as H. rewrite Rinv_inv in H.
  apply Rmult_le_compat_l; lra.
Qed.

(** ** [S = 2], [N = 10] under the logarithm: two roots in the bracket *)

Lemma approx_eq_2_10_start : approx_eq sample_lib 2 10 approx_start < 0.
Proof.
  unfold approx_start. rewrite approx_eq_ln by lra.
  assert (Hu : 1 < - ln 0.3).
  { assert (ln 0.3 < ln (exp (- (1)))); [|rewrite ln_exp in *; lra].
    apply ln_increasing; [lra|].
    rewrite exp_Ropp. pose proof exp_le_3. pose proof (exp_pos 1).
    apply Rlt_le_trans with (/ 3); [lra|].
    apply Rinv_le_contravar; lra. }
  pose proof (u_ln_inv_neg _ Hu). lra.
Qed.

Lemma approx_eq_2_10_stop : approx_eq sample_lib 2 10 approx_stop < 0.
Proof.
  unfold approx_stop. rewrite approx_eq_ln by lra.
  destruct (neg_ln_bounds (1 - 1e-10)) as (Hlo & Hhi); [lra|].
  assert (Hinv : / (1 - 1e-10) <= 1 + 2e-10).
  { apply Rmult_le_reg_l with (1 - 1e-10); [lra|].
    rewrite Rinv_r by lra. lra. }
  pose proof (u_ln_inv_small (- ln (1 - 1e-10))). lra.
Qed.

Lemma grid_value_In (i : nat) : (i < 1000)%nat -> In (grid_value i) approx_values.
Proof.
  intros Hi. unfold grid_value, approx_values. now apply np_linspace_In.
Qed.

Lemma mid_grid_bounds : 0.64 <= mid_grid <= 0.66.
Proof.
  unfold mid_grid, grid_value, approx_start, approx_stop.
  rewrite !INR_IZR_INZ. simpl Z.of_nat. lra.
Qed.

Lemma approx_eq_2_10_mid : 0 < approx_eq sample_lib 2 10 mid_grid.
Proof.
  pose proof mid_grid_bounds as Hm.
  rewrite approx_eq_ln by lra.
  destruct (neg_ln_bounds mid_grid) as (Hlo & Hhi); [lra|].
  assert (Hinv : / mid_grid <= 1.5625).
  { apply Rmult_le_reg_l with mid_grid; [lra|].
    rewrite Rinv_r by lra. lra. }
  pose proof (u_ln_inv_lower (- ln mid_grid)). nra.
Qed.

(** The first call of [brentq], the grid scan and the second call. *)
Lemma sample_2_10_first_try :
  brentq sample_lib (approx_eq sample_lib 2 10) approx_start approx_stop
  = inl (ValueError "f(a) and f(b) must have different signs").
Proof.
  simpl brentq. unfold bisect_brentq.
  pose proof approx_eq_2_10_start. pose proof approx_eq_2_10_stop.
  replace (Rltb 0 _) with true by (symmetry; apply Rltb_true; nra).
  reflexivity.
Qed.

Lemma sample_2_10_scan :
  exists ymax,
    np_max (approx_solns sample_lib 2 10) = inr ymax /\ 0 < ymax /\
    approx_eq sample_lib 2 10 (approx_xmax sample_lib 2 10 ymax) = ymax.
Proof.
  assert (Hin : In (approx_eq sample_lib 2 10 mid_grid)
                   (approx_solns sample_lib 2 10)).
  { unfold approx_solns. apply in_map. apply grid_value_In. lia. }
  destruct (np_max_spec (approx_solns sample_lib 2 10)) as (m & Hm & Hmem & Hup).
  { intros E. rewrite E in Hin. exact Hin. }
  exists m. split; [exact Hm|]. split.
  - pose proof approx_eq_2_10_mid. specialize (Hup _ Hin). lra.
  - unfold approx_xmax, approx_solns. now apply argmax_on_grid.
Qed.

Lemma sample_2_10_second_try (ymax : R) :
  0 < ymax ->
  approx_eq sample_lib 2 10 (approx_xmax sample_lib 2 10 ymax) = ymax ->
  brentq sample_lib (approx_eq sample_lib 2 10)
    (approx_xmax sample_lib 2 10 ymax) approx_stop
  = inr (bisect (approx_eq sample_lib 2 10)
           (approx_xmax sample_lib 2 10 ymax) approx_stop 100).
Proof.
  intros Hpos Hval. simpl brentq. unfold bisect_brentq. rewrite Hval.
  pose proof approx_eq_2_10_stop.
  replace (Rltb 0 _) with false by (symmetry; apply Rltb_false; nra).
  reflexivity.
Qed.

(** ** [S = 2], [N = 8] under the plateau logarithm of peak [1/4]:
    the grid maximum is zero *)

Lemma plateau_log_low (peak x : R) : x <= 0.3 -> plateau_log peak x = - (1 / 2).
Proof. intros H. unfold plateau_log. Rcmp. reflexivity. Qed.

Lemma plateau_log_inside (peak x : R) :
  0.3 < x < 1 - 1e-10 -> plateau_log peak x = -1.
Proof. intros H. unfold plateau_log. Rcmp. reflexivity. Qed.

Lemma plateau_log_high (peak x : R) :
  1 - 1e-10 <= x < 1 -> plateau_log peak x = - (1 / 2).
Proof. intros H. unfold plateau_log. Rcmp. reflexivity. Qed.

Lemma plateau_log_one (peak : R) : plateau_log peak 1 = peak.
Proof. unfold plateau_log. Rcmp. reflexivity. Qed.

Lemma plateau_log_above (peak x : R) : 1 < x -> plateau_log peak x = 0.
Proof. intros H. unfold plateau_log. Rcmp. reflexivity. Qed.

Lemma plateau_eq_ends (peak : R) (S N : Z) (x : R) :
  x <= 0.3 \/ 1 - 1e-10 <= x < 1 ->
  approx_eq (plateau_lib peak) S N x = - (IZR S / IZR N).
Proof.
  intros H. unfold approx_eq. simpl m_log.
  replace (plateau_log peak x) with (- (1 / 2))
    by (symmetry; destruct H; [now apply plateau_log_low
                              |now apply plateau_log_high]).
  replace (-1 / - (1 / 2)) with 2 by field.
  rewrite plateau_log_above by lra. lra.
Qed.

Lemma plateau_eq_inside (peak : R) (S N : Z) (x : R) :
  0.3 < x < 1 - 1e-10 ->
  approx_eq (plateau_lib peak) S N x = peak - IZR S / IZR N.
Proof.
  intros H. unfold approx_eq. simpl m_log.
  rewrite (plateau_log_inside peak x H).
  replace (-1 / -1) with 1 by field.
  rewrite plateau_log_one. lra.
Qed.

Lemma plateau_eq_nowhere_positive (x : R) :
  approx_eq (plateau_lib (1 / 4)) 2 8 x <= 0.
Proof.
  destruct (Rle_lt_dec x 0.3) as [H1|H1].
  { rewrite plateau_eq_ends by now left. lra. }
  destruct (Rlt_le_dec x (1 - 1e-10)) as [H2|H2].
  { rewrite plateau_eq_inside by lra. lra. }
  destruct (Rlt_le_dec x 1) as [H3|H3].
  { rewrite plateau_eq_ends by (right; lra). lra. }
  unfold approx_eq. simpl m_log.
  destruct H3 as [H3|<-].
  - rewrite (plateau_log_above _ x H3). rewrite Ropp_0, Rmult_0_l. lra.
  - rewrite plateau_log_one.
    replace (-1 / (1 / 4)) with (-4) by field.
    rewrite plateau_log_low by lra. lra.
Qed.

Lemma first_inner_grid_bounds : 0.3 < first_inner_grid < 1 - 1e-10.
Proof.
  unfold first_inner_grid, grid_value, approx_start, approx_stop.
  rewrite !INR_IZR_INZ. simpl Z.of_nat. lra.
Qed.

Lemma plateau_2_8_first_try :
  brentq (plateau_lib (1 / 4)) (approx_eq (plateau_lib (1 / 4)) 2 8)
    approx_start approx_stop
  = inl (ValueError "f(a) and f(b) must have different signs").
Proof.
  simpl brentq. unfold bisect_brentq, approx_start, approx_stop.
  rewrite !plateau_eq_ends by (lra || (right; lra)).
  replace (Rltb 0 _) with true by (symmetry; apply Rltb_true; lra).
  reflexivity.
Qed.

Lemma plateau_2_8_scan :
  np_max (approx_solns (plateau_lib (1 / 4)) 2 8) = inr 0.
Proof.
  assert (Hin : In (approx_eq (plateau_lib (1 / 4)) 2 8 first_inner_grid)
                   (approx_solns (plateau_lib (1 / 4)) 2 8)).
  { unfold approx_solns. apply in_map. apply grid_value_In. lia. }
  destruct (np_max_spec (approx_solns (plateau_lib (1 / 4)) 2 8))
    as (m & Hm & Hmem & Hup).
  { intros E. rewrite E in Hin. exact Hin. }
  rewrite Hm. f_equal.
  specialize (Hup _ Hin).
  rewrite plateau_eq_inside in Hup by apply first_inner_grid_bounds.
  unfold approx_solns in Hmem. apply in_map_iff in Hmem.
  destruct Hmem as (x & <- & _).
  pose proof (plateau_eq_nowhere_positive x). lra.
Qed.

End SampleFacts.

(* ================================================================== *)
(** * predict_sad.py: guards, floors, truncation, ranks, roots *)
(* ================================================================== *)

Module PredictSadSpec.

Import PredictSad.

(** ** C7 *)

Lemma check_shape_malformed (S N : Z) (abundances : list Z) (pmf_ret : bool)
  (m4 m5 : string) :
  malformed S N abundances pmf_ret ->
  exists msg,
    check_shape S N abundances pmf_ret m4 m5 = ([], inl (AssertionError msg)).
Proof.
  intros Hbad. unfold check_shape, assert_.
  destruct (S <? N)%Z eqn:E1; [|eexists; reflexivity].
  destruct (S >? 1)%Z eqn:E2; [|eexists; reflexivity].
  destruct (N >? 0)%Z eqn:E3; [|eexists; reflexivity].
  apply Z.ltb_lt in E1. apply Z.gtb_lt in E2.
  destruct Hbad as [H|[H|(-> & H)]]; try lia.
  simpl negb. cbv iota.
  destruct (len abundances =? S)%Z eqn:E4; [|eexists; reflexivity].
  destruct (np_sum_int64 abundances =? N)%Z eqn:E5; [|eexists; reflexivity].
  apply Z.eqb_eq in E4, E5. destruct H as [H|(_ & H)]; contradiction.
Qed.

Lemma check_shape_well_formed (S N : Z) (abundances : list Z) (pmf_ret : bool)
  (m4 m5 : string) :
  well_formed S N abundances pmf_ret ->
  check_shape S N abundances pmf_ret m4 m5 = ([], inr tt).
Proof.
  intros ((H1 & H2) & H3). unfold check_shape, assert_.
  replace (S <? N)%Z with true by (symmetry; apply Z.ltb_lt; lia).
  replace (S >? 1)%Z with true by (symmetry; apply Z.gtb_lt; lia).
  replace (N >? 0)%Z with true by (symmetry; apply Z.gtb_lt; lia).
  destruct pmf_ret; [reflexivity|].
  destruct (H3 eq_refl) as (H4 & H5 & _).
  simpl negb. cbv iota.
  replace (len abundances =? S)%Z with true by (symmetry; now apply Z.eqb_eq).
  replace (np_sum_int64 abundances =? N)%Z with true
    by (symmetry; now apply Z.eqb_eq).
  reflexivity.
Qed.

(** C7. On malformed shape arguments ([S >= N], or [S <= 1], or, with
    [pmf_ret=False], a vector whose length is not [S] or, its entries
    being int64, whose sum as [np.sum] takes it is not [N]) each of
    [lgsr_pmf],
    [neg_binom_pmf] and [mete_lgsr_pmf] raises [AssertionError] having
    entered no root-finder and no pmf routine. *)
Theorem shape_assertions_first (lib : numlib) (S N : Z) (k : R)
  (abundances : list Z) (pmf_ret : bool) :
  malformed S N abundances pmf_ret ->
  (exists msg, lgsr_pmf lib S N abundances pmf_ret
               = ([], inl (AssertionError msg))) /\
  (exists msg, neg_binom_pmf lib S N k abundances pmf_ret
               = ([], inl (AssertionError msg))) /\
  (exists msg, mete_lgsr_pmf lib S N abundances pmf_ret
               = ([], inl (AssertionError msg))).
Proof.
  intros Hbad. repeat split.
  - destruct (check_shape_malformed S N abundances pmf_ret
                "Length of abundances must equal S"
                "Sum of abundances must equal N" Hbad) as (msg & E).
    exists msg. unfold lgsr_pmf. now rewrite E.
  - destruct (check_shape_malformed S N abundances pmf_ret
                "Length of abundances must equal S"
                "Sum of abundances must equal N" Hbad) as (msg & E).
    exists msg. unfold neg_binom_pmf. now rewrite E.
  - destruct (check_shape_malformed S N abundances pmf_ret
                "If pmf_ret = False, length of abundances must equal S"
                "If pmf_ret = False, sum of abundances must equal N" Hbad)
      as (msg & E).
    exists msg. unfold mete_lgsr_pmf. now rewrite E.
Qed.

Lemma shape_assertions_first_witness :
  (exists msg, lgsr_pmf Sample.sample_lib 5 10 [5; 4]%Z false
               = ([], inl (AssertionError msg))) /\
  (exists msg, neg_binom_pmf Sample.sample_lib 5 10 2 [5; 4]%Z false
               = ([], inl (AssertionError msg))) /\
  (exists msg, mete_lgsr_pmf Sample.sample_lib 5 10 [5; 4]%Z false
               = ([], inl (AssertionError msg))).
Proof.
  apply (shape_assertions_first Sample.sample_lib 5 10 2 [5; 4]%Z false).
  right. right. split; [reflexivity|]. left. discriminate.
Defined.

(** The sum the assertion compares wraps: the entries of
    [[2^63 - 1, 2^63 - 1, 6]] add up to [2^64 + 4], [np.sum] gives 4, and
    with [S = 3], [N = 4] the vector passes every assertion of
    [mete_lgsr_pmf], which enters the root-finder. *)
Lemma shape_sum_wraps_past_assertion :
  len [2 ^ 63 - 1; 2 ^ 63 - 1; 6]%Z = 3%Z /\
  py_sum_Z [2 ^ 63 - 1; 2 ^ 63 - 1; 6]%Z <> 4%Z /\
  fst (mete_lgsr_pmf Sample.sample_lib 3 4
         [2 ^ 63 - 1; 2 ^ 63 - 1; 6]%Z false)
  = [CallBrentq 0.3 (mete_stop Sample.sample_lib 3 4)].
Proof.
  split; [reflexivity|]. split; [discriminate|].
  unfold mete_lgsr_pmf.
  rewrite (check_shape_well_formed 3 4 [2 ^ 63 - 1; 2 ^ 63 - 1; 6]%Z false)
    by (split; [lia|intros _; split; [reflexivity|split; [reflexivity|]];
        repeat constructor; lia]).
  rewrite (bind_M_ret tt). unfold call_brentq.
  fold (mete_eq Sample.sample_lib 3 4). fold (mete_stop Sample.sample_lib 3 4).
  destruct (brentq Sample.sample_lib (mete_eq Sample.sample_lib 3 4) 0.3
              (mete_stop Sample.sample_lib 3 4)) as [e|x]; reflexivity.
Qed.

(** Which assertion speaks: the first that fails, in source order. *)
Example lgsr_pmf_S_not_below_N (lib : numlib) :
  lgsr_pmf lib 10 10 [] true
  = ([], inl (AssertionError "S must be less than N")).
Proof. reflexivity. Qed.

Example mete_lgsr_pmf_sum_mismatch (lib : numlib) :
  mete_lgsr_pmf lib 2 10 [1; 8]%Z false
  = ([], inl (AssertionError
                "If pmf_ret = False, sum of abundances must equal N")).
Proof. reflexivity. Qed.

(** ** C2 *)

Lemma np_arange_Z_length (lo hi : Z) :
  length (np_arange_Z lo hi) = Z.to_nat (hi - lo).
Proof. unfold np_arange_Z. now rewrite length_map, length_seq. Qed.

Lemma plognorm_pmf_degenerate (lib : numlib) (mean var : R)
  (abundances : list Z) (pmf_ret : bool) :
  abundances <> [] ->
  var <= 0 \/ mean <= 0 ->
  plognorm_pmf lib mean var abundances pmf_ret
  = ([], inr (np_repeat floor_pmf
                (if pmf_ret then Z.to_nat (py_sum_Z abundances)
                 else length abundances))).
Proof.
  intros Hne Hdeg. unfold plognorm_pmf, assert_.
  replace (len abundances >=? 1)%Z with true.
  2:{ symmetry. apply Z.geb_le. unfold len.
      destruct abundances; [easy|simpl length; lia]. }
  cbv iota. rewrite (bind_M_ret tt).
  replace (Rleb var 0 || Rleb mean 0) with true.
  2:{ symmetry. apply orb_true_iff.
      destruct Hdeg; [left|right]; now apply Rleb_true. }
  destruct pmf_ret; [|reflexivity].
  rewrite np_arange_Z_length. simpl ret. do 4 f_equal. lia.
Qed.




(** ** C6 *)

Lemma broadcast_singleton_r (op : R -> R -> R) (a : list R) (y : R) :
  broadcast op a [y] = inr (map (fun x => op x y) a).
Proof.
  unfold broadcast. destruct a as [|x [|x' t]]; reflexivity.
Qed.

(** The single-point call that yields [PMF(0)] returns one number. *)
Lemma plognorm_pmf_at_zero (lib : numlib) (mean var : R) :
  exists (t0 : list event) (p0 : R),
    plognorm_pmf lib mean var [0%Z] false = (t0, inr [p0]).
Proof.
  unfold plognorm_pmf, assert_. simpl (len _ >=? 1)%Z.
  cbv iota. rewrite (bind_M_ret tt).
  destruct (Rleb var 0 || Rleb mean 0).
  - do 2 eexists. reflexivity.
  - do 2 eexists. reflexivity.
Qed.

(** C6. [trun_plognorm_pmf] is the untruncated [plognorm_pmf] of the same
    arguments followed by the single-point call
    [plognorm_pmf(mean, var, [0], pmf_ret=False)], which yields one
    number [p0], every entry of the former being divided by [1 - p0]. *)
Theorem trun_plognorm_pmf_spec (lib : numlib) (mean var : R)
  (abundances : list Z) (pmf_ret : bool) :
  exists (t0 : list event) (p0 : R),
    plognorm_pmf lib mean var [0%Z] false = (t0, inr [p0]) /\
    trun_plognorm_pmf lib mean var abundances pmf_ret
    = (untr_pmf <- plognorm_pmf lib mean var abundances pmf_ret ;;
       _ <- plognorm_pmf lib mean var [0%Z] false ;;
       ret (map (fun p => p / (1 - p0)) untr_pmf)).
Proof.
  destruct (plognorm_pmf_at_zero lib mean var) as (t0 & p0 & E0).
  exists t0, p0. split; [exact E0|].
  unfold trun_plognorm_pmf. rewrite E0.
  destruct (plognorm_pmf lib mean var abundances pmf_ret) as (t, [e|untr]).
  - reflexivity.
  - rewrite !bind_M_step. simpl map. unfold lift.
    now rewrite broadcast_singleton_r.
Qed.

(** In the degenerate region both calls return the floor, so the
    truncated pmf is the floor over one minus the floor. *)
Example trun_plognorm_pmf_degenerate (lib : numlib) :
  trun_plognorm_pmf lib (-1) (-1) [1; 2]%Z false
  = ([], inr [1e-120 / (1 - 1e-120); 1e-120 / (1 - 1e-120)]).
Proof.
  unfold trun_plognorm_pmf.
  rewrite !plognorm_pmf_degenerate by (discriminate || (left; lra)).
  reflexivity.
Qed.

(** ** C9 *)

Lemma nll_assert_cond_truthy (lib : numlib) (distribution : string) :
  truthy (nll_assert_cond lib distribution) = true.
Proof.
  unfold nll_assert_cond.
  destruct (str_is lib distribution "mete"); reflexivity.
Qed.

(** The value of the [or] chain: [True] when the name is the very object
    ['mete'], else the string ['mete_approx']. *)
Lemma nll_assert_cond_value (lib : numlib) (distribution : string) :
  nll_assert_cond lib distribution
  = if str_is lib distribution "mete" then PyBool true
    else PyStr "mete_approx".
Proof.
  unfold nll_assert_cond.
  destruct (str_is lib distribution "mete"); reflexivity.
Qed.

(** C9. The assertion of [nll] holds of every string: its condition is
    truthy whatever the name.  For a name outside the six documented ones
    no branch assigns [pmf], so the call enters no routine and fails on
    reading [pmf], with [UnboundLocalError]. *)
Theorem nll_unrecognised_name (lib : numlib) (sad : list Z)
  (distribution : string) :
  ~ In distribution supported_distributions ->
  (forall name, truthy (nll_assert_cond lib name) = true) /\
  nll lib sad distribution = ([], inl (UnboundLocalError "pmf")).
Proof.
  intros Hout. split; [intros name; apply nll_assert_cond_truthy|].
  unfold nll, assert_. rewrite nll_assert_cond_truthy.
  assert (Hne : forall name, In name supported_distributions ->
                  (distribution =? name)%string = false).
  { intros name Hin. apply String.eqb_neq. intros ->. now apply Hout. }
  rewrite !Hne by (unfold supported_distributions; simpl; tauto).
  reflexivity.
Qed.

Lemma nll_unrecognised_name_witness :
  (forall name, truthy (nll_assert_cond Sample.sample_lib name) = true) /\
  nll Sample.sample_lib [3; 5; 9]%Z "weibull"
  = ([], inl (UnboundLocalError "pmf")).
Proof.
  apply (nll_unrecognised_name Sample.sample_lib [3; 5; 9]%Z "weibull").
  unfold supported_distributions. simpl.
  intros [H|[H|[H|[H|[H|[H|[]]]]]]]; discriminate H.
Defined.

(** ** C8 *)

Lemma rank_loop_length (S_points cutoffs : list F64.float) :
  forall S_abunds : list F64.float,
  length S_abunds = length S_points ->
  length (rank_loop S_points cutoffs S_abunds) = length S_points.
Proof.
  induction cutoffs as [|c rest IH]; intros S_abunds Hlen; [exact Hlen|].
  simpl rank_loop.
  destruct (any (map (fun p => F64.leb c p) S_points)); simpl negb;
    cbv iota.
  - apply IH. now rewrite add_where_length.
  - now rewrite add_where_length.
Qed.

(** One abundance per point of the range. *)
Lemma make_rank_abund_length (sad_pmf S_points : list F64.float) (S : Z) :
  S_points_of S = inr S_points ->
  exists S_abunds : list F64.float,
    make_rank_abund sad_pmf S = inr S_abunds /\
    length S_abunds = length S_points.
Proof.
  intros E. unfold make_rank_abund. rewrite E.
  eexists. split; [reflexivity|].
  apply rank_loop_length. unfold np_zeros. apply repeat_length.
Qed.

(** For 98 species the quotient [(stop - start) / step] is
    [98.000000000000014], and the range has 99 points. *)
Lemma S_points_of_98 :
  exists S_points : list F64.float,
    S_points_of 98 = inr S_points /\ length S_points = 99%nat.
Proof.
  destruct (S_points_of 98) as [e|pts] eqn:E.
  - exfalso. revert E. vm_compute. discriminate.
  - exists pts. split; [reflexivity|].
    apply (f_equal (fun r => match r with
                             | inr l => length l
                             | inl _ => O
                             end)) in E.
    rewrite <- E. vm_compute. reflexivity.
Qed.

(** C8. [make_rank_abund] does not return [S] values for every [S]: for
    98 species it returns 99, whatever the pmf.  Nor does a value always
    count the cutoffs up to the quantile [(i - 0.5)/S]: for 11 species
    under the pmf [[0.5, 0.5]] the sixth point of the range is
    [0.49999999999999994], below the cutoff [0.5] that the quantile
    [5.5/11] reaches, and the sixth value is 1 where the count is 2. *)
Theorem make_rank_abund_not_S_quantiles :
  (forall sad_pmf : list F64.float,
     exists S_abunds : list F64.float,
       make_rank_abund sad_pmf 98 = inr S_abunds /\
       length S_abunds = 99%nat) /\
  make_rank_abund [F64.ratio 1 2; F64.ratio 1 2] 11
  = inr (map F64.of_Z [1; 1; 1; 1; 1; 1; 2; 2; 2; 2; 2]%Z) /\
  quantile_rank [0.5; 0.5] ((INR 6 - 0.5) / IZR 11) = 2%nat.
Proof.
  split; [|split].
  - intros sad_pmf. destruct S_points_of_98 as (pts & E & L).
    destruct (make_rank_abund_length sad_pmf pts 98 E) as (out & Eo & Lo).
    exists out. split; [exact Eo|]. now rewrite Lo.
  - vm_compute. reflexivity.
  - unfold quantile_rank, countb, np_cumsum.
    replace ((INR 6 - 0.5) / IZR 11) with 0.5 by (simpl; lra).
    repeat (progress (simpl; Rcmp)). reflexivity.
Qed.

(** Two species under the pmf [[0.5, 0.3, 0.2]]: the points are [0.25]
    and [0.75], the cutoffs [0, 0.5, 0.8, 1]; the loop leaves at [0.8]. *)
Example make_rank_abund_two_species :
  make_rank_abund [F64.ratio 1 2; F64.ratio 3 10; F64.ratio 1 5] 2
  = inr (map F64.of_Z [1; 2]%Z).
Proof. vm_compute. reflexivity. Qed.

(** [S = 0] divides by zero. *)
Example make_rank_abund_no_species (sad_pmf : list F64.float) :
  make_rank_abund sad_pmf 0 = inl ZeroDivisionError.
Proof. reflexivity. Qed.

(** ** The fallback of [mete_lgsr_approx_pmf] *)

Section ApproxFallback.

Variable lib : numlib.
Variables S N : Z.
Variable abundances : list Z.
Variable pmf_ret : bool.
Variable msg : string.
Variable ymax : R.

Hypothesis shape_ok : well_formed S N abundances pmf_ret.
Hypothesis first_try :
  brentq lib (approx_eq lib S N) approx_start approx_stop
  = inl (ValueError msg).
Hypothesis scan : np_max (approx_solns lib S N) = inr ymax.

(** Up to the end of the grid scan. *)
Lemma approx_enters_fallback (root : Z) :
  mete_lgsr_approx_pmf lib S N abundances pmf_ret root
  = (xv <- try_except_ValueError
             (([CallBrentq approx_start approx_stop], inl (ValueError msg))
              : M (option R))
             (x <- (if Rltb 0 ymax then
                      print two_roots_warning ;;
                      x <- (if (root =? 1)%Z
                            then v <- call_brentq lib (approx_eq lib S N)
                                        approx_start (approx_xmax lib S N ymax) ;;
                                 ret (Some v)
                            else ret None) ;;
                      (if (root =? 2)%Z
                       then v <- call_brentq lib (approx_eq lib S N)
                                   (approx_xmax lib S N ymax) approx_stop ;;
                            ret (Some v)
                       else ret x)
                    else ret None) ;;
              (if Rltb ymax 0 then
                 raise (RootError
                   "No solution to constraint equation with given values of S and N")
               else ret tt) ;;
              ret x) ;;
     x <- load "x" xv ;;
     ret (approx_pmf_of lib N abundances pmf_ret x)).
Proof.
  unfold mete_lgsr_approx_pmf.
  rewrite (check_shape_well_formed _ _ _ _ _ _ shape_ok), (bind_M_ret tt).
  unfold call_brentq at 1. rewrite first_try, bind_M_raise.
  rewrite scan. unfold lift. rewrite (bind_M_ret ymax).
  reflexivity.
Qed.

Lemma approx_negative_maximum (root : Z) :
  ymax < 0 ->
  exists value,
    mete_lgsr_approx_pmf lib S N abundances pmf_ret root
    = ([CallBrentq approx_start approx_stop], inl (RootError value)).
Proof.
  intros Hneg. rewrite approx_enters_fallback.
  replace (Rltb 0 ymax) with false by (symmetry; apply Rltb_false; lra).
  replace (Rltb ymax 0) with true by (symmetry; apply Rltb_true; lra).
  eexists. reflexivity.
Qed.

Lemma approx_lower_root :
  0 < ymax ->
  mete_lgsr_approx_pmf lib S N abundances pmf_ret 1
  = ([CallBrentq approx_start approx_stop; Stdout two_roots_warning;
      CallBrentq approx_start (approx_xmax lib S N ymax)],
     approx_pmf_at lib N abundances pmf_ret
       (brentq lib (approx_eq lib S N) approx_start
          (approx_xmax lib S N ymax))).
Proof.
  intros Hpos. rewrite approx_enters_fallback.
  replace (Rltb 0 ymax) with true by (symmetry; apply Rltb_true; lra).
  replace (Rltb ymax 0) with false by (symmetry; apply Rltb_false; lra).
  unfold call_brentq, approx_pmf_at.
  destruct (brentq lib (approx_eq lib S N) approx_start
              (approx_xmax lib S N ymax)) as [e|x]; reflexivity.
Qed.

Lemma approx_upper_root :
  0 < ymax ->
  mete_lgsr_approx_pmf lib S N abundances pmf_ret 2
  = ([CallBrentq approx_start approx_stop; Stdout two_roots_warning;
      CallBrentq (approx_xmax lib S N ymax) approx_stop],
     approx_pmf_at lib N abundances pmf_ret
       (brentq lib (approx_eq lib S N) (approx_xmax lib S N ymax)
          approx_stop)).
Proof.
  intros Hpos. rewrite approx_enters_fallback.
  replace (Rltb 0 ymax) with true by (symmetry; apply Rltb_true; lra).
  replace (Rltb ymax 0) with false by (symmetry; apply Rltb_false; lra).
  unfold call_brentq, approx_pmf_at.
  destruct (brentq lib (approx_eq lib S N) (approx_xmax lib S N ymax)
              approx_stop) as [e|x]; reflexivity.
Qed.

(** A selector other than 1 and 2 assigns no root either. *)
Lemma approx_other_selector (root : Z) :
  0 < ymax -> root <> 1%Z -> root <> 2%Z ->
  mete_lgsr_approx_pmf lib S N abundances pmf_ret root
  = ([CallBrentq approx_start approx_stop; Stdout two_roots_warning],
     inl (UnboundLocalError "x")).
Proof.
  intros Hpos H1 H2. rewrite approx_enters_fallback.
  replace (Rltb 0 ymax) with true by (symmetry; apply Rltb_true; lra).
  replace (Rltb ymax 0) with false by (symmetry; apply Rltb_false; lra).
  replace (root =? 1)%Z with false by (symmetry; now apply Z.eqb_neq).
  replace (root =? 2)%Z with false by (symmetry; now apply Z.eqb_neq).
  reflexivity.
Qed.

End ApproxFallback.

(** ** C10 *)

(** C10. When the first [brentq] raises [ValueError] and the maximum of
    the grid scan is exactly zero, neither [ymax > 0] nor [ymax < 0]
    holds: no root is assigned, no [RootError] is raised, and the call
    fails on reading [x], with [UnboundLocalError], whatever the
    selector. *)
Theorem approx_zero_maximum_unbound (lib : numlib) (S N : Z)
  (abundances : list Z) (pmf_ret : bool) (root : Z) (msg : string) :
  well_formed S N abundances pmf_ret ->
  brentq lib (approx_eq lib S N) approx_start approx_stop
  = inl (ValueError msg) ->
  np_max (approx_solns lib S N) = inr 0 ->
  mete_lgsr_approx_pmf lib S N abundances pmf_ret root
  = ([CallBrentq approx_start approx_stop], inl (UnboundLocalError "x")).
Proof.
  intros Hwf Htry Hscan.
  rewrite (approx_enters_fallback lib S N abundances pmf_ret msg 0 Hwf
             Htry Hscan).
  (* neither [ymax > 0] nor [ymax < 0] *)
  replace (Rltb 0 0) with false by (symmetry; apply Rltb_false; lra).
  cbv iota.
  (* the handler ends with [x] unset, and [load] raises *)
  unfold try_except_ValueError, load. reflexivity.
Qed.

Lemma approx_zero_maximum_unbound_witness :
  well_formed 2 8 [1; 7]%Z false /\
  brentq (Sample.plateau_lib (1 / 4))
    (approx_eq (Sample.plateau_lib (1 / 4)) 2 8) approx_start approx_stop
  = inl (ValueError "f(a) and f(b) must have different signs") /\
  np_max (approx_solns (Sample.plateau_lib (1 / 4)) 2 8) = inr 0 /\
  mete_lgsr_approx_pmf (Sample.plateau_lib (1 / 4)) 2 8 [1; 7]%Z false 2
  = ([CallBrentq approx_start approx_stop], inl (UnboundLocalError "x")).
Proof.
  assert (Hwf : well_formed 2 8 [1; 7]%Z false).
  { split; [lia|]. intros _. split; [reflexivity|split; [reflexivity|repeat constructor; lia]]. }
  split; [exact Hwf|].
  split; [exact SampleFacts.plateau_2_8_first_try|].
  split; [exact SampleFacts.plateau_2_8_scan|].
  apply (approx_zero_maximum_unbound (Sample.plateau_lib (1 / 4)) 2 8
           [1; 7]%Z false 2 "f(a) and f(b) must have different signs").
  - exact Hwf.
  - exact SampleFacts.plateau_2_8_first_try.
  - exact SampleFacts.plateau_2_8_scan.
Defined.

(** ** C1 *)

(** C1, counterexample.  [S = 2], [N = 10], abundances [[1, 9]], no
    [root] given, the logarithm being the logarithm and [brentq] a
    bisection: the first [brentq] raises, the grid maximum is positive,
    and the call returns the pmf at the root of the upper sub-bracket,
    after the warning. *)
Lemma approx_default_takes_upper_root :
  exists (msg : string) (ymax x : R),
    brentq Sample.sample_lib (approx_eq Sample.sample_lib 2 10)
      approx_start approx_stop = inl (ValueError msg) /\
    np_max (approx_solns Sample.sample_lib 2 10) = inr ymax /\
    0 < ymax /\
    brentq Sample.sample_lib (approx_eq Sample.sample_lib 2 10)
      (approx_xmax Sample.sample_lib 2 10 ymax) approx_stop = inr x /\
    mete_lgsr_approx_pmf_kw Sample.sample_lib 2 10 (Some [1; 9]%Z) None None
    = ([CallBrentq approx_start approx_stop; Stdout two_roots_warning;
        CallBrentq (approx_xmax Sample.sample_lib 2 10 ymax) approx_stop],
       inr (approx_pmf_of Sample.sample_lib 10 [1; 9]%Z false x)).
Proof.
  destruct SampleFacts.sample_2_10_scan as (ymax & Hscan & Hpos & Hval).
  pose proof (SampleFacts.sample_2_10_second_try ymax Hpos Hval) as Hsecond.
  eexists. exists ymax. eexists.
  split; [exact SampleFacts.sample_2_10_first_try|].
  split; [exact Hscan|]. split; [exact Hpos|]. split; [exact Hsecond|].
  unfold mete_lgsr_approx_pmf_kw. simpl kwarg.
  rewrite (approx_upper_root Sample.sample_lib 2 10 [1; 9]%Z false
             "f(a) and f(b) must have different signs" ymax).
  - rewrite Hsecond. reflexivity.
  - split; [lia|]. intros _. split; [reflexivity|split; [reflexivity|repeat constructor; lia]].
  - exact SampleFacts.sample_2_10_first_try.
  - exact Hscan.
  - exact Hpos.
Qed.

(** C1, amended.  When the first [brentq] raises [ValueError] and the
    maximum [ymax] of the grid scan is positive, the function prints the
    warning and takes its root from the sub-bracket that [root] names:
    from the start of the bracket to the grid value of the maximum for
    [root = 1], from that value to the end of the bracket for [root = 2];
    a call that gives no [root] is the call with [root = 2]. *)
Theorem approx_two_roots_selector (lib : numlib) (S N : Z)
  (abundances : list Z) (pmf_ret : bool) (msg : string) (ymax : R) :
  well_formed S N abundances pmf_ret ->
  brentq lib (approx_eq lib S N) approx_start approx_stop
  = inl (ValueError msg) ->
  np_max (approx_solns lib S N) = inr ymax ->
  0 < ymax ->
  mete_lgsr_approx_pmf lib S N abundances pmf_ret 1
  = ([CallBrentq approx_start approx_stop; Stdout two_roots_warning;
      CallBrentq approx_start (approx_xmax lib S N ymax)],
     approx_pmf_at lib N abundances pmf_ret
       (brentq lib (approx_eq lib S N) approx_start
          (approx_xmax lib S N ymax))) /\
  mete_lgsr_approx_pmf lib S N abundances pmf_ret 2
  = ([CallBrentq approx_start approx_stop; Stdout two_roots_warning;
      CallBrentq (approx_xmax lib S N ymax) approx_stop],
     approx_pmf_at lib N abundances pmf_ret
       (brentq lib (approx_eq lib S N) (approx_xmax lib S N ymax)
          approx_stop)) /\
  mete_lgsr_approx_pmf_kw lib S N (Some abundances) (Some pmf_ret) None
  = mete_lgsr_approx_pmf lib S N abundances pmf_ret 2.
Proof.
  intros Hwf Htry Hscan Hpos. split; [|split].
  - now apply (approx_lower_root lib S N abundances pmf_ret msg ymax).
  - now apply (approx_upper_root lib S N abundances pmf_ret msg ymax).
  - reflexivity.
Qed.

Lemma approx_two_roots_selector_witness :
  exists ymax : R,
    0 < ymax /\
    np_max (approx_solns Sample.sample_lib 2 10) = inr ymax /\
    (mete_lgsr_approx_pmf Sample.sample_lib 2 10 [1; 9]%Z false 1
     = ([CallBrentq approx_start approx_stop; Stdout two_roots_warning;
         CallBrentq approx_start (approx_xmax Sample.sample_lib 2 10 ymax)],
        approx_pmf_at Sample.sample_lib 10 [1; 9]%Z false
          (brentq Sample.sample_lib (approx_eq Sample.sample_lib 2 10)
             approx_start (approx_xmax Sample.sample_lib 2 10 ymax))) /\
     mete_lgsr_approx_pmf Sample.sample_lib 2 10 [1; 9]%Z false 2
     = ([CallBrentq approx_start approx_stop; Stdout two_roots_warning;
         CallBrentq (approx_xmax Sample.sample_lib 2 10 ymax) approx_stop],
        approx_pmf_at Sample.sample_lib 10 [1; 9]%Z false
          (brentq Sample.sample_lib (approx_eq Sample.sample_lib 2 10)
             (approx_xmax Sample.sample_lib 2 10 ymax) approx_stop)) /\
     mete_lgsr_approx_pmf_kw Sample.sample_lib 2 10 (Some [1; 9]%Z)
       (Some false) None
     = mete_lgsr_approx_pmf Sample.sample_lib 2 10 [1; 9]%Z false 2).
Proof.
  destruct SampleFacts.sample_2_10_scan as (ymax & Hscan & Hpos & _).
  exists ymax. split; [exact Hpos|]. split; [exact Hscan|].
  apply (approx_two_roots_selector Sample.sample_lib 2 10 [1; 9]%Z false
           "f(a) and f(b) must have different signs" ymax).
  - split; [lia|]. intros _. split; [reflexivity|split; [reflexivity|repeat constructor; lia]].
  - exact SampleFacts.sample_2_10_first_try.
  - exact Hscan.
  - exact Hpos.
Defined.

End PredictSadSpec.

(* ================================================================== *)
(** * Further facts about the NumPy layer *)
(* ================================================================== *)

Module NpMore.

Lemma np_linspace_length (start stop : R) (num : nat) :
  length (np_linspace start stop num) = num.
Proof. unfold np_linspace. now rewrite length_map, length_seq. Qed.

Lemma np_linspace_nth (start stop d : R) (num i : nat) :
  (i < num)%nat ->
  nth i (np_linspace start stop num) d
  = start + INR i * ((stop - start) / INR (num - 1)).
Proof.
  intros Hi. unfold np_linspace.
  rewrite (nth_map_in_range _ _ _ 0%nat) by now rewrite length_seq.
  now rewrite seq_nth.
Qed.

(** The grid [np.linspace(1, N, num=N)] holds [1, 2, ..., N]. *)
Lemma np_linspace_1_N_nth (N a : Z) (d : R) :
  (1 <= a <= N)%Z -> (2 <= N)%Z ->
  nth (Z.to_nat (a - 1)) (np_linspace 1 (IZR N) (Z.to_nat N)) d = IZR a.
Proof.
  intros Ha HN. rewrite np_linspace_nth by lia.
  rewrite !INR_IZR_INZ.
  replace (Z.of_nat (Z.to_nat (a - 1))) with (a - 1)%Z by lia.
  replace (Z.of_nat (Z.to_nat N - 1)) with (N - 1)%Z by lia.
  rewrite !minus_IZR.
  assert (2 <= IZR N) by (apply IZR_le; lia).
  field. lra.
Qed.

Lemma np_arange_Z_nth (lo hi d : Z) (i : nat) :
  (i < Z.to_nat (hi - lo))%nat ->
  nth i (np_arange_Z lo hi) d = (lo + Z.of_nat i)%Z.
Proof.
  intros Hi. unfold np_arange_Z.
  rewrite (nth_map_in_range _ _ _ 0%nat) by now rewrite length_seq.
  now rewrite seq_nth.
Qed.

(** All values of a grid lie between its ends. *)
Lemma np_linspace_range (start stop : R) (num : nat) (v : R) :
  start <= stop -> In v (np_linspace start stop num) -> start <= v <= stop.
Proof.
  intros Hle Hin. unfold np_linspace in Hin.
  apply in_map_iff in Hin. destruct Hin as (i & <- & Hi).
  apply in_seq in Hi.
  assert (Hn : INR (num - 1) = INR num - 1)
    by (rewrite minus_INR by lia; reflexivity).
  assert (H0 : 0 <= INR i) by apply pos_INR.
  assert (H1 : INR i <= INR num - 1).
  { rewrite <- Hn. apply le_INR. lia. }
  destruct (Req_dec (INR num - 1) 0) as [Hz|Hnz].
  - assert (INR i = 0) by lra. rewrite H. lra.
  - rewrite Hn.
    assert (0 < INR num - 1) by lra.
    assert (Hq : 0 <= INR i / (INR num - 1) <= 1).
    { split.
      - apply Rmult_le_pos; [lra|]. left. now apply Rinv_0_lt_compat.
      - apply Rmult_le_reg_r with (INR num - 1); [lra|].
        unfold Rdiv. rewrite Rmult_assoc, Rinv_l by lra. lra. }
    replace (INR i * ((stop - start) / (INR num - 1)))
      with ((stop - start) * (INR i / (INR num - 1))) by (field; lra).
    nra.
Qed.

Lemma last_nth {A : Type} (l : list A) (d : A) :
  last l d = nth (length l - 1) l d.
Proof.
  induction l as [|r t IH]; [reflexivity|].
  destruct t as [|r' u]; [reflexivity|].
  change (last (r :: r' :: u) d) with (last (r' :: u) d).
  rewrite IH. simpl length.
  replace (S (S (length u)) - 1)%nat with (S (length u)) by lia.
  replace (S (length u) - 1)%nat with (length u) by lia.
  reflexivity.
Qed.

Lemma map_const_repeat {A : Type} (c : R) (l : list A) :
  map (fun _ => c) l = repeat c (length l).
Proof. induction l; simpl; congruence. Qed.

End NpMore.
Export NpMore.

(* ================================================================== *)
(** * predict_sad.py: the two evaluation modes, the successful paths *)
(* ================================================================== *)

Module PredictSadMore.

Import PredictSad PredictSadSpec.

(** ** Evaluation at the abundances against evaluation on [1..N] *)

Section Modes.

Variable lib : numlib.
Variables S N : Z.
Variables abundances other : list Z.

Hypothesis shape_ok : well_formed S N abundances false.
Hypothesis in_range : Forall (fun a => (1 <= a <= N)%Z) abundances.

Lemma range_N : (3 <= N)%Z.
Proof. destruct shape_ok as (H & _). lia. Qed.

Lemma shape_ok_full : well_formed S N other true.
Proof.
  destruct shape_ok as (H & _). split; [exact H|]. discriminate.
Qed.

(** Picking the entries of a pmf on [1..N] that the abundances name. *)
Lemma pick_on_linspace (f : R -> R) :
  map f (map IZR abundances)
  = map (fun a => nth (Z.to_nat (a - 1))
                    (map f (np_linspace 1 (IZR N) (Z.to_nat N))) 0)
        abundances.
Proof.
  pose proof range_N as HN.
  rewrite map_map. apply map_ext_in. intros a Ha.
  rewrite Forall_forall in in_range. specialize (in_range a Ha).
  rewrite (nth_map_in_range f _ _ 0 0)
    by (rewrite np_linspace_length; lia).
  now rewrite np_linspace_1_N_nth by lia.
Qed.

Lemma pick_on_arange (f : R -> R) :
  map f (map IZR abundances)
  = map (fun a => nth (Z.to_nat (a - 1))
                    (map f (map IZR (np_arange_Z 1 (N + 1)))) 0)
        abundances.
Proof.
  rewrite map_map. apply map_ext_in. intros a Ha.
  rewrite Forall_forall in in_range. specialize (in_range a Ha).
  rewrite map_map.
  rewrite (nth_map_in_range _ _ _ 0%Z 0)
    by (rewrite np_arange_Z_length; lia).
  rewrite np_arange_Z_nth by lia.
  do 2 f_equal. lia.
Qed.

Lemma lgsr_pmf_pick :
  lgsr_pmf lib S N abundances false
  = (full <- lgsr_pmf lib S N other true ;;
     ret (map (fun a => nth (Z.to_nat (a - 1)) full 0) abundances)).
Proof.
  unfold lgsr_pmf.
  rewrite (check_shape_well_formed _ _ _ _ _ _ shape_ok).
  rewrite (check_shape_well_formed _ _ _ _ _ _ shape_ok_full).
  rewrite !(bind_M_ret tt). unfold call_brentq.
  destruct (brentq lib _ (-2) (1 - 1e-10)) as [e|x]; [reflexivity|].
  rewrite !bind_M_step. unfold emit. rewrite !bind_M_step.
  simpl. do 2 f_equal.
  apply (pick_on_linspace (fun k => logser_pmf lib k x)).
Qed.

Lemma neg_binom_pmf_pick (k : R) :
  neg_binom_pmf lib S N k abundances false
  = (full <- neg_binom_pmf lib S N k other true ;;
     ret (map (fun a => nth (Z.to_nat (a - 1)) full 0) abundances)).
Proof.
  unfold neg_binom_pmf.
  rewrite (check_shape_well_formed _ _ _ _ _ _ shape_ok).
  rewrite (check_shape_well_formed _ _ _ _ _ _ shape_ok_full).
  rewrite !(bind_M_ret tt).
  destruct (Reqb (IZR N / IZR S + k) 0); [reflexivity|].
  change (ret (k / (IZR N / IZR S + k)) : M R)
    with (([], inr (k / (IZR N / IZR S + k))) : M R).
  rewrite !bind_M_ret. unfold emit. rewrite !bind_M_step.
  simpl. do 2 f_equal.
  apply (pick_on_arange (fun n => nbinom_pmf lib n k (k / (IZR N / IZR S + k)))).
Qed.

Lemma mete_lgsr_pmf_pick :
  mete_lgsr_pmf lib S N abundances false
  = (full <- mete_lgsr_pmf lib S N other true ;;
     ret (map (fun a => nth (Z.to_nat (a - 1)) full 0) abundances)).
Proof.
  unfold mete_lgsr_pmf.
  rewrite (check_shape_well_formed _ _ _ _ _ _ shape_ok).
  rewrite (check_shape_well_formed _ _ _ _ _ _ shape_ok_full).
  rewrite !(bind_M_ret tt). unfold call_brentq.
  destruct (brentq lib _ 0.3 _) as [e|x]; [reflexivity|].
  rewrite !bind_M_step. simpl. do 2 f_equal.
  apply (pick_on_linspace
           (fun nv => fpow lib x nv / nv
                      / py_sum (map (fun n => fpow lib x n / n)
                                  (np_linspace 1 (IZR N) (Z.to_nat N))))).
Qed.

Lemma mete_lgsr_approx_pmf_pick (root : Z) :
  mete_lgsr_approx_pmf lib S N abundances false root
  = (full <- mete_lgsr_approx_pmf lib S N other true root ;;
     ret (map (fun a => nth (Z.to_nat (a - 1)) full 0) abundances)).
Proof.
  unfold mete_lgsr_approx_pmf.
  rewrite (check_shape_well_formed _ _ _ _ _ _ shape_ok).
  rewrite (check_shape_well_formed _ _ _ _ _ _ shape_ok_full).
  rewrite !(bind_M_ret tt).
  match goal with
  | |- bind ?c _ = _ => destruct c as (t, [e|[x|]])
  end; try reflexivity.
  rewrite !bind_M_step. simpl. rewrite ?app_nil_r. do 2 f_equal.
  unfold approx_pmf_of.
  apply (pick_on_linspace
           (fun k => 1 / m_log lib (-1 / m_log lib x) * (fpow lib x k / k))).
Qed.

End Modes.

(** X1. For well-formed [S], [N] and abundances between 1 and [N],
    each of [lgsr_pmf], [neg_binom_pmf], [mete_lgsr_pmf] and
    [mete_lgsr_approx_pmf] evaluated at the abundances is the same call
    on [1..N] ([pmf_ret=True], whatever vector is passed along) followed
    by indexing at [a - 1]: same trace, same exception if any, same
    numbers. *)
Theorem pmf_at_abundances_is_full_pmf_indexed (lib : numlib) (S N : Z)
  (abundances other : list Z) (k : R) (root : Z) :
  well_formed S N abundances false ->
  Forall (fun a => (1 <= a <= N)%Z) abundances ->
  lgsr_pmf lib S N abundances false
  = (full <- lgsr_pmf lib S N other true ;; ret (pick full abundances)) /\
  neg_binom_pmf lib S N k abundances false
  = (full <- neg_binom_pmf lib S N k other true ;;
     ret (pick full abundances)) /\
  mete_lgsr_pmf lib S N abundances false
  = (full <- mete_lgsr_pmf lib S N other true ;;
     ret (pick full abundances)) /\
  mete_lgsr_approx_pmf lib S N abundances false root
  = (full <- mete_lgsr_approx_pmf lib S N other true root ;;
     ret (pick full abundances)).
Proof.
  intros Hwf Hrange. unfold pick. repeat split.
  - now apply lgsr_pmf_pick.
  - now apply neg_binom_pmf_pick.
  - now apply mete_lgsr_pmf_pick.
  - now apply mete_lgsr_approx_pmf_pick.
Qed.

Lemma pmf_at_abundances_is_full_pmf_indexed_witness :
  lgsr_pmf Sample.sample_lib 2 10 [1; 9]%Z false
  = (full <- lgsr_pmf Sample.sample_lib 2 10 [] true ;;
     ret (pick full [1; 9]%Z)) /\
  neg_binom_pmf Sample.sample_lib 2 10 3 [1; 9]%Z false
  = (full <- neg_binom_pmf Sample.sample_lib 2 10 3 [] true ;;
     ret (pick full [1; 9]%Z)) /\
  mete_lgsr_pmf Sample.sample_lib 2 10 [1; 9]%Z false
  = (full <- mete_lgsr_pmf Sample.sample_lib 2 10 [] true ;;
     ret (pick full [1; 9]%Z)) /\
  mete_lgsr_approx_pmf Sample.sample_lib 2 10 [1; 9]%Z false 2
  = (full <- mete_lgsr_approx_pmf Sample.sample_lib 2 10 [] true 2 ;;
     ret (pick full [1; 9]%Z)).
Proof.
  apply (pmf_at_abundances_is_full_pmf_indexed Sample.sample_lib 2 10
           [1; 9]%Z [] 3 2).
  - split; [lia|]. intros _. split; [reflexivity|split; [reflexivity|repeat constructor; lia]].
  - repeat constructor; lia.
Defined.

(** ** The Poisson log-normal pmf outside the degenerate region *)

Lemma map_M_pure {A B : Type} (f : A -> M B) (g : A -> B)
  (ev : A -> list event) (l : list A) :
  (forall x, f x = (ev x, inr (g x))) ->
  map_M f l = (concat (map ev l), inr (map g l)).
Proof.
  intros Hf. induction l as [|x t IH]; [reflexivity|].
  simpl. rewrite Hf, IH. simpl. now rewrite app_nil_r.
Qed.

Lemma map_M_pure_in {A B : Type} (f : A -> M B) (g : A -> B)
  (ev : A -> list event) (l : list A) :
  (forall x, In x l -> f x = (ev x, inr (g x))) ->
  map_M f l = (concat (map ev l), inr (map g l)).
Proof.
  induction l as [|x t IH]; intros Hf; [reflexivity|].
  simpl. rewrite (Hf x) by now left.
  rewrite IH by (intros; apply Hf; now right).
  simpl. now rewrite app_nil_r.
Qed.

Lemma map_M_cons {A B : Type} (f : A -> M B) (x : A) (t : list A) :
  map_M f (x :: t) = (y <- f x ;; ys <- map_M f t ;; ret (y :: ys)).
Proof. reflexivity. Qed.

Lemma quad_trace (l : list Z) :
  concat (map (fun n => if (n <=? 170)%Z then [CallQuad n] else []) l)
  = map CallQuad (filter (fun n => (n <=? 170)%Z) l).
Proof.
  induction l as [|n t IH]; [reflexivity|]. simpl.
  destruct (n <=? 170)%Z; simpl; now rewrite IH.
Qed.

Lemma plognorm_queries_nonneg (abundances : list Z) (pmf_ret : bool) :
  Forall (fun a => (0 <= a)%Z) abundances ->
  Forall (fun n => (0 <= n)%Z) (plognorm_queries abundances pmf_ret).
Proof.
  intros H. unfold plognorm_queries. destruct pmf_ret; [|exact H].
  apply Forall_forall. intros n Hn. unfold np_arange_Z in Hn.
  apply in_map_iff in Hn. destruct Hn as (i & <- & _). lia.
Qed.

(** One turn of the loop of [plognorm_pmf] on an abundance that is not
    negative: no pole of [lgamma]. *)
Lemma math_lgamma_succ_nonneg (lib : numlib) (n : Z) :
  (0 <= n)%Z -> math_lgamma_succ lib n = inr (m_lgamma lib (IZR n + 1)).
Proof.
  intros Hn. unfold math_lgamma_succ.
  replace (n + 1 <=? 0)%Z with false by (symmetry; apply Z.leb_gt; lia).
  reflexivity.
Qed.

Lemma plognorm_pmf_regular (lib : numlib) (mean var : R)
  (abundances : list Z) (pmf_ret : bool) :
  abundances <> [] -> 0 < var -> 0 < mean ->
  Forall (fun a => (0 <= a)%Z) abundances ->
  plognorm_pmf lib mean var abundances pmf_ret
  = (map CallQuad (filter (fun n => (n <=? 170)%Z)
                     (plognorm_queries abundances pmf_ret)),
     inr (map (plognorm_term lib mean var)
            (plognorm_queries abundances pmf_ret))).
Proof.
  intros Hne Hvar Hmean Hnn.
  pose proof (plognorm_queries_nonneg abundances pmf_ret Hnn) as Hq.
  rewrite Forall_forall in Hq.
  unfold plognorm_pmf, assert_.
  replace (len abundances >=? 1)%Z with true.
  2:{ symmetry. apply Z.geb_le. unfold len.
      destruct abundances; [easy|simpl length; lia]. }
  cbv iota. rewrite (bind_M_ret tt).
  replace (Rleb var 0 || Rleb mean 0) with false.
  2:{ symmetry. apply orb_false_iff. split; apply Rleb_false; lra. }
  fold (plognorm_queries abundances pmf_ret).
  rewrite <- quad_trace.
  apply map_M_pure_in. intros n Hn. unfold plognorm_term.
  destruct (n <=? 170)%Z; [|reflexivity].
  rewrite (math_lgamma_succ_nonneg lib n (Hq n Hn)). reflexivity.
Qed.



Example plognorm_pmf_trace_3_200_170_171 (lib : numlib) :
  fst (plognorm_pmf lib 1 2 [3; 200; 170; 171]%Z false)
  = [CallQuad 3; CallQuad 170].
Proof.
  rewrite plognorm_pmf_regular
    by (discriminate || lra || (repeat constructor; lia)).
  reflexivity.
Qed.

Lemma map_M_stops {A B : Type} (f : A -> M B) (g : A -> B)
  (ev : A -> list event) (before after : list A) (x : A)
  (t : list event) (e : exn) :
  (forall y, In y before -> f y = (ev y, inr (g y))) ->
  f x = (t, inl e) ->
  map_M f (before ++ x :: after) = (concat (map ev before) ++ t, inl e).
Proof.
  intros Hf Hx. induction before as [|y u IH].
  - simpl. now rewrite Hx.
  - simpl app. rewrite map_M_cons, (Hf y) by now left.
    rewrite IH by (intros; apply Hf; now right).
    simpl. now rewrite app_assoc.
Qed.

(** X27. With [var > 0] and [mean > 0], a negative abundance stops
    [plognorm_pmf]: after the quadratures of the abundances before it and
    its own, [math.lgamma] is at a pole and raises [ValueError]; nothing
    is returned. *)
Theorem plognorm_pmf_negative_abundance (lib : numlib) (mean var : R)
  (before after : list Z) (n : Z) :
  0 < var -> 0 < mean ->
  Forall (fun a => (0 <= a)%Z) before ->
  (n < 0)%Z ->
  plognorm_pmf lib mean var (before ++ n :: after) false
  = (map CallQuad (filter (fun a => (a <=? 170)%Z) before) ++ [CallQuad n],
     inl (ValueError "math domain error")).
Proof.
  intros Hvar Hmean Hnn Hn. rewrite Forall_forall in Hnn.
  unfold plognorm_pmf, assert_.
  replace (len (before ++ n :: after) >=? 1)%Z with true.
  2:{ symmetry. apply Z.geb_le. unfold len. rewrite length_app.
      simpl length. lia. }
  cbv iota. rewrite (bind_M_ret tt).
  replace (Rleb var 0 || Rleb mean 0) with false.
  2:{ symmetry. apply orb_false_iff. split; apply Rleb_false; lra. }
  rewrite <- quad_trace.
  apply (map_M_stops _ (plognorm_term lib mean var)).
  - intros a Ha. unfold plognorm_term.
    destruct (a <=? 170)%Z; [|reflexivity].
    rewrite (math_lgamma_succ_nonneg lib a (Hnn a Ha)). reflexivity.
  - replace (n <=? 170)%Z with true by (symmetry; apply Z.leb_le; lia).
    unfold math_lgamma_succ.
    replace (n + 1 <=? 0)%Z with true by (symmetry; apply Z.leb_le; lia).
    reflexivity.
Qed.

Lemma plognorm_pmf_negative_abundance_witness :
  plognorm_pmf Sample.sample_lib 1 2 ([3; 200] ++ (-1) :: [5])%Z false
  = (map CallQuad (filter (fun a => (a <=? 170)%Z) [3; 200]%Z)
       ++ [CallQuad (-1)],
     inl (ValueError "math domain error")).
Proof.
  apply (plognorm_pmf_negative_abundance Sample.sample_lib 1 2
           [3; 200]%Z [5]%Z (-1)).
  - lra.
  - lra.
  - repeat constructor; lia.
  - lia.
Defined.

(** ** The two modes of the Poisson log-normal pmfs *)

Lemma py_sum_Z_cons (x : Z) (l : list Z) :
  py_sum_Z (x :: l) = (x + py_sum_Z l)%Z.
Proof. unfold py_sum_Z at 1. simpl. now rewrite py_sum_Z_from. Qed.

Lemma py_sum_Z_bounds_member (l : list Z) (a : Z) :
  Forall (fun x => (1 <= x)%Z) l -> In a l -> (a <= py_sum_Z l)%Z.
Proof.
  induction 1 as [|x t Hx Ht IH]; intros Hin; [easy|].
  rewrite py_sum_Z_cons.
  assert (0 <= py_sum_Z t)%Z.
  { clear IH Hin. induction Ht as [|y u Hy Hu IHu]; [reflexivity|].
    rewrite py_sum_Z_cons. lia. }
  destruct Hin as [->|Hin]; [lia|]. specialize (IH Hin). lia.
Qed.






(** ** Empty vectors and the degenerate region under truncation *)

(** On an empty abundance vector [plognorm_pmf], [trun_plognorm_pmf]
    and [plognorm_MLE] raise [AssertionError], whatever the parameters,
    having entered neither the quadrature nor the optimiser. *)
Theorem plognorm_family_empty_vector (lib : numlib) (mean var : R)
  (pmf_ret trun : bool) :
  plognorm_pmf lib mean var [] pmf_ret
  = ([], inl (AssertionError "Abundance vector cannot be empty")) /\
  trun_plognorm_pmf lib mean var [] pmf_ret
  = ([], inl (AssertionError "Abundance vector cannot be empty")) /\
  plognorm_MLE lib [] trun
  = ([], inl (AssertionError
                "len(abundances) must be greater than or equal to 1")).
Proof. repeat split. Qed.



(** ** [mete_lgsr_approx_pmf] around its fallback *)

(** The logarithm on the bracket, for the examples below. *)
Lemma approx_eq_start_negative (S N : Z) :
  (0 < S)%Z -> (0 < N)%Z ->
  approx_eq Sample.sample_lib S N approx_start < 0.
Proof.
  intros HS HN. unfold approx_start.
  rewrite SampleFacts.approx_eq_ln by lra.
  assert (Hu : 1 < - ln 0.3).
  { assert (ln 0.3 < ln (exp (- (1)))); [|rewrite ln_exp in *; lra].
    apply ln_increasing; [lra|].
    rewrite exp_Ropp. pose proof exp_le_3. pose proof (exp_pos 1).
    apply Rlt_le_trans with (/ 3); [lra|].
    apply Rinv_le_contravar; lra. }
  pose proof (SampleFacts.u_ln_inv_neg _ Hu).
  assert (0 < IZR S / IZR N).
  { apply Rdiv_lt_0_compat; apply IZR_lt; lia. }
  lra.
Qed.

Lemma neg_ln_stop_bounds : 1e-10 <= - ln approx_stop <= 2e-10.
Proof.
  unfold approx_stop.
  destruct (SampleFacts.neg_ln_bounds (1 - 1e-10)) as (Hlo & Hhi); [lra|].
  assert (Hinv : / (1 - 1e-10) <= 1 + 2e-10).
  { apply Rmult_le_reg_l with (1 - 1e-10); [lra|].
    rewrite Rinv_r by lra. lra. }
  lra.
Qed.

Lemma ln_16_ge_2 : 2 <= ln 16.
Proof.
  replace 16 with ((2 * 2) * (2 * 2)) by lra.
  rewrite !ln_mult by lra.
  pose proof (SampleFacts.ln_ge_inv 2). lra.
Qed.

Lemma approx_eq_stop_large_N :
  0 <= approx_eq Sample.sample_lib 2 100000000000 approx_stop.
Proof.
  pose proof neg_ln_stop_bounds as (Hlo & Hhi).
  rewrite SampleFacts.approx_eq_ln by (unfold approx_stop; lra).
  set (u := - ln approx_stop) in *.
  assert (Hw : 16 <= / u).
  { apply Rmult_le_reg_l with u; [lra|]. rewrite Rinv_r by lra. lra. }
  assert (Hln : 2 <= ln (/ u)).
  { apply Rle_trans with (ln 16); [exact ln_16_ge_2|].
    destruct Hw as [Hw|<-]; [|lra]. left. apply ln_increasing; lra. }
  assert (2 * u <= u * ln (/ u)) by nra.
  lra.
Qed.

(** [u ln(1/u)] stays below [0.9]. *)
Lemma u_ln_inv_below (u : R) : 0 < u -> u * ln (/ u) <= 0.9.
Proof.
  intros Hu. destruct (Rle_lt_dec u 0.1) as [Hs|Hb].
  - pose proof (SampleFacts.u_ln_inv_small u Hu). lra.
  - pose proof (Rinv_0_lt_compat u Hu) as Hw.
    pose proof (SampleFacts.ln_le_pred (/ u) Hw) as H.
    assert (u * ln (/ u) <= u * (/ u - 1))
      by (apply Rmult_le_compat_l; lra).
    replace (u * (/ u - 1)) with (1 - u) in * by (field; lra). lra.
Qed.

Lemma approx_eq_19_20_negative (x : R) :
  0 < x < 1 -> approx_eq Sample.sample_lib 19 20 x < 0.
Proof.
  intros Hx. rewrite SampleFacts.approx_eq_ln by exact Hx.
  assert (0 < - ln x).
  { assert (ln x < ln 1) by (apply ln_increasing; lra).
    rewrite ln_1 in *. lra. }
  pose proof (u_ln_inv_below (- ln x)). lra.
Qed.

Lemma sample_19_20_first_try :
  brentq Sample.sample_lib (approx_eq Sample.sample_lib 19 20)
    approx_start approx_stop
  = inl (ValueError "f(a) and f(b) must have different signs").
Proof.
  simpl brentq. unfold Sample.bisect_brentq.
  pose proof (approx_eq_19_20_negative approx_start).
  pose proof (approx_eq_19_20_negative approx_stop).
  unfold approx_start, approx_stop in *.
  replace (Rltb 0 _) with true by (symmetry; apply Rltb_true; nra).
  reflexivity.
Qed.

Lemma sample_19_20_scan :
  exists ymax,
    np_max (approx_solns Sample.sample_lib 19 20) = inr ymax /\ ymax < 0.
Proof.
  destruct (np_max_spec (approx_solns Sample.sample_lib 19 20))
    as (m & Hm & Hmem & _).
  { intros E.
    assert (Hin : In (approx_eq Sample.sample_lib 19 20 (Sample.grid_value 0))
                     (approx_solns Sample.sample_lib 19 20)).
    { unfold approx_solns. apply in_map. apply SampleFacts.grid_value_In. lia. }
    rewrite E in Hin. exact Hin. }
  exists m. split; [exact Hm|].
  unfold approx_solns in Hmem. apply in_map_iff in Hmem.
  destruct Hmem as (x & <- & Hx).
  apply np_linspace_range in Hx; [|unfold approx_start, approx_stop; lra].
  apply approx_eq_19_20_negative.
  unfold approx_start, approx_stop in Hx. lra.
Qed.

(** X5. When the first [brentq] on the whole bracket does not raise
    [ValueError], its outcome is the outcome of the call: the pmf at the
    root it returned, or the exception it raised; there is no grid scan,
    no warning, no second [brentq], and [root] plays no part. *)
Theorem approx_first_try_decides (lib : numlib) (S N : Z)
  (abundances : list Z) (pmf_ret : bool) (root : Z) :
  well_formed S N abundances pmf_ret ->
  (forall msg, brentq lib (approx_eq lib S N) approx_start approx_stop
               <> inl (ValueError msg)) ->
  mete_lgsr_approx_pmf lib S N abundances pmf_ret root
  = ([CallBrentq approx_start approx_stop],
     approx_pmf_at lib N abundances pmf_ret
       (brentq lib (approx_eq lib S N) approx_start approx_stop)).
Proof.
  intros Hwf Hfirst. unfold mete_lgsr_approx_pmf.
  rewrite (check_shape_well_formed _ _ _ _ _ _ Hwf), (bind_M_ret tt).
  unfold call_brentq, approx_pmf_at.
  destruct (brentq lib (approx_eq lib S N) approx_start approx_stop)
    as [e|x].
  - destruct e; try reflexivity. now elim (Hfirst msg).
  - reflexivity.
Qed.

Lemma approx_first_try_decides_witness :
  mete_lgsr_approx_pmf Sample.sample_lib 2 100000000000 [] true 1
  = ([CallBrentq approx_start approx_stop],
     approx_pmf_at Sample.sample_lib 100000000000 [] true
       (brentq Sample.sample_lib
          (approx_eq Sample.sample_lib 2 100000000000)
          approx_start approx_stop)).
Proof.
  apply (approx_first_try_decides Sample.sample_lib 2 100000000000 [] true 1).
  - split; [lia|]. discriminate.
  - intros msg. simpl brentq. unfold Sample.bisect_brentq.
    pose proof (approx_eq_start_negative 2 100000000000 eq_refl eq_refl).
    pose proof approx_eq_stop_large_N.
    replace (Rltb 0 _) with false by (symmetry; apply Rltb_false; nra).
    discriminate.
Defined.

(** X6. When the first [brentq] raises [ValueError] and the maximum of
    the grid scan is negative, the call raises [RootError] with a message
    that names no root, whatever the selector, after the one [brentq] and
    without a warning. *)
Theorem approx_no_root_error (lib : numlib) (S N : Z)
  (abundances : list Z) (pmf_ret : bool) (root : Z) (msg : string)
  (ymax : R) :
  well_formed S N abundances pmf_ret ->
  brentq lib (approx_eq lib S N) approx_start approx_stop
  = inl (ValueError msg) ->
  np_max (approx_solns lib S N) = inr ymax ->
  ymax < 0 ->
  mete_lgsr_approx_pmf lib S N abundances pmf_ret root
  = ([CallBrentq approx_start approx_stop],
     inl (RootError
            "No solution to constraint equation with given values of S and N")).
Proof.
  intros Hwf Htry Hscan Hneg.
  rewrite (approx_enters_fallback lib S N abundances pmf_ret msg ymax Hwf
             Htry Hscan).
  replace (Rltb 0 ymax) with false by (symmetry; apply Rltb_false; lra).
  replace (Rltb ymax 0) with true by (symmetry; apply Rltb_true; lra).
  reflexivity.
Qed.

Lemma approx_no_root_error_witness :
  exists ymax : R,
    ymax < 0 /\
    np_max (approx_solns Sample.sample_lib 19 20) = inr ymax /\
    mete_lgsr_approx_pmf Sample.sample_lib 19 20 [] true 2
    = ([CallBrentq approx_start approx_stop],
       inl (RootError
              "No solution to constraint equation with given values of S and N")).
Proof.
  destruct sample_19_20_scan as (ymax & Hscan & Hneg).
  exists ymax. split; [exact Hneg|]. split; [exact Hscan|].
  apply (approx_no_root_error Sample.sample_lib 19 20 [] true 2
           "f(a) and f(b) must have different signs" ymax).
  - split; [lia|]. discriminate.
  - exact sample_19_20_first_try.
  - exact Hscan.
  - exact Hneg.
Defined.

(** X7. When two roots are detected ([ValueError] from the first
    [brentq], positive grid maximum) and the selector is neither 1 nor 2,
    the call prints the warning, enters no second [brentq], and fails on
    reading [x], with [UnboundLocalError]. *)
Theorem approx_selector_out_of_range (lib : numlib) (S N : Z)
  (abundances : list Z) (pmf_ret : bool) (root : Z) (msg : string)
  (ymax : R) :
  well_formed S N abundances pmf_ret ->
  brentq lib (approx_eq lib S N) approx_start approx_stop
  = inl (ValueError msg) ->
  np_max (approx_solns lib S N) = inr ymax ->
  0 < ymax ->
  root <> 1%Z -> root <> 2%Z ->
  mete_lgsr_approx_pmf lib S N abundances pmf_ret root
  = ([CallBrentq approx_start approx_stop; Stdout two_roots_warning],
     inl (UnboundLocalError "x")).
Proof.
  intros Hwf Htry Hscan Hpos H1 H2.
  rewrite (approx_enters_fallback lib S N abundances pmf_ret msg ymax Hwf
             Htry Hscan).
  replace (Rltb 0 ymax) with true by (symmetry; apply Rltb_true; lra).
  replace (Rltb ymax 0) with false by (symmetry; apply Rltb_false; lra).
  replace (root =? 1)%Z with false by (symmetry; now apply Z.eqb_neq).
  replace (root =? 2)%Z with false by (symmetry; now apply Z.eqb_neq).
  reflexivity.
Qed.

Lemma approx_selector_out_of_range_witness :
  mete_lgsr_approx_pmf Sample.sample_lib 2 10 [1; 9]%Z false 3
  = ([CallBrentq approx_start approx_stop; Stdout two_roots_warning],
     inl (UnboundLocalError "x")).
Proof.
  destruct SampleFacts.sample_2_10_scan as (ymax & Hscan & Hpos & _).
  apply (approx_selector_out_of_range Sample.sample_lib 2 10 [1; 9]%Z false 3
           "f(a) and f(b) must have different signs" ymax).
  - split; [lia|]. intros _. split; [reflexivity|split; [reflexivity|repeat constructor; lia]].
  - exact SampleFacts.sample_2_10_first_try.
  - exact Hscan.
  - exact Hpos.
  - discriminate.
  - discriminate.
Defined.

(** ** [neg_binom_pmf] on well-formed arguments *)

(** X8. On well-formed arguments and a positive aggregation parameter
    [k], [neg_binom_pmf] enters [nbinom.pmf] once, with the success
    probability [p = k / (N/S + k)], which lies strictly between 0 and 1,
    and returns one probability per abundance, or [N] of them on
    [1..N]. *)
Theorem neg_binom_pmf_probability (lib : numlib) (S N : Z) (k : R)
  (abundances : list Z) (pmf_ret : bool) :
  well_formed S N abundances pmf_ret ->
  0 < k ->
  exists (p : R) (pmf : list R),
    neg_binom_pmf lib S N k abundances pmf_ret
    = ([CallNbinomPmf k p], inr pmf) /\
    p = k / (IZR N / IZR S + k) /\
    0 < p < 1 /\
    length pmf = (if pmf_ret then Z.to_nat N else Z.to_nat S).
Proof.
  intros Hwf Hk. destruct Hwf as (HSN & Hab).
  assert (0 < IZR S) by (apply IZR_lt; lia).
  assert (0 < IZR N) by (apply IZR_lt; lia).
  assert (Hmu : 0 < IZR N / IZR S) by now apply Rdiv_lt_0_compat.
  do 2 eexists. split; [|split; [reflexivity|split]].
  - unfold neg_binom_pmf.
    rewrite (check_shape_well_formed S N abundances pmf_ret _ _
               (conj HSN Hab)), (bind_M_ret tt).
    replace (Reqb (IZR N / IZR S + k) 0) with false
      by (symmetry; apply Reqb_false; lra).
    reflexivity.
  - split.
    + apply Rdiv_lt_0_compat; lra.
    + apply Rmult_lt_reg_r with (IZR N / IZR S + k); [lra|].
      unfold Rdiv at 1. rewrite Rmult_assoc, Rinv_l by lra. lra.
  - rewrite length_map. destruct pmf_ret.
    + rewrite length_map, np_arange_Z_length. f_equal. lia.
    + rewrite length_map. destruct (Hab eq_refl) as (Hlen & _).
      unfold len in Hlen. lia.
Qed.

Lemma neg_binom_pmf_probability_witness :
  exists (p : R) (pmf : list R),
    neg_binom_pmf Sample.sample_lib 2 10 3 [1; 9]%Z false
    = ([CallNbinomPmf 3 p], inr pmf) /\
    p = 3 / (IZR 10 / IZR 2 + 3) /\
    0 < p < 1 /\
    length pmf = (if false then Z.to_nat 10 else Z.to_nat 2).
Proof.
  apply (neg_binom_pmf_probability Sample.sample_lib 2 10 3 [1; 9]%Z false).
  - split; [lia|]. intros _. split; [reflexivity|split; [reflexivity|repeat constructor; lia]].
  - lra.
Defined.

(** Where [N/S + k] is zero the division that gives [p] raises, before
    [nbinom.pmf] is entered. *)
Lemma neg_binom_pmf_zero_division (lib : numlib) (S N : Z) (k : R)
  (abundances : list Z) (pmf_ret : bool) :
  well_formed S N abundances pmf_ret ->
  IZR N / IZR S + k = 0 ->
  neg_binom_pmf lib S N k abundances pmf_ret = ([], inl ZeroDivisionError).
Proof.
  intros Hwf Hk. unfold neg_binom_pmf.
  rewrite (check_shape_well_formed S N abundances pmf_ret _ _ Hwf),
          (bind_M_ret tt).
  replace (Reqb (IZR N / IZR S + k) 0) with true
    by (symmetry; now apply Reqb_true).
  reflexivity.
Qed.

(** ** More on [make_rank_abund] *)

Lemma countb_le_length (p : R -> bool) (l : list R) :
  (countb p l <= length l)%nat.
Proof.
  unfold countb. induction l as [|x t IH]; simpl; [lia|].
  destruct (p x); simpl; lia.
Qed.

Lemma countb_monotone (p q : R -> bool) (l : list R) :
  (forall y, p y = true -> q y = true) -> (countb p l <= countb q l)%nat.
Proof.
  intros H. unfold countb. induction l as [|x t IH]; simpl; [lia|].
  destruct (p x) eqn:E.
  - rewrite (H x E). simpl. lia.
  - destruct (q x); simpl; lia.
Qed.

Lemma cumsum_from_length (acc : R) (a : list R) :
  length (cumsum_from acc a) = length a.
Proof.
  revert acc. induction a as [|x t IH]; intros acc; simpl; [reflexivity|].
  now rewrite IH.
Qed.

Lemma cumsum_from_last (l : list R) :
  forall acc, l <> [] -> last (cumsum_from acc l) 0 = acc + py_sum l.
Proof.
  induction l as [|x t IH]; intros acc Hl; [easy|].
  rewrite py_sum_cons. destruct t as [|y u].
  - simpl. rewrite py_sum_nil. lra.
  - change (cumsum_from acc (x :: y :: u))
      with ((acc + x) :: cumsum_from (acc + x) (y :: u)).
    change (last ((acc + x) :: cumsum_from (acc + x) (y :: u)) 0)
      with (last (cumsum_from (acc + x) (y :: u)) 0).
    rewrite IH by discriminate. lra.
Qed.

(** The range has as many points as [np.arange] computes for its
    length. *)
Lemma np_arange_length (start stop step : F64.float) (len : Z) :
  arange_len start stop step = inr len ->
  exists points : list F64.float,
    np_arange start stop step = inr points /\
    length points = Z.to_nat len.
Proof.
  unfold arange_len, np_arange.
  destruct (F64.float_truediv (F64.sub stop start) step) as [e|value];
    [discriminate|].
  cbn [bind result_monad].
  destruct (F64.ceil value) as [n|]; [|destruct value; discriminate].
  destruct ((n <? - 2 ^ 63) || (2 ^ 63 - 1 <? n))%Z; [discriminate|].
  intros E. injection E as <-.
  eexists. split; [reflexivity|]. now rewrite length_map, length_seq.
Qed.

Lemma S_points_of_length (S len : Z) :
  S_points_len S = inr len ->
  exists S_points : list F64.float,
    S_points_of S = inr S_points /\ length S_points = Z.to_nat len.
Proof.
  unfold S_points_len, S_points_of.
  destruct (F64.int_truediv 1 (2 * S)) as [e|start]; [discriminate|].
  cbn [bind result_monad].
  destruct (F64.int_truediv 1 S) as [e|step]; [discriminate|].
  apply np_arange_length.
Qed.

Lemma rank_loop_no_points (cutoffs : list F64.float) :
  rank_loop [] cutoffs [] = [].
Proof. destruct cutoffs; reflexivity. Qed.

(** The lengths that binary64 gives the range, tried for every [S] from
    1 to 10000 and from -10000 to -1. *)
Lemma S_points_len_tried :
  forallb (fun S => match S_points_len S with
                    | inr len => (len =? S)%Z || (len =? S + 1)%Z
                    | inl _ => false
                    end)
          (np_arange_Z 1 10001) = true.
Proof. vm_compute. reflexivity. Qed.

Lemma S_points_len_tried_negative :
  forallb (fun S => match S_points_len S with
                    | inr len => (len <=? 0)%Z
                    | inl _ => false
                    end)
          (np_arange_Z (-10000) 0) = true.
Proof. vm_compute. reflexivity. Qed.

Lemma np_arange_Z_In (lo hi v : Z) :
  (lo <= v < hi)%Z -> In v (np_arange_Z lo hi).
Proof.
  intros H. unfold np_arange_Z. apply in_map_iff.
  exists (Z.to_nat (v - lo)). split; [lia|]. apply in_seq. lia.
Qed.

(** X9. For every array of pmf values and every [S] from 1 to 10000,
    [make_rank_abund] returns [S] abundances or [S + 1], never fewer and
    never more: the length of the range of quantile points is taken in
    binary64. *)
Theorem make_rank_abund_S_or_one_more (sad_pmf : list F64.float) (S : Z) :
  (1 <= S <= 10000)%Z ->
  exists S_abunds : list F64.float,
    make_rank_abund sad_pmf S = inr S_abunds /\
    (length S_abunds = Z.to_nat S \/ length S_abunds = Z.to_nat (S + 1)).
Proof.
  intros HS.
  pose proof S_points_len_tried as Hall. rewrite forallb_forall in Hall.
  specialize (Hall S (np_arange_Z_In 1 10001 S ltac:(lia))).
  destruct (S_points_len S) as [e|len] eqn:E; [discriminate|].
  destruct (S_points_of_length S len E) as (pts & Ep & Lp).
  destruct (make_rank_abund_length sad_pmf pts S Ep) as (out & Eo & Lo).
  exists out. split; [exact Eo|]. rewrite Lo, Lp.
  apply orb_true_iff in Hall. destruct Hall as [H|H];
    apply Z.eqb_eq in H; subst len; [now left|now right].
Qed.

Lemma make_rank_abund_S_or_one_more_witness :
  exists S_abunds : list F64.float,
    make_rank_abund [F64.ratio 1 2; F64.ratio 1 2] 98 = inr S_abunds /\
    (length S_abunds = Z.to_nat 98
     \/ length S_abunds = Z.to_nat (98 + 1)).
Proof.
  apply (make_rank_abund_S_or_one_more [F64.ratio 1 2; F64.ratio 1 2] 98).
  lia.
Defined.

(** X10. A negative [S] is not refused: for every [S] from -10000 to -1
    the range of quantile points is empty and so is the result, whereas
    [S = 0] divides by zero. *)
Theorem make_rank_abund_negative_S (sad_pmf : list F64.float) (S : Z) :
  (-10000 <= S < 0)%Z ->
  make_rank_abund sad_pmf S = inr [] /\
  make_rank_abund sad_pmf 0 = inl ZeroDivisionError.
Proof.
  intros HS. split; [|reflexivity].
  pose proof S_points_len_tried_negative as Hall.
  rewrite forallb_forall in Hall.
  specialize (Hall S (np_arange_Z_In (-10000) 0 S ltac:(lia))).
  destruct (S_points_len S) as [e|len] eqn:E; [discriminate|].
  apply Z.leb_le in Hall.
  destruct (S_points_of_length S len E) as (pts & Ep & Lp).
  replace (Z.to_nat len) with 0%nat in Lp by lia.
  destruct pts; [|discriminate].
  unfold make_rank_abund. rewrite Ep. cbn [bind result_monad].
  unfold np_zeros. cbn [length repeat]. now rewrite rank_loop_no_points.
Qed.

Lemma make_rank_abund_negative_S_witness :
  make_rank_abund [F64.ratio 1 2; F64.ratio 1 2] (-3) = inr [] /\
  make_rank_abund [F64.ratio 1 2; F64.ratio 1 2] 0 = inl ZeroDivisionError.
Proof.
  apply (make_rank_abund_negative_S [F64.ratio 1 2; F64.ratio 1 2] (-3)).
  lia.
Defined.

End PredictSadMore.

(* ================================================================== *)
(** * predict_sad.py: the METE pmf on its support, and its cdf *)
(* ================================================================== *)

Module MeteSpec.

Import PredictSad PredictSadSpec PredictSadMore PredictSadRest.

Lemma cumsum_from_nondecreasing (a : list R) :
  Forall (fun p => 0 <= p) a ->
  forall acc i j, (i <= j < length a)%nat ->
    nth i (cumsum_from acc a) 0 <= nth j (cumsum_from acc a) 0.
Proof.
  induction 1 as [|x t Hx Ht IH]; intros acc i j Hij; simpl in *; [lia|].
  destruct i as [|i], j as [|j]; try lia.
  - lra.
  - destruct (cumsum_from_sorted t Ht (acc + x)) as (_ & Hb).
    rewrite Forall_forall in Hb. apply Hb. apply nth_In.
    rewrite cumsum_from_length. lia.
  - apply IH. lia.
Qed.

Lemma cumsum_from_upper (a : list R) :
  Forall (fun p => 0 <= p) a ->
  forall acc c, In c (cumsum_from acc a) -> acc <= c <= acc + py_sum a.
Proof.
  induction 1 as [|x t Hx Ht IH]; intros acc c Hc; [easy|].
  rewrite py_sum_cons. simpl in Hc.
  assert (0 <= py_sum t).
  { apply py_sum_nonneg. now rewrite Forall_forall in Ht. }
  destruct Hc as [<-|Hc]; [lra|].
  specialize (IH _ _ Hc). lra.
Qed.

Lemma cumsum_from_first_positive (a : list R) (acc : R) (i : nat) :
  Forall (fun p => 0 < p) a -> (i < length a)%nat ->
  acc < nth i (cumsum_from acc a) 0.
Proof.
  intros Hpos. revert acc i.
  induction Hpos as [|x t Hx Ht IH]; intros acc i Hi; simpl in *; [lia|].
  destruct i as [|i]; [lra|].
  apply Rlt_trans with (acc + x); [lra|]. apply IH. lia.
Qed.

Section Normalised.

Variable lib : numlib.
Variables S N : Z.
Variable x : R.

Hypothesis sizes : (1 < S < N)%Z.
Hypothesis root_found :
  brentq lib (mete_eq lib S N) 0.3 (mete_stop lib S N) = inr x.
Hypothesis powers_positive : forall y, 0 < y -> 0 < fpow lib x y.

Let support : list R := np_linspace 1 (IZR N) (Z.to_nat N).

Let pmf : list R :=
  map (fun nv => fpow lib x nv / nv / mete_norm lib N x) support.

Lemma support_positive (v : R) : In v support -> 1 <= v.
Proof.
  intros Hv. apply np_linspace_range in Hv; [lra|].
  apply IZR_le. lia.
Qed.

Lemma support_length : length support = Z.to_nat N.
Proof. apply np_linspace_length. Qed.

Lemma terms_positive (v : R) : In v support -> 0 < fpow lib x v / v.
Proof.
  intros Hv. pose proof (support_positive v Hv).
  apply Rdiv_lt_0_compat; [apply powers_positive|]; lra.
Qed.

Lemma mete_norm_positive : 0 < mete_norm lib N x.
Proof.
  unfold mete_norm. fold support.
  assert (Hin : In (1 + INR 0 * ((IZR N - 1) / INR (Z.to_nat N - 1)))
                  support)
    by (apply np_linspace_In; lia).
  replace (1 + INR 0 * ((IZR N - 1) / INR (Z.to_nat N - 1))) with 1 in Hin
    by (simpl; lra).
  apply Rlt_le_trans with (fpow lib x 1 / 1).
  - apply (terms_positive 1 Hin).
  - apply py_sum_ge_member.
    + intros y Hy. apply in_map_iff in Hy. destruct Hy as (v & <- & Hv).
      left. now apply terms_positive.
    + apply in_map_iff. now exists 1.
Qed.

Lemma mete_lgsr_pmf_on_support (abundances : list Z) :
  mete_lgsr_pmf lib S N abundances true
  = ([CallBrentq 0.3 (mete_stop lib S N)], inr pmf).
Proof.
  unfold mete_lgsr_pmf.
  rewrite (check_shape_well_formed S N abundances true)
    by (split; [exact sizes|discriminate]).
  rewrite (bind_M_ret tt). unfold call_brentq.
  fold (mete_eq lib S N). fold (mete_stop lib S N).
  rewrite root_found. reflexivity.
Qed.

Lemma pmf_positive : Forall (fun p => 0 < p) pmf.
Proof.
  apply Forall_forall. intros p Hp. unfold pmf in Hp.
  apply in_map_iff in Hp. destruct Hp as (v & <- & Hv).
  apply Rdiv_lt_0_compat; [now apply terms_positive|].
  apply mete_norm_positive.
Qed.

Lemma pmf_sums_to_one : py_sum pmf = 1.
Proof.
  unfold pmf.
  rewrite <- (map_map (fun nv => fpow lib x nv / nv)
                      (fun t => t / mete_norm lib N x)).
  rewrite py_sum_scaled.
  change (py_sum (map (fun nv => fpow lib x nv / nv) support))
    with (mete_norm lib N x).
  pose proof mete_norm_positive. field. lra.
Qed.

End Normalised.

(** X11. When [brentq] returns [x] on the bracket of [mete_lgsr_pmf]
    and the powers of [x] are positive, the pmf on [1..N] has [N]
    entries, all positive, and they sum to 1. *)
Theorem mete_lgsr_pmf_normalised (lib : numlib) (S N : Z)
  (abundances : list Z) (x : R) :
  (1 < S < N)%Z ->
  brentq lib (mete_eq lib S N) 0.3 (mete_stop lib S N) = inr x ->
  (forall y, 0 < y -> 0 < fpow lib x y) ->
  exists pmf : list R,
    mete_lgsr_pmf lib S N abundances true
    = ([CallBrentq 0.3 (mete_stop lib S N)], inr pmf) /\
    length pmf = Z.to_nat N /\
    Forall (fun p => 0 < p) pmf /\
    py_sum pmf = 1.
Proof.
  intros Hsz Hroot Hpow. eexists. split; [|split; [|split]].
  - now apply (mete_lgsr_pmf_on_support lib S N x).
  - now rewrite length_map, np_linspace_length.
  - eapply pmf_positive; eassumption.
  - eapply pmf_sums_to_one; eassumption.
Qed.

(** [S = 2], [N = 3] under the sample library: the bracket is
    [[0.3, 2]] and the constraint function changes sign on it. *)
Lemma support_3 :
  np_linspace 1 (IZR 3) (Z.to_nat 3) = [INR 1; INR 2; INR 3].
Proof.
  unfold np_linspace. simpl. repeat (apply f_equal2; [lra|]). reflexivity.
Qed.

Lemma mete_eq_2_3 (x : R) :
  0 < x ->
  mete_eq Sample.sample_lib 2 3 x
  = 2 / 3 * (x + x ^ 2 + x ^ 3) - (x + x ^ 2 / 2 + x ^ 3 / 3).
Proof.
  intros Hx. unfold mete_eq. rewrite support_3. simpl fpow.
  unfold py_sum. simpl fold_left.
  change (Rpower x 1) with (Rpower x (INR 1)).
  change (Rpower x (1 + 1)) with (Rpower x (INR 2)).
  change (Rpower x (1 + 1 + 1)) with (Rpower x (INR 3)).
  rewrite !Rpower_pow by exact Hx. field.
Qed.

Lemma mete_stop_2_3 : mete_stop Sample.sample_lib 2 3 = 2.
Proof.
  unfold mete_stop. simpl fpow. simpl float_max.
  apply Rmin_right.
  assert (H52 : 1 <= 2 ^ 52) by (apply pow_R1_Rle; lra).
  assert (H1023 : 2 ^ 4 <= 2 ^ 1023) by (apply Rle_pow; [lra|lia]).
  assert (Hinv : / 2 ^ 52 <= 1).
  { rewrite <- Rinv_1. apply Rinv_le_contravar; lra. }
  assert (Hbig : 8 <= (2 - / 2 ^ 52) * 2 ^ 1023 / 2).
  { simpl pow in H1023. nra. }
  replace 2 with (Rpower 8 (1 / 3)) at 1.
  - apply Rle_Rpower_l; lra.
  - unfold Rpower. replace 8 with (2 * (2 * 2)) by lra.
    rewrite !ln_mult by lra.
    replace (1 / 3 * (ln 2 + (ln 2 + ln 2))) with (ln 2) by field.
    apply exp_ln. lra.
Qed.

Lemma sample_mete_2_3_root :
  brentq Sample.sample_lib (mete_eq Sample.sample_lib 2 3) 0.3
    (mete_stop Sample.sample_lib 2 3)
  = inr (Sample.bisect (mete_eq Sample.sample_lib 2 3) 0.3 2 100).
Proof.
  rewrite mete_stop_2_3. simpl brentq. unfold Sample.bisect_brentq.
  rewrite !mete_eq_2_3 by lra.
  replace (Rltb 0 _) with false by (symmetry; apply Rltb_false; lra).
  reflexivity.
Qed.

Lemma Rpower_positive (x y : R) : 0 < Rpower x y.
Proof. unfold Rpower. apply exp_pos. Qed.

Lemma mete_lgsr_pmf_normalised_witness :
  exists pmf : list R,
    mete_lgsr_pmf Sample.sample_lib 2 3 [] true
    = ([CallBrentq 0.3 (mete_stop Sample.sample_lib 2 3)], inr pmf) /\
    length pmf = Z.to_nat 3 /\
    Forall (fun p => 0 < p) pmf /\
    py_sum pmf = 1.
Proof.
  apply (mete_lgsr_pmf_normalised Sample.sample_lib 2 3 []
           (Sample.bisect (mete_eq Sample.sample_lib 2 3) 0.3 2 100)).
  - lia.
  - exact sample_mete_2_3_root.
  - intros y _. apply Rpower_positive.
Defined.

(** X12. Under the same conditions [mete_lgsr_cdf] returns [N] rows,
    row [i] carrying [n = i + 1]; the [cdf] column is positive, does not
    decrease, stays at or below 1 and ends at 1. *)
Theorem mete_lgsr_cdf_reaches_one (lib : numlib) (S N : Z) (x : R) :
  (1 < S < N)%Z ->
  brentq lib (mete_eq lib S N) 0.3 (mete_stop lib S N) = inr x ->
  (forall y, 0 < y -> 0 < fpow lib x y) ->
  exists rows : list cdf_row,
    mete_lgsr_cdf lib S N
    = ([CallBrentq 0.3 (mete_stop lib S N)], inr rows) /\
    length rows = Z.to_nat N /\
    (forall i, (i < Z.to_nat N)%nat ->
       n (nth i rows {| cdf := 0; n := 0 |}) = Z.of_nat (i + 1)) /\
    (forall i j, (i <= j < Z.to_nat N)%nat ->
       0 < cdf (nth i rows {| cdf := 0; n := 0 |})
           <= cdf (nth j rows {| cdf := 0; n := 0 |})) /\
    (forall i, (i < Z.to_nat N)%nat ->
       cdf (nth i rows {| cdf := 0; n := 0 |}) <= 1) /\
    cdf (last rows {| cdf := 0; n := 0 |}) = 1.
Proof.
  intros Hsz Hroot Hpow.
  set (pmf := map (fun nv => fpow lib x nv / nv / mete_norm lib N x)
                  (np_linspace 1 (IZR N) (Z.to_nat N))).
  pose proof (mete_lgsr_pmf_on_support lib S N x Hsz Hroot [] : 
                mete_lgsr_pmf lib S N [] true
                = ([CallBrentq 0.3 (mete_stop lib S N)], inr pmf)) as Hpmf.
  assert (Hlen : length pmf = Z.to_nat N)
    by (unfold pmf; now rewrite length_map, np_linspace_length).
  pose proof (pmf_positive lib S N x Hsz Hpow : Forall (fun p => 0 < p) pmf)
    as Hpos.
  pose proof (pmf_sums_to_one lib S N x Hsz Hpow : py_sum pmf = 1) as Hsum.
  assert (Hnn : Forall (fun p => 0 <= p) pmf).
  { apply Forall_forall. intros p Hp. rewrite Forall_forall in Hpos.
    left. now apply Hpos. }
  assert (Hc : length (np_cumsum pmf) = Z.to_nat N)
    by (unfold np_cumsum; now rewrite cumsum_from_length).
  assert (Hns : length (np_arange_Z 1 (N + 1)) = Z.to_nat N)
    by (rewrite np_arange_Z_length; f_equal; lia).
  set (d := {| cdf := 0; n := 0 |}).
  set (rows := map (fun p => {| cdf := fst p; n := snd p |})
                   (combine (np_cumsum pmf) (np_arange_Z 1 (N + 1)))).
  assert (Hrows : length rows = Z.to_nat N).
  { unfold rows. rewrite length_map, length_combine. lia. }
  assert (Hrow : forall i, (i < Z.to_nat N)%nat ->
            nth i rows d
            = {| cdf := nth i (np_cumsum pmf) 0;
                 n := nth i (np_arange_Z 1 (N + 1)) 0%Z |}).
  { intros i Hi. unfold rows.
    rewrite (nth_map_in_range _ _ _ (0, 0%Z))
      by (rewrite length_combine; lia).
    rewrite combine_nth by lia. reflexivity. }
  exists rows. split; [|split; [exact Hrows|split; [|split; [|split]]]].
  - unfold mete_lgsr_cdf. rewrite Hpmf, bind_M_step.
    rewrite Hc, Hns, Nat.eqb_refl. simpl. reflexivity.
  - intros i Hi. rewrite Hrow by exact Hi. simpl n.
    rewrite np_arange_Z_nth by lia. lia.
  - intros i j Hij. rewrite !Hrow by lia. simpl cdf. split.
    + apply (cumsum_from_first_positive pmf 0 i Hpos). lia.
    + apply cumsum_from_nondecreasing; [exact Hnn|lia].
  - intros i Hi. rewrite Hrow by exact Hi. simpl cdf.
    destruct (cumsum_from_upper pmf Hnn 0 (nth i (np_cumsum pmf) 0))
      as (_ & Hup).
    { apply nth_In. fold (np_cumsum pmf). lia. }
    lra.
  - rewrite last_nth, Hrows, Hrow by lia. simpl cdf.
    assert (Hpne : pmf <> []).
    { intros E. rewrite E in Hlen. simpl in Hlen. lia. }
    pose proof (cumsum_from_last pmf 0 Hpne) as Hlast.
    rewrite last_nth, cumsum_from_length, Hlen in Hlast.
    unfold np_cumsum. rewrite Hlast. lra.
Qed.

Lemma mete_lgsr_cdf_reaches_one_witness :
  exists rows : list cdf_row,
    mete_lgsr_cdf Sample.sample_lib 2 3
    = ([CallBrentq 0.3 (mete_stop Sample.sample_lib 2 3)], inr rows) /\
    length rows = Z.to_nat 3 /\
    (forall i, (i < Z.to_nat 3)%nat ->
       n (nth i rows {| cdf := 0; n := 0 |}) = Z.of_nat (i + 1)) /\
    (forall i j, (i <= j < Z.to_nat 3)%nat ->
       0 < cdf (nth i rows {| cdf := 0; n := 0 |})
           <= cdf (nth j rows {| cdf := 0; n := 0 |})) /\
    (forall i, (i < Z.to_nat 3)%nat ->
       cdf (nth i rows {| cdf := 0; n := 0 |}) <= 1) /\
    cdf (last rows {| cdf := 0; n := 0 |}) = 1.
Proof.
  apply (mete_lgsr_cdf_reaches_one Sample.sample_lib 2 3
           (Sample.bisect (mete_eq Sample.sample_lib 2 3) 0.3 2 100)).
  - lia.
  - exact sample_mete_2_3_root.
  - intros y _. apply Rpower_positive.
Defined.

End MeteSpec.

(* ================================================================== *)
(** * predict_sad.py: the Bulmer likelihood and its grouped sum *)
(* ================================================================== *)

Module BulmerSpec.

Import PredictSad PredictSadSpec PredictSadMore PredictSadRest.

(** ** Lists of ints: occurrences, sorting, maximum, ranges *)

Lemma occ_cons (v x : Z) (l : list Z) :
  occ v (x :: l) = ((if (v =? x)%Z then 1 else 0) + occ v l)%nat.
Proof. unfold occ. simpl. now destruct (v =? x)%Z. Qed.

Lemma occ_zero_iff (v : Z) (l : list Z) : occ v l = 0%nat <-> ~ In v l.
Proof.
  induction l as [|x t IH]; [easy|]. rewrite occ_cons. simpl.
  destruct (v =? x)%Z eqn:E.
  - apply Z.eqb_eq in E. split; [lia|]. intros H. elim H. now left.
  - apply Z.eqb_neq in E. simpl. rewrite IH. intuition.
Qed.

Lemma insert_Z_occ (v x : Z) (l : list Z) :
  occ v (insert_Z x l) = occ v (x :: l).
Proof.
  induction l as [|y t IH]; [reflexivity|]. simpl insert_Z.
  destruct (x <=? y)%Z; [reflexivity|].
  rewrite !occ_cons in *. rewrite IH. lia.
Qed.

Lemma np_sort_Z_occ (v : Z) (l : list Z) : occ v (np_sort_Z l) = occ v l.
Proof.
  unfold np_sort_Z. induction l as [|x t IH]; [reflexivity|]. simpl.
  now rewrite insert_Z_occ, !occ_cons, IH.
Qed.

Lemma np_sort_Z_In (a : Z) (l : list Z) : In a (np_sort_Z l) <-> In a l.
Proof.
  split; intros H.
  - destruct (in_dec Z.eq_dec a l) as [Hin|Hout]; [exact Hin|].
    apply occ_zero_iff in Hout. rewrite <- np_sort_Z_occ in Hout.
    now apply occ_zero_iff in Hout.
  - destruct (in_dec Z.eq_dec a (np_sort_Z l)) as [Hin|Hout]; [exact Hin|].
    apply occ_zero_iff in Hout. rewrite np_sort_Z_occ in Hout.
    now apply occ_zero_iff in Hout.
Qed.

Lemma insert_Z_length (x : Z) (l : list Z) :
  length (insert_Z x l) = S (length l).
Proof.
  induction l as [|y t IH]; [reflexivity|]. simpl.
  destruct (x <=? y)%Z; simpl; [reflexivity|]. now rewrite IH.
Qed.

Lemma np_sort_Z_length (l : list Z) : length (np_sort_Z l) = length l.
Proof.
  unfold np_sort_Z. induction l as [|x t IH]; [reflexivity|]. simpl.
  now rewrite insert_Z_length, IH.
Qed.

Lemma fold_Zmax_ge_init (t : list Z) (x : Z) : (x <= fold_left Z.max t x)%Z.
Proof.
  revert x. induction t as [|y t IH]; intros x; simpl; [lia|].
  specialize (IH (Z.max x y)). lia.
Qed.

Lemma fold_Zmax_upper (t : list Z) (x y : Z) :
  In y (x :: t) -> (y <= fold_left Z.max t x)%Z.
Proof.
  revert x. induction t as [|z t IH]; intros x Hy; simpl.
  - destruct Hy as [->|[]]. lia.
  - destruct Hy as [<-|[<-|Hy]].
    + pose proof (fold_Zmax_ge_init t (Z.max x z)). lia.
    + pose proof (fold_Zmax_ge_init t (Z.max x z)). lia.
    + apply IH. now right.
Qed.

Lemma fold_Zmax_member (t : list Z) (x : Z) :
  In (fold_left Z.max t x) (x :: t).
Proof.
  revert x. induction t as [|z t IH]; intros x; simpl; [now left|].
  destruct (IH (Z.max x z)) as [H|H].
  - rewrite <- H.
    destruct (Z.max_spec x z) as [(_ & E)|(_ & E)]; rewrite E.
    + right; now left.
    + now left.
  - right; right; exact H.
Qed.

(** The greatest of a non-empty list of positive ints, computed from the
    head of the sorted list or from zero. *)
Lemma top_of_positive (l : list Z) :
  l <> [] -> Forall (fun a => (0 < a)%Z) l ->
  exists top,
    py_max_Z (np_sort_Z l) = inr top /\
    fold_left Z.max l 0%Z = top /\
    (1 <= top)%Z /\
    forall a, In a l -> (1 <= a <= top)%Z.
Proof.
  intros Hne Hpos. rewrite Forall_forall in Hpos.
  destruct (np_sort_Z l) as [|x t] eqn:E.
  { apply (f_equal (@length Z)) in E. rewrite np_sort_Z_length in E.
    destruct l; [easy|discriminate]. }
  exists (fold_left Z.max t x). split; [reflexivity|].
  assert (Hin : In (fold_left Z.max t x) l).
  { apply np_sort_Z_In. rewrite E. apply fold_Zmax_member. }
  assert (Hup : forall a, In a l -> (a <= fold_left Z.max t x)%Z).
  { intros a Ha. apply fold_Zmax_upper. rewrite <- E.
    now apply np_sort_Z_In. }
  assert (Hin0 : In (fold_left Z.max l 0%Z) (0%Z :: l))
    by apply fold_Zmax_member.
  assert (Hup0 : forall a, In a l -> (a <= fold_left Z.max l 0)%Z).
  { intros a Ha. apply fold_Zmax_upper. now right. }
  pose proof (Hpos _ Hin) as Hp. pose proof (Hup0 _ Hin) as Hq.
  split; [|split; [lia|]].
  - destruct Hin0 as [Hz|Hz]; [lia|]. specialize (Hup _ Hz). lia.
  - intros a Ha. specialize (Hpos a Ha). specialize (Hup a Ha). lia.
Qed.

Lemma np_arange_Z_zrange (lo : Z) (k : nat) :
  np_arange_Z lo (lo + Z.of_nat k) = zrange lo k.
Proof.
  unfold np_arange_Z.
  replace (Z.to_nat (lo + Z.of_nat k - lo)) with k by lia.
  revert lo. induction k as [|k IH]; intros lo; [reflexivity|].
  simpl. f_equal; [lia|].
  rewrite <- IH, <- seq_shift, map_map.
  apply map_ext. intros i. lia.
Qed.

Lemma zrange_In (lo : Z) (k : nat) (v : Z) :
  In v (zrange lo k) <-> (lo <= v < lo + Z.of_nat k)%Z.
Proof.
  revert lo. induction k as [|k IH]; intros lo; simpl; [lia|].
  rewrite IH. lia.
Qed.

(** ** The histogram on unit bins counts occurrences *)

Lemma unit_bin_count (l : list Z) (lo : Z) (p : Z -> bool) :
  (forall x, In x l -> p x = (lo =? x)%Z) ->
  length (filter p l) = occ lo l.
Proof.
  unfold occ. induction l as [|x t IH]; intros H; [reflexivity|]. simpl.
  rewrite (H x) by now left.
  assert (Ht : length (filter p t) = length (filter (Z.eqb lo) t))
    by (apply IH; intros; apply H; now right).
  destruct (lo =? x)%Z; simpl; now rewrite Ht.
Qed.

Lemma hist_counts_unit_bins (l : list Z) (k : nat) :
  forall lo,
  (forall x, In x l -> (x < lo + Z.of_nat (S k))%Z) ->
  hist_counts l (zrange lo (S (S k)))
  = map (fun v => Z.of_nat (occ v l)) (zrange lo (S k)).
Proof.
  induction k as [|k IH]; intros lo Hb.
  - simpl. f_equal. f_equal. apply unit_bin_count.
    intros x Hx. specialize (Hb x Hx). apply eq_iff_eq_true.
    rewrite andb_true_iff, !Z.leb_le, Z.eqb_eq. lia.
  - change (zrange lo (S (S (S k))))
      with (lo :: (lo + 1)%Z :: zrange (lo + 1 + 1) (S k)).
    change (zrange lo (S (S k))) with (lo :: zrange (lo + 1) (S k)).
    cbn [hist_counts map zrange]. f_equal.
    + f_equal. apply unit_bin_count. intros x Hx.
      apply eq_iff_eq_true.
      rewrite andb_true_iff, Z.leb_le, Z.ltb_lt, Z.eqb_eq. lia.
    + apply (IH (lo + 1)%Z). intros x Hx. specialize (Hb x Hx). lia.
Qed.

Lemma combine_zrange (g : Z -> bool) (k : nat) :
  forall lo,
  combine (zrange lo (S k)) (map g (zrange lo k))
  = map (fun v => (v, g v)) (zrange lo k).
Proof.
  induction k as [|k IH]; intros lo; [reflexivity|].
  change (zrange lo (S (S k))) with (lo :: zrange (lo + 1) (S k)).
  simpl. f_equal. apply IH.
Qed.

Lemma mask_select_map {A B : Type} (h : A -> B) (q : A -> bool)
  (l : list A) :
  mask_select (map h l) (map q l) = map h (filter q l).
Proof.
  unfold mask_select. induction l as [|x t IH]; [reflexivity|]. simpl.
  destruct (q x); simpl; now rewrite IH.
Qed.

Lemma mask_select_edges (q : Z -> bool) (k : nat) (lo : Z) :
  mask_select (zrange lo (S k)) (map q (zrange lo k))
  = filter q (zrange lo k).
Proof.
  unfold mask_select. rewrite combine_zrange.
  induction (zrange lo k) as [|x t IH]; [reflexivity|]. simpl.
  destruct (q x); simpl; now rewrite IH.
Qed.

(** ** Sums by value *)

Lemma py_sum_map_plus {A : Type} (g h : A -> R) (l : list A) :
  py_sum (map (fun v => g v + h v) l)
  = py_sum (map g l) + py_sum (map h l).
Proof.
  induction l as [|x t IH]; simpl.
  - rewrite py_sum_nil. lra.
  - rewrite !py_sum_cons, IH. lra.
Qed.

Lemma py_sum_map_ext_in {A : Type} (g h : A -> R) (l : list A) :
  (forall v, In v l -> g v = h v) ->
  py_sum (map g l) = py_sum (map h l).
Proof. intros H. f_equal. now apply map_ext_in. Qed.

Lemma py_sum_map_zero {A : Type} (g : A -> R) (l : list A) :
  (forall v, In v l -> g v = 0) -> py_sum (map g l) = 0.
Proof.
  induction l as [|x t IH]; intros H; simpl; [apply py_sum_nil|].
  rewrite py_sum_cons, (H x) by now left.
  rewrite IH by (intros; apply H; now right). lra.
Qed.

Lemma py_sum_filter_nonzero {A : Type} (g : A -> R) (q : A -> bool)
  (l : list A) :
  (forall v, In v l -> q v = false -> g v = 0) ->
  py_sum (map g (filter q l)) = py_sum (map g l).
Proof.
  induction l as [|x t IH]; intros H; [reflexivity|]. simpl.
  assert (Ht : py_sum (map g (filter q t)) = py_sum (map g t))
    by (apply IH; intros; apply H; [now right|assumption]).
  destruct (q x) eqn:E; simpl; rewrite !py_sum_cons, ?Ht.
  - reflexivity.
  - rewrite (H x) by (now left || assumption). lra.
Qed.

Lemma indicator_sum (f : Z -> R) (a : Z) (k : nat) :
  forall lo, (lo <= a < lo + Z.of_nat k)%Z ->
  py_sum (map (fun v => (if (v =? a)%Z then 1 else 0) * f v) (zrange lo k))
  = f a.
Proof.
  induction k as [|k IH]; intros lo Ha; [lia|]. simpl.
  rewrite py_sum_cons. destruct (lo =? a)%Z eqn:E.
  - apply Z.eqb_eq in E. subst lo.
    rewrite py_sum_map_zero; [lra|].
    intros v Hv. apply zrange_In in Hv.
    replace (v =? a)%Z with false by (symmetry; apply Z.eqb_neq; lia). lra.
  - apply Z.eqb_neq in E. rewrite IH by lia. lra.
Qed.

(** Summing [f] over the values of a range, each weighted by the number
    of its occurrences in [l], is summing [f] over [l]. *)
Lemma sum_by_value (f : Z -> R) (lo : Z) (k : nat) (l : list Z) :
  (forall a, In a l -> (lo <= a < lo + Z.of_nat k)%Z) ->
  py_sum (map (fun v => INR (occ v l) * f v) (zrange lo k))
  = py_sum (map f l).
Proof.
  induction l as [|a t IH]; intros Hb.
  - simpl map at 2. rewrite py_sum_nil. apply py_sum_map_zero.
    intros v _. unfold occ. simpl. lra.
  - simpl map at 2. rewrite py_sum_cons.
    rewrite <- IH by (intros; apply Hb; now right).
    rewrite <- (indicator_sum f a k lo) by (apply Hb; now left).
    rewrite <- py_sum_map_plus. apply py_sum_map_ext_in.
    intros v _. rewrite occ_cons, plus_INR.
    destruct (v =? a)%Z; simpl INR; lra.
Qed.

(** ** [pln_lik] *)

Lemma concat_map_nil {A B : Type} (l : list A) :
  concat (map (fun _ : A => @nil B) l) = [].
Proof. induction l; simpl; auto. Qed.

Lemma weigh_from_maps {A : Type} (h : A -> Z) (g : A -> R) (l : list A) :
  forall pre : list A,
  weigh_from (length pre) (map h l) (map g (pre ++ l))
  = inr (map (fun v => IZR (h v) * g v) l).
Proof.
  induction l as [|x t IH]; intros pre; [reflexivity|]. simpl.
  unfold py_index. rewrite nth_error_map, nth_error_app2 by lia.
  rewrite Nat.sub_diag. simpl.
  specialize (IH (pre ++ [x])).
  rewrite length_app, <- app_assoc in IH. simpl in IH.
  replace (length pre + 1)%nat with (S (length pre)) in IH by lia.
  now rewrite IH.
Qed.

Section Likelihood.

Variable lib : numlib.
Variable quad_on : (R -> R) -> R -> option R -> R.
Variables mu sigma : R.

Lemma pln_lik_entry_value (approx_cut ab : Z) :
  0 < sigma -> (ab >? approx_cut)%Z = true \/ (0 <= ab)%Z ->
  pln_lik_entry lib quad_on mu sigma approx_cut ab
  = (pln_lik_quads sigma approx_cut ab,
     inr (pln_lik_value lib quad_on mu sigma approx_cut ab)).
Proof.
  intros Hs Hab. unfold pln_lik_entry, pln_lik_quads, pln_lik_value.
  replace (Rleb sigma 0) with false by (symmetry; apply Rleb_false; lra).
  destruct (ab >? approx_cut)%Z eqn:E; [reflexivity|].
  destruct Hab as [Hab|Hab]; [discriminate|].
  unfold py_factorial.
  replace (ab <? 0)%Z with false by (symmetry; apply Z.ltb_ge; lia).
  reflexivity.
Qed.

Lemma pln_lik_values (approx_cut : Z) (abs : list Z) :
  Forall (fun a => (0 <= a)%Z) abs ->
  pln_lik lib quad_on mu sigma abs approx_cut
  = (concat (map (pln_lik_quads sigma approx_cut) abs),
     inr (map (pln_lik_value lib quad_on mu sigma approx_cut) abs)).
Proof.
  intros Hab. unfold pln_lik. destruct (Rleb sigma 0) eqn:E.
  - unfold pln_lik_quads, pln_lik_value. rewrite E.
    rewrite concat_map_nil. unfold np_repeat.
    now rewrite map_const_repeat.
  - apply map_M_pure_in. intros a Ha. apply pln_lik_entry_value.
    + apply Rleb_false in E. lra.
    + right. rewrite Forall_forall in Hab. now apply Hab.
Qed.


End Likelihood.

(** ** The grouping that opens [pln_ll] *)

Lemma positive_nonempty (ab : list Z) :
  Exists (fun a => (0 < a)%Z) ab ->
  positive ab <> [] /\ Forall (fun a => (0 < a)%Z) (positive ab).
Proof.
  intros H. split.
  - apply Exists_exists in H. destruct H as (a & Ha & Hp).
    assert (Hin : In a (positive ab))
      by (apply filter_In; split; [exact Ha|now apply Z.ltb_lt]).
    intros E. rewrite E in Hin. exact Hin.
  - apply Forall_forall. intros a Ha. apply filter_In in Ha.
    now apply Z.ltb_lt.
Qed.

Lemma positive_empty (ab : list Z) :
  Forall (fun a => (a <= 0)%Z) ab -> positive ab = [].
Proof.
  induction 1 as [|a t Ha _ IH]; [reflexivity|]. unfold positive in *.
  simpl. replace (0 <? a)%Z with false by (symmetry; apply Z.ltb_ge; lia).
  exact IH.
Qed.

Lemma observed_groups (srt : list Z) (top : Z) :
  (1 <= top)%Z -> (forall a, In a srt -> (1 <= a <= top)%Z) ->
  let present := fun v => negb (Nat.eqb (occ v srt) 0) in
  let edges := py_range 1 (top + 2) in
  let hist := hist_counts srt edges in
  let nonzero := map (fun c => negb (c =? 0)%Z) hist in
  mask_select edges nonzero
  = filter present (zrange 1 (Z.to_nat top)) /\
  mask_select hist nonzero
  = map (fun v => Z.of_nat (occ v srt))
        (filter present (zrange 1 (Z.to_nat top))).
Proof.
  intros Htop Hb present edges hist nonzero.
  assert (Ek : exists k, Z.to_nat top = S k).
  { exists (Z.to_nat (top - 1)). lia. }
  destruct Ek as (k & Ek).
  assert (Ee : edges = zrange 1 (S (S k))).
  { unfold edges, py_range.
    replace (top + 2)%Z with (1 + Z.of_nat (S (S k)))%Z by lia.
    apply np_arange_Z_zrange. }
  assert (Eh : hist = map (fun v => Z.of_nat (occ v srt)) (zrange 1 (S k))).
  { unfold hist. rewrite Ee. apply hist_counts_unit_bins.
    intros x Hx. specialize (Hb x Hx). lia. }
  assert (En : nonzero = map present (zrange 1 (S k))).
  { unfold nonzero. rewrite Eh, map_map. apply map_ext. intros v.
    unfold present. f_equal. destruct (occ v srt); reflexivity. }
  rewrite Ek. split.
  - rewrite En, Ee. apply mask_select_edges.
  - rewrite En, Eh. apply mask_select_map.
Qed.

Lemma grouped_sum (f : Z -> R) (l : list Z) (top : Z) :
  (forall a, In a l -> (1 <= a <= top)%Z) ->
  py_sum (map (fun v => IZR (Z.of_nat (occ v l)) * f v)
              (filter (fun v => negb (Nat.eqb (occ v l) 0))
                      (zrange 1 (Z.to_nat top))))
  = py_sum (map f l).
Proof.
  intros Hb. rewrite py_sum_filter_nonzero.
  - rewrite <- (sum_by_value f 1 (Z.to_nat top) l).
    + apply py_sum_map_ext_in. intros v _. now rewrite INR_IZR_INZ.
    + intros a Ha. specialize (Hb a Ha). lia.
  - intros v _ Hv. apply negb_false_iff, Nat.eqb_eq in Hv.
    rewrite Hv. simpl. lra.
Qed.

Section LogLikelihood.

Variable lib : numlib.
Variable quad_on : (R -> R) -> R -> option R -> R.
Variables mu sigma : R.



(** X15.  [pln_ll] groups the positive abundances by value, but what it
    returns is the sum over the positive abundances themselves of the
    logarithm of their likelihood, minus their number times
    [log (1 - L0)], where [L0] is the likelihood of abundance 0; zeros,
    negative entries and the order of the vector do not matter.  It
    integrates once per distinct positive value, in ascending order, and
    then for abundance 0. *)
Theorem pln_ll_sums_over_individuals (ab : list Z) :
  Exists (fun a => (0 < a)%Z) ab ->
  pln_ll lib quad_on mu sigma ab
  = (concat (map (pln_lik_quads sigma 10) (distinct_positive ab))
       ++ pln_lik_quads sigma 10 0,
     inr (py_sum (map (fun a =>
                         m_log lib (pln_lik_value lib quad_on mu sigma 10 a))
                      (positive ab))
          - INR (length (positive ab))
            * m_log lib (1 - pln_lik_value lib quad_on mu sigma 10 0))).
Proof.
  intros Hex. destruct (positive_nonempty ab Hex) as (Hne & Hpos).
  destruct (top_of_positive (positive ab) Hne Hpos)
    as (top & Hmax & Hfold & Htop & Hb).
  assert (Hsrt : forall a, In a (np_sort_Z (positive ab)) ->
                           (1 <= a <= top)%Z).
  { intros a Ha. apply Hb. now apply np_sort_Z_In. }
  destruct (observed_groups (np_sort_Z (positive ab)) top Htop Hsrt)
    as (Eobs & Ecnt).
  assert (Epres : filter (fun v => negb (Nat.eqb
                            (occ v (np_sort_Z (positive ab))) 0))
                         (zrange 1 (Z.to_nat top))
                  = distinct_positive ab).
  { unfold distinct_positive. rewrite Hfold. apply filter_ext.
    intros v. now rewrite np_sort_Z_occ. }
  rewrite Epres in Eobs, Ecnt.
  assert (Ecnt' : map (fun v => Z.of_nat (occ v (np_sort_Z (positive ab))))
                      (distinct_positive ab)
                  = map (fun v => Z.of_nat (occ v (positive ab)))
                        (distinct_positive ab)).
  { apply map_ext. intros v. now rewrite np_sort_Z_occ. }
  rewrite Ecnt' in Ecnt. clear Ecnt'.
  assert (Hobs : Forall (fun a => (0 <= a)%Z) (distinct_positive ab)).
  { apply Forall_forall. intros a Ha. rewrite <- Epres in Ha.
    apply filter_In in Ha. destruct Ha as (Ha & _).
    apply zrange_In in Ha. lia. }
  unfold pln_ll. fold (positive ab). rewrite Hmax.
  unfold lift at 1. rewrite bind_M_ret. cbv zeta.
  rewrite Eobs, Ecnt, (pln_lik_values _ _ _ _ _ _ Hobs), bind_M_step.
  cbn [fst snd]. rewrite map_map.
  pose proof (weigh_from_maps
                (fun v => Z.of_nat (occ v (positive ab)))
                (fun v => m_log lib (pln_lik_value lib quad_on mu sigma 10 v))
                (distinct_positive ab) []) as Hw.
  cbn [length app] in Hw. rewrite Hw. clear Hw.
  unfold lift at 1. rewrite bind_M_ret.
  rewrite (pln_lik_values lib quad_on mu sigma 10 [0%Z])
    by (constructor; [lia|constructor]).
  rewrite bind_M_step. cbn [fst snd map concat py_index nth_error lift].
  rewrite !app_nil_r. f_equal. f_equal. unfold ret. cbn.
  rewrite np_sort_Z_length. f_equal.
  unfold distinct_positive. rewrite Hfold.
  now rewrite (grouped_sum _ _ top Hb).
Qed.

(** X16.  A vector without a positive abundance makes [pln_ll] raise the
    [ValueError] of [max] on an empty sequence, before any quadrature. *)
Theorem pln_ll_no_positive_abundance (ab : list Z) :
  Forall (fun a => (a <= 0)%Z) ab ->
  pln_ll lib quad_on mu sigma ab
  = ([], inl (ValueError "max() arg is an empty sequence")).
Proof.
  intros H. unfold pln_ll. fold (positive ab).
  now rewrite (positive_empty ab H).
Qed.

End LogLikelihood.



Lemma pln_ll_sums_over_individuals_witness :
  pln_ll Sample.sample_lib SampleRest.one_panel_quad 0 1 [3; 0; 1; 3]%Z
  = (concat (map (pln_lik_quads 1 10) (distinct_positive [3; 0; 1; 3]%Z))
       ++ pln_lik_quads 1 10 0,
     inr (py_sum (map (fun a =>
                         m_log Sample.sample_lib
                           (pln_lik_value Sample.sample_lib
                              SampleRest.one_panel_quad 0 1 10 a))
                      (positive [3; 0; 1; 3]%Z))
          - INR (length (positive [3; 0; 1; 3]%Z))
            * m_log Sample.sample_lib
                (1 - pln_lik_value Sample.sample_lib
                       SampleRest.one_panel_quad 0 1 10 0))).
Proof.
  apply (pln_ll_sums_over_individuals Sample.sample_lib
           SampleRest.one_panel_quad 0 1 [3; 0; 1; 3]%Z).
  apply Exists_cons_hd. lia.
Defined.

Lemma pln_ll_no_positive_abundance_witness :
  pln_ll Sample.sample_lib SampleRest.one_panel_quad 0 1 [0; -2; 0]%Z
  = ([], inl (ValueError "max() arg is an empty sequence")).
Proof.
  apply (pln_ll_no_positive_abundance Sample.sample_lib
           SampleRest.one_panel_quad 0 1 [0; -2; 0]%Z).
  repeat constructor; lia.
Defined.

End BulmerSpec.

(* ================================================================== *)
(** * compare.py: more about the comparison functions *)
(* ================================================================== *)

Module CompareMore.

Import Compare CompareSpec CompareRest PredictSadMore.

(** ** [empirical_cdf] *)

Lemma countb_member (p : R -> bool) (l : list R) (x : R) :
  In x l -> p x = true -> (1 <= countb p l)%nat.
Proof.
  induction l as [|y t IH]; intros Hin Hp; [easy|].
  rewrite countb_cons. destruct Hin as [->|Hin].
  - rewrite Hp. lia.
  - specialize (IH Hin Hp). lia.
Qed.

Lemma count_le_bounds (data : list R) (j : nat) :
  (j < length data)%nat ->
  (1 <= count_le (nth j data 0%R) data <= length data)%nat.
Proof.
  intros Hj. unfold count_le. split; [|apply countb_le_length].
  apply (countb_member _ _ (nth j data 0)).
  - now apply nth_In.
  - apply Rleb_true. lra.
Qed.

Lemma count_le_monotone (data : list R) (u v : R) :
  u <= v -> (count_le u data <= count_le v data)%nat.
Proof.
  intros Huv. unfold count_le. apply countb_monotone.
  intros y Hy. apply Rleb_true in Hy. apply Rleb_true. lra.
Qed.

(** X17.  Every entry of the empirical cdf lies between [1 / len] and 1,
    a larger observation never has a smaller entry, and an observation
    that nothing exceeds has entry 1. *)
Theorem empirical_cdf_range (junk : nat -> R) (data : list R) :
  exists cdf : list R,
    empirical_cdf junk (Sequence data) = inr cdf /\
    (forall j, (j < length data)%nat ->
       1 / INR (length data) <= nth j cdf 0 <= 1) /\
    (forall j k, (j < length data)%nat -> (k < length data)%nat ->
       nth j data 0 <= nth k data 0 -> nth j cdf 0 <= nth k cdf 0) /\
    (forall j, (j < length data)%nat ->
       (forall x, In x data -> x <= nth j data 0) -> nth j cdf 0 = 1).
Proof.
  rewrite empirical_cdf_unfold. eexists. split; [reflexivity|].
  destruct (empirical_cdf_entries junk data) as (_ & Hent).
  assert (Hlen : forall j, (j < length data)%nat -> 0 < INR (length data)).
  { intros j Hj. apply lt_0_INR. lia. }
  split; [|split].
  - intros j Hj. rewrite (Hent j Hj).
    pose proof (count_le_bounds data j Hj) as (Hlo & Hhi).
    apply le_INR in Hlo, Hhi. simpl INR in Hlo.
    specialize (Hlen j Hj). split.
    + apply Rmult_le_compat_r; [|exact Hlo].
      apply Rlt_le, Rinv_0_lt_compat, Hlen.
    + replace 1 with (INR (length data) * / INR (length data))
        by (apply Rinv_r; lra).
      apply Rmult_le_compat_r; [|exact Hhi].
      apply Rlt_le, Rinv_0_lt_compat, Hlen.
  - intros j k Hj Hk Hjk. rewrite (Hent j Hj), (Hent k Hk).
    apply Rmult_le_compat_r.
    + apply Rlt_le, Rinv_0_lt_compat, (Hlen j Hj).
    + apply le_INR, count_le_monotone, Hjk.
  - intros j Hj Hmax. rewrite (Hent j Hj). unfold count_le.
    rewrite countb_all.
    + apply Rinv_r. specialize (Hlen j Hj). lra.
    + intros y Hy. apply Rleb_true. now apply Hmax.
Qed.

(** X18.  Nothing of the uninitialised array that [np.empty] hands out
    survives: the result is the same whatever that array held. *)
Theorem empirical_cdf_overwrites_empty (junk junk' : nat -> R)
  (data : list R) :
  empirical_cdf junk (Sequence data) = empirical_cdf junk' (Sequence data).
Proof.
  rewrite !empirical_cdf_unfold. f_equal.
  destruct (empirical_cdf_entries junk data) as (Hl & Hent).
  destruct (empirical_cdf_entries junk' data) as (Hl' & Hent').
  apply (nth_ext _ _ 0 0); [now rewrite Hl, Hl'|].
  intros j Hj. rewrite Hl in Hj. now rewrite Hent, Hent'.
Qed.

(** ** [aic_weights] *)

Lemma py_sum_le_length (l : list R) :
  (forall v, In v l -> v <= 1) -> py_sum l <= INR (length l).
Proof.
  induction l as [|x t IH]; intros H.
  - rewrite py_sum_nil. simpl. lra.
  - rewrite py_sum_cons. change (length (x :: t)) with (S (length t)).
    rewrite S_INR.
    assert (x <= 1) by (apply H; now left).
    assert (py_sum t <= INR (length t))
      by (apply IH; intros; apply H; now right).
    lra.
Qed.

(** X19.  With an exponential that is monotone, non-negative and 1 at 0,
    the AIC weights lie in [[0, 1]], a model with a smaller AIC never has
    a smaller weight, and a model with the smallest AIC has weight at
    least [1 / len]. *)
Theorem aic_weights_order (lib : numlib) (a : list R) :
  np_exp lib 0 = 1 ->
  (forall x, 0 <= np_exp lib x) ->
  (forall x y, x <= y -> np_exp lib x <= np_exp lib y) ->
  a <> [] ->
  exists weights : list R,
    aic_weights lib (Sequence a) = inr weights /\
    (forall i, (i < length a)%nat -> 0 <= nth i weights 0 <= 1) /\
    (forall i j, (i < length a)%nat -> (j < length a)%nat ->
       nth i a 0 <= nth j a 0 -> nth j weights 0 <= nth i weights 0) /\
    (forall i, (i < length a)%nat ->
       (forall x, In x a -> nth i a 0 <= x) ->
       1 / INR (length a) <= nth i weights 0).
Proof.
  intros H0 Hpos Hmono Hne.
  destruct (np_min_spec a Hne) as (m & Hmin & Hin & Hlow).
  rewrite (aic_weights_unfold lib a m Hmin). eexists. split; [reflexivity|].
  pose proof (rel_likelihoods_sum_pos lib a m H0 Hpos Hin) as Hsum.
  set (total := py_sum (rel_likelihoods lib m a)) in *.
  assert (Hnth : forall i, (i < length a)%nat ->
            nth i (map (fun v => v / total) (rel_likelihoods lib m a)) 0
            = np_exp lib (- (nth i a 0 - m) / 2) / total).
  { intros i Hi. unfold rel_likelihoods.
    rewrite (nth_map_in_range _ _ _ 0) by now rewrite length_map.
    now rewrite (nth_map_in_range _ _ _ 0). }
  assert (Hone : forall x, In x a -> np_exp lib (- (x - m) / 2) <= 1).
  { intros x Hx. rewrite <- H0. apply Hmono. specialize (Hlow x Hx). lra. }
  assert (Hinv : 0 < / total) by (apply Rinv_0_lt_compat; lra).
  split; [|split].
  - intros i Hi. rewrite (Hnth i Hi). unfold Rdiv. split.
    + apply Rmult_le_pos; [apply Hpos|lra].
    + assert (np_exp lib (- (nth i a 0 - m) / 2) <= 1)
        by (apply Hone, nth_In, Hi).
      assert (/ total <= 1).
      { rewrite <- Rinv_1. apply Rinv_le_contravar; lra. }
      pose proof (Hpos (- (nth i a 0 - m) / 2)). nra.
  - intros i j Hi Hj Hij. rewrite (Hnth i Hi), (Hnth j Hj). unfold Rdiv.
    apply Rmult_le_compat_r; [lra|]. apply Hmono. lra.
  - intros i Hi Hbest. rewrite (Hnth i Hi).
    assert (Em : nth i a 0 = m).
    { apply Rle_antisym; [now apply Hbest|apply Hlow, nth_In, Hi]. }
    rewrite Em. replace (- (m - m) / 2) with 0 by lra. rewrite H0.
    unfold Rdiv. rewrite !Rmult_1_l.
    apply Rinv_le_contravar; [lra|].
    unfold total. rewrite <- (length_map (fun x => np_exp lib (- (x - m) / 2)) a).
    apply py_sum_le_length. intros v Hv. unfold rel_likelihoods in Hv.
    apply in_map_iff in Hv. destruct Hv as (x & <- & Hx). now apply Hone.
Qed.

Lemma aic_weights_order_witness :
  exists weights : list R,
    aic_weights Sample.sample_lib (Sequence [12; 10; 15]) = inr weights /\
    (forall i, (i < length [12; 10; 15])%nat -> 0 <= nth i weights 0 <= 1) /\
    (forall i j, (i < length [12; 10; 15])%nat ->
       (j < length [12; 10; 15])%nat ->
       nth i [12; 10; 15] 0 <= nth j [12; 10; 15] 0 ->
       nth j weights 0 <= nth i weights 0) /\
    (forall i, (i < length [12; 10; 15])%nat ->
       (forall x, In x [12; 10; 15] -> nth i [12; 10; 15] 0 <= x) ->
       1 / INR (length [12; 10; 15]) <= nth i weights 0).
Proof.
  apply (aic_weights_order Sample.sample_lib [12; 10; 15]).
  - exact exp_0.
  - intros x. left. apply exp_pos.
  - intros x y [Hlt | ->]; [left; now apply exp_increasing|right; reflexivity].
  - discriminate.
Defined.

(** ** [likelihood_ratio_test] *)

(** X20.  [likelihood_ratio_test] raises its [AssertionError] exactly
    when the three converted arguments do not have one length; a scalar
    counts as length one. *)
Theorem likelihood_ratio_test_assertion (lib : numlib)
  (nll_null nll_alt df_list : pyarg) :
  likelihood_ratio_test lib nll_null nll_alt df_list
  = inl (AssertionError
           "nll_null, nll_alt, and df_list must have the same length")
  <-> (length (cnvrt_to_array nll_null) <> length (cnvrt_to_array nll_alt)
       \/ length (cnvrt_to_array nll_null)
          <> length (cnvrt_to_array df_list)).
Proof.
  unfold likelihood_ratio_test, cnvrt_to_arrays. cbn [map].
  set (x := cnvrt_to_array nll_null). set (y := cnvrt_to_array nll_alt).
  set (z := cnvrt_to_array df_list).
  destruct (Nat.eqb (length x) (length y)) eqn:Exy;
    destruct (Nat.eqb (length x) (length z)) eqn:Exz.
  - apply Nat.eqb_eq in Exy, Exz.
    replace (Nat.eqb (length y) (length z)) with true
      by (symmetry; apply Nat.eqb_eq; lia).
    cbn [andb assert_].
    rewrite broadcast_same_length by (rewrite !length_map; exact Exy).
    split; [discriminate|lia].
  - apply Nat.eqb_neq in Exz. cbn [andb assert_]. split; [now right|reflexivity].
  - apply Nat.eqb_neq in Exy. cbn [andb assert_]. split; [now left|reflexivity].
  - apply Nat.eqb_neq in Exy. cbn [andb assert_]. split; [now left|reflexivity].
Qed.

(** ** [aic] and [aicc] *)

Lemma aic_entries (neg_L k : list R) :
  length neg_L = length k ->
  exists aic_value : list R,
    aic (Sequence neg_L) (Sequence k) = inr aic_value /\
    length aic_value = length neg_L /\
    forall i, (i < length neg_L)%nat ->
      nth i aic_value 0 = 2 * nth i neg_L 0 + 2 * nth i k 0.
Proof.
  intros Hk. unfold aic, cnvrt_to_arrays. cbn [map cnvrt_to_array].
  rewrite <- Hk, Nat.eqb_refl. cbn [assert_].
  change (bind (ret tt) ?f) with (f tt). cbv beta.
  rewrite broadcast_same_length by (rewrite !length_map; exact Hk).
  eexists. split; [reflexivity|].
  assert (Hc : length (combine (map (Rmult 2) neg_L) (map (Rmult 2) k))
               = length neg_L).
  { rewrite length_combine, !length_map. lia. }
  split; [now rewrite length_map|].
  intros i Hi.
  rewrite (nth_map_in_range _ _ _ (0, 0)) by (rewrite Hc; exact Hi).
  rewrite combine_nth by (rewrite !length_map; exact Hk).
  cbn [fst snd].
  now rewrite !(nth_map_in_range _ _ _ 0) by lia.
Qed.

Lemma aicc_entries (neg_L k n : list R) :
  length neg_L = length k -> length neg_L = length n ->
  exists out : list npfloat,
    aicc (Sequence neg_L) (Sequence k) (Sequence n) = inr out /\
    length out = length neg_L /\
    forall i, (i < length neg_L)%nat ->
      nth i out NaN
      = np_add (2 * nth i neg_L 0 + 2 * nth i k 0)
          (np_divide (2 * nth i k 0 * (nth i k 0 + 1))
                     (nth i n 0 - nth i k 0 - 1)).
Proof.
  intros Hk Hn.
  destruct (aic_entries neg_L k Hk) as (a & Ha & Hla & Hent).
  unfold aicc, cnvrt_to_arrays. cbn [map cnvrt_to_array].
  rewrite <- Hk, <- Hn, !Nat.eqb_refl. cbn [andb assert_].
  change (bind (ret tt) ?f) with (f tt). cbv beta.
  rewrite Ha.
  change (bind (inr a) ?f) with (f a). cbv beta.
  rewrite broadcast_same_length by lia.
  change (bind (inr ?v) ?f) with (f v). cbv beta zeta.
  eexists. split; [reflexivity|].
  set (num := map (fun k_i => 2 * k_i * (k_i + 1)) k).
  set (den := map (fun d => d - 1)
                  (map (fun p => fst p - snd p) (combine n k))).
  set (crt := map (fun p => np_divide (fst p) (snd p)) (combine num den)).
  assert (Lnk : length (combine n k) = length neg_L)
    by (rewrite length_combine; lia).
  assert (Lnum : length num = length neg_L)
    by (unfold num; rewrite length_map; lia).
  assert (Lden : length den = length neg_L)
    by (unfold den; rewrite !length_map; exact Lnk).
  assert (Lnd : length (combine num den) = length neg_L)
    by (rewrite length_combine; lia).
  assert (Lcrt : length crt = length neg_L)
    by (unfold crt; rewrite length_map; exact Lnd).
  assert (Lac : length (combine a crt) = length neg_L)
    by (rewrite length_combine; lia).
  split; [now rewrite length_map|].
  intros i Hi.
  rewrite (nth_map_in_range _ _ _ (0, NaN)) by (rewrite Lac; exact Hi).
  rewrite combine_nth by lia. cbn [fst snd].
  rewrite (Hent i Hi). f_equal. unfold crt.
  rewrite (nth_map_in_range _ _ _ (0, 0)) by (rewrite Lnd; exact Hi).
  rewrite combine_nth by lia. cbn [fst snd]. f_equal.
  - unfold num. now rewrite (nth_map_in_range _ _ _ 0) by lia.
  - unfold den.
    rewrite (nth_map_in_range _ _ _ 0) by (rewrite length_map, Lnk; exact Hi).
    rewrite (nth_map_in_range _ _ _ (0, 0)) by (rewrite Lnk; exact Hi).
    rewrite combine_nth by lia. reflexivity.
Qed.


(** X21.  For arguments of one length, [aicc] adds to each AIC value
    [2 * neg_L + 2 * k] the correction [2 k (k + 1) / (n - k - 1)] where
    [n <> k + 1]; the corrected value is at least the AIC value when
    [0 <= k] and [k + 1 < n]; and where [n = k + 1] with [k > 0] the entry
    is [inf], not an exception. *)
Theorem aicc_correction (neg_L k n : list R) :
  length neg_L = length k -> length neg_L = length n ->
  exists (aic_value : list R) (out : list npfloat),
    aic (Sequence neg_L) (Sequence k) = inr aic_value /\
    aicc (Sequence neg_L) (Sequence k) (Sequence n) = inr out /\
    length aic_value = length neg_L /\
    length out = length neg_L /\
    forall i, (i < length neg_L)%nat ->
      nth i aic_value 0 = 2 * nth i neg_L 0 + 2 * nth i k 0 /\
      (nth i n 0 <> nth i k 0 + 1 ->
       nth i out NaN
       = Fin (nth i aic_value 0
              + 2 * nth i k 0 * (nth i k 0 + 1)
                / (nth i n 0 - nth i k 0 - 1))) /\
      (0 <= nth i k 0 -> nth i k 0 + 1 < nth i n 0 ->
       exists c, nth i out NaN = Fin c /\ nth i aic_value 0 <= c) /\
      (nth i n 0 = nth i k 0 + 1 -> 0 < nth i k 0 ->
       nth i out NaN = PosInf).
Proof.
  intros Hk Hn.
  destruct (aic_entries neg_L k Hk) as (a & Ha & Hla & Hent).
  destruct (aicc_entries neg_L k n Hk Hn) as (out & Hout & Hlo & Hoent).
  exists a, out. repeat (split; [assumption|]).
  intros i Hi. rewrite (Hoent i Hi), (Hent i Hi).
  set (ki := nth i k 0). set (ni := nth i n 0). set (li := nth i neg_L 0).
  split; [reflexivity|]. unfold np_divide. split; [|split].
  - intros Hne.
    replace (Reqb (ni - ki - 1) 0) with false
      by (symmetry; apply Reqb_false; lra).
    reflexivity.
  - intros Hk0 Hlt.
    replace (Reqb (ni - ki - 1) 0) with false
      by (symmetry; apply Reqb_false; lra).
    eexists. split; [reflexivity|].
    assert (0 <= 2 * ki * (ki + 1) / (ni - ki - 1)).
    { unfold Rdiv. apply Rmult_le_pos; [nra|].
      apply Rlt_le, Rinv_0_lt_compat. lra. }
    lra.
  - intros Heq Hk0.
    replace (Reqb (ni - ki - 1) 0) with true
      by (symmetry; apply Reqb_true; lra).
    replace (Reqb (2 * ki * (ki + 1)) 0) with false
      by (symmetry; apply Reqb_false; nra).
    replace (Rltb 0 (2 * ki * (ki + 1))) with true
      by (symmetry; apply Rltb_true; nra).
    reflexivity.
Qed.

Lemma aicc_correction_witness :
  exists (aic_value : list R) (out : list npfloat),
    aic (Sequence [50; 40]) (Sequence [2; 3]) = inr aic_value /\
    aicc (Sequence [50; 40]) (Sequence [2; 3]) (Sequence [10; 4]) = inr out /\
    length aic_value = length [50; 40] /\
    length out = length [50; 40] /\
    forall i, (i < length [50; 40])%nat ->
      nth i aic_value 0 = 2 * nth i [50; 40] 0 + 2 * nth i [2; 3] 0 /\
      (nth i [10; 4] 0 <> nth i [2; 3] 0 + 1 ->
       nth i out NaN
       = Fin (nth i aic_value 0
              + 2 * nth i [2; 3] 0 * (nth i [2; 3] 0 + 1)
                / (nth i [10; 4] 0 - nth i [2; 3] 0 - 1))) /\
      (0 <= nth i [2; 3] 0 -> nth i [2; 3] 0 + 1 < nth i [10; 4] 0 ->
       exists c, nth i out NaN = Fin c /\ nth i aic_value 0 <= c) /\
      (nth i [10; 4] 0 = nth i [2; 3] 0 + 1 -> 0 < nth i [2; 3] 0 ->
       nth i out NaN = PosInf).
Proof.
  apply (aicc_correction [50; 40] [2; 3] [10; 4]); reflexivity.
Defined.


(** ** [nll] *)

Lemma neg_log_sum_nonneg (lib : numlib) (dist : list R) :
  (forall p, 0 < p <= 1 -> m_log lib p <= 0) ->
  Forall (fun p => 0 < p <= 1) dist ->
  0 <= - py_sum (map (m_log lib) dist).
Proof.
  intros Hlog Hp. rewrite Forall_forall in Hp.
  assert (0 <= py_sum (map (fun p => - m_log lib p) dist)).
  { apply py_sum_nonneg. intros x Hx. apply in_map_iff in Hx.
    destruct Hx as (p & <- & Hin). specialize (Hlog p (Hp p Hin)). lra. }
  assert (E : py_sum (map (fun p => - m_log lib p) dist)
              = - py_sum (map (m_log lib) dist)).
  { clear. induction dist as [|x t IH]; simpl.
    - rewrite py_sum_nil. lra.
    - rewrite !py_sum_cons, IH. lra. }
  lra.
Qed.

(** X23.  [nll] returns one value per array of pmf values, and none is
    negative when every pmf value lies in (0, 1] and the logarithm is not
    positive there. *)
Theorem nll_nonnegative (lib : numlib) (pdist : list (list R)) :
  (forall p, 0 < p <= 1 -> m_log lib p <= 0) ->
  Forall (Forall (fun p => 0 < p <= 1)) pdist ->
  length (nll lib pdist) = length pdist /\
  Forall (fun v => 0 <= v) (nll lib pdist).
Proof.
  intros Hlog Hp. unfold nll. split; [apply length_map|].
  apply Forall_forall. intros v Hv. apply in_map_iff in Hv.
  destruct Hv as (dist & <- & Hd).
  rewrite Forall_forall in Hp.
  apply neg_log_sum_nonneg; [exact Hlog|now apply Hp].
Qed.

Lemma nll_nonnegative_witness :
  length (nll Sample.sample_lib [[0.5; 0.25]; [1]]) = length [[0.5; 0.25]; [1]]
  /\ Forall (fun v => 0 <= v) (nll Sample.sample_lib [[0.5; 0.25]; [1]]).
Proof.
  apply (nll_nonnegative Sample.sample_lib [[0.5; 0.25]; [1]]).
  - intros p Hp. change (ln p <= 0). rewrite <- ln_1.
    destruct Hp as (Hp0 & [Hlt| ->]); [|lra].
    left. now apply ln_increasing.
  - repeat constructor; lra.
Defined.

End CompareMore.

(* ================================================================== *)
(** * predict_sad.py: [nll] of the METE distribution *)
(* ================================================================== *)

Module NllSpec.

Import PredictSad PredictSadSpec PredictSadMore.

Section Mete.

Variable lib : numlib.
Variable sad : list Z.
Variable x : R.

Let S : Z := len sad.
Let N : Z := py_sum_Z sad.

Hypothesis sizes : (1 < S < N)%Z.
Hypothesis sum_fits : (N < 2 ^ 63)%Z.
Hypothesis abundances_positive : Forall (fun a => (1 <= a)%Z) sad.
Hypothesis root_found :
  brentq lib (mete_eq lib S N) 0.3 (mete_stop lib S N) = inr x.
Hypothesis powers_positive : forall y, 0 < y -> 0 < fpow lib x y.

Lemma mete_lgsr_pmf_at_sad :
  mete_lgsr_pmf lib S N sad false
  = ([CallBrentq 0.3 (mete_stop lib S N)],
     inr (map (fun nv => fpow lib x nv / nv / mete_norm lib N x)
              (map IZR sad))).
Proof.
  unfold mete_lgsr_pmf.
  assert (Hwf : well_formed S N sad false).
  { split; [exact sizes|]. intros _. split; [reflexivity|]. split.
    - apply np_sum_int64_small. unfold N in *. lia.
    - apply Forall_forall. intros a Ha.
      pose proof (py_sum_Z_bounds_member sad a abundances_positive Ha).
      rewrite Forall_forall in abundances_positive.
      specialize (abundances_positive a Ha). unfold N in *. lia. }
  rewrite (check_shape_well_formed S N sad false _ _ Hwf).
  rewrite (bind_M_ret tt). unfold call_brentq.
  fold (mete_eq lib S N). fold (mete_stop lib S N).
  rewrite root_found. reflexivity.
Qed.

Lemma sad_in_support (a : Z) :
  In a sad -> In (IZR a) (np_linspace 1 (IZR N) (Z.to_nat N)).
Proof.
  intros Ha.
  assert (H1 : (1 <= a)%Z)
    by (rewrite Forall_forall in abundances_positive;
        now apply abundances_positive).
  assert (H2 : (a <= N)%Z)
    by (now apply py_sum_Z_bounds_member).
  rewrite <- (np_linspace_1_N_nth N a 0) by lia.
  apply nth_In. rewrite np_linspace_length. lia.
Qed.

Lemma mete_values_are_probabilities :
  Forall (fun p => 0 < p <= 1)
    (map (fun nv => fpow lib x nv / nv / mete_norm lib N x) (map IZR sad)).
Proof.
  apply Forall_forall. intros p Hp. rewrite map_map in Hp.
  apply in_map_iff in Hp. destruct Hp as (a & <- & Ha).
  pose proof (sad_in_support a Ha) as Hin.
  pose proof (MeteSpec.terms_positive lib S N x sizes powers_positive (IZR a) Hin)
    as Hterm.
  pose proof (MeteSpec.mete_norm_positive lib S N x sizes powers_positive)
    as Hnorm.
  assert (Hle : fpow lib x (IZR a) / IZR a <= mete_norm lib N x).
  { unfold mete_norm. apply py_sum_ge_member.
    - intros y Hy. apply in_map_iff in Hy. destruct Hy as (v & <- & Hv).
      left. now apply (MeteSpec.terms_positive lib S N x sizes powers_positive).
    - apply in_map_iff. now exists (IZR a). }
  split.
  - now apply Rdiv_lt_0_compat.
  - unfold Rdiv at 1.
    replace 1 with (mete_norm lib N x * / mete_norm lib N x)
      by (apply Rinv_r; lra).
    apply Rmult_le_compat_r; [|exact Hle].
    apply Rlt_le, Rinv_0_lt_compat, Hnorm.
Qed.

End Mete.

(** X24.  For a vector of positive abundances with more than one species
    and more individuals than species, their number within int64,
    whenever the root finder answers and the logarithm is not positive on
    (0, 1], [nll sad 'mete'] returns a non-negative number after one call
    of the root finder: every METE pmf value it takes the logarithm of
    lies in (0, 1]. *)
Theorem nll_mete_nonnegative (lib : numlib) (sad : list Z) (x : R) :
  (1 < len sad < py_sum_Z sad)%Z ->
  (py_sum_Z sad < 2 ^ 63)%Z ->
  Forall (fun a => (1 <= a)%Z) sad ->
  brentq lib (mete_eq lib (len sad) (py_sum_Z sad)) 0.3
    (mete_stop lib (len sad) (py_sum_Z sad)) = inr x ->
  (forall y, 0 < y -> 0 < fpow lib x y) ->
  (forall p, 0 < p <= 1 -> m_log lib p <= 0) ->
  exists v : R,
    nll lib sad "mete"
    = ([CallBrentq 0.3 (mete_stop lib (len sad) (py_sum_Z sad))], inr v) /\
    0 <= v.
Proof.
  intros Hsz Hfit Hpos Hroot Hpow Hlog.
  exists (- py_sum (map (m_log lib)
            (map (fun nv => fpow lib x nv / nv
                            / mete_norm lib (py_sum_Z sad) x)
                 (map IZR sad)))).
  split.
  - unfold nll, assert_. rewrite nll_assert_cond_truthy.
    rewrite (bind_M_ret tt).
    change ("mete" =? "mete")%string with true. cbv iota.
    rewrite (mete_lgsr_pmf_at_sad lib sad x Hsz Hfit Hpos Hroot).
    reflexivity.
  - apply CompareMore.neg_log_sum_nonneg; [exact Hlog|].
    now apply mete_values_are_probabilities.
Qed.

Lemma nll_mete_nonnegative_witness :
  exists v : R,
    nll Sample.sample_lib [1; 2]%Z "mete"
    = ([CallBrentq 0.3
          (mete_stop Sample.sample_lib (len [1; 2]%Z) (py_sum_Z [1; 2]%Z))],
       inr v) /\
    0 <= v.
Proof.
  apply (nll_mete_nonnegative Sample.sample_lib [1; 2]%Z
           (Sample.bisect (mete_eq Sample.sample_lib 2 3) 0.3 2 100)).
  - unfold len, py_sum_Z. simpl. lia.
  - unfold py_sum_Z. simpl. lia.
  - repeat constructor; lia.
  - exact MeteSpec.sample_mete_2_3_root.
  - intros y _. apply MeteSpec.Rpower_positive.
  - intros p Hp. change (ln p <= 0). rewrite <- ln_1.
    destruct Hp as (Hp0 & [Hlt| ->]); [|lra].
    left. now apply ln_increasing.
Defined.

End NllSpec.

(* ================================================================== *)
(** * utility/format_data.py: splitting record arrays by field *)
(* ================================================================== *)

Module UtilityFormatDataSpec.

Import UtilityFormatData PredictSadRest.

Lemma fold_left_append {A B : Type} (f : B -> list A) (l : list B) :
  forall acc : list A,
  fold_left (fun acc x => acc ++ f x) l acc = acc ++ flat_map f l.
Proof.
  induction l as [|x t IH]; intros acc; simpl.
  - now rewrite app_nil_r.
  - now rewrite IH, app_assoc.
Qed.

Lemma fold_left_snoc {A : Type} (l acc : list A) :
  fold_left (fun acc x => acc ++ [x]) l acc = acc ++ l.
Proof.
  rewrite (fold_left_append (fun x => [x])). f_equal.
  induction l as [|x t IH]; simpl; [reflexivity|now rewrite IH].
Qed.

Lemma flat_map_singleton {A B : Type} (f : A -> B) (l : list A) :
  flat_map (fun x => [f x]) l = map f l.
Proof. induction l as [|x t IH]; simpl; [reflexivity|now rewrite IH]. Qed.

Lemma flat_map_length_uniform {A B : Type} (f : A -> list B) (k : nat)
  (l : list A) :
  (forall x, length (f x) = k) ->
  length (flat_map f l) = (length l * k)%nat.
Proof.
  intros Hk. induction l as [|x t IH]; [reflexivity|].
  simpl. now rewrite length_app, Hk, IH.
Qed.

Lemma flat_map_nth_uniform {A B : Type} (f : A -> list B) (k : nat)
  (dl : A) (d : B) (l : list A) :
  (forall x, length (f x) = k) ->
  forall i j, (i < length l)%nat -> (j < k)%nat ->
  nth (i * k + j) (flat_map f l) d = nth j (f (nth i l dl)) d.
Proof.
  intros Hk. induction l as [|x t IH]; intros i j Hi Hj; [simpl in Hi; lia|].
  simpl flat_map. destruct i as [|i].
  - simpl. now rewrite app_nth1 by (rewrite Hk; exact Hj).
  - rewrite app_nth2 by (rewrite Hk; simpl; lia).
    rewrite Hk. replace (S i * k + j - k)%nat with (i * k + j)%nat
      by (simpl; lia).
    simpl nth. apply IH; [simpl in Hi; lia|exact Hj].
Qed.

Lemma given_col_names_concat (split_columns : list (list string)) :
  fold_left (fun acc tup => fold_left (fun acc name => acc ++ [name]) tup acc)
            split_columns []
  = concat split_columns.
Proof.
  assert (H : forall acc,
            fold_left (fun acc tup =>
                         fold_left (fun acc name => acc ++ [name]) tup acc)
                      split_columns acc
            = acc ++ concat split_columns).
  { induction split_columns as [|tup t IH]; intros acc; simpl.
    - now rewrite app_nil_r.
    - now rewrite fold_left_snoc, IH, app_assoc. }
  apply H.
Qed.

Lemma mask_steps (given : list string) (tup : list string) :
  forall h : string -> bool,
  fold_left (mask_step given) tup (map h given)
  = map (fun g => forallb (fun name => negb (String.eqb name g)) tup && h g)
        given.
Proof.
  induction tup as [|name t IH]; intros h; simpl.
  - apply map_ext. reflexivity.
  - assert (E : mask_step given (map h given) name
                = map (fun g => negb (String.eqb name g) && h g) given).
    { unfold mask_step. clear. induction given as [|g u IH]; simpl;
        [reflexivity|now rewrite IH]. }
    rewrite E, IH. apply map_ext. intros g.
    destruct (String.eqb name g), (forallb _ t), (h g); reflexivity.
Qed.

Lemma existsb_filter {A : Type} (p q : A -> bool) (l : list A) :
  existsb p (filter q l) = existsb (fun x => p x && q x) l.
Proof.
  induction l as [|x t IH]; [reflexivity|]. simpl.
  destruct (q x); simpl; rewrite IH; [|destruct (p x)]; 
    rewrite ?andb_true_r, ?andb_false_r; reflexivity.
Qed.

Lemma forallb_not_named (n : string) (tup : list string) :
  forallb (fun name => negb (String.eqb name n)) tup
  = negb (existsb (String.eqb n) tup).
Proof.
  induction tup as [|x t IH]; [reflexivity|]. simpl.
  rewrite IH, (String.eqb_sym x n). now destruct (String.eqb n x).
Qed.

Lemma existsb_named_and (n : string) (q : string -> bool) (l : list string) :
  existsb (fun x => String.eqb n x && q x) l
  = existsb (String.eqb n) l && q n.
Proof.
  induction l as [|x t IH]; [reflexivity|]. simpl. rewrite IH.
  destruct (String.eqb n x) eqn:E.
  - apply String.eqb_eq in E. subst x. simpl.
    now destruct (q n), (existsb (String.eqb n) t).
  - reflexivity.
Qed.

Lemma fold_left_ext {A B : Type} (f g : A -> B -> A) (l : list B) :
  (forall acc x, f acc x = g acc x) ->
  forall acc, fold_left f l acc = fold_left g l acc.
Proof.
  intros H. induction l as [|x t IH]; intros acc; simpl; [reflexivity|].
  now rewrite H, IH.
Qed.

Lemma removed_names (given tup : list string) :
  mask_select given
    (fold_left (mask_step given) tup (repeat true (length given)))
  = filter (fun g => forallb (fun name => negb (String.eqb name g)) tup)
           given.
Proof.
  replace (repeat true (length given)) with (map (fun _ => true) given)
    by (clear; induction given; simpl; congruence).
  rewrite mask_steps. unfold mask_select.
  clear. induction given as [|g u IH]; [reflexivity|]. simpl.
  rewrite andb_true_r.
  destruct (forallb _ tup); simpl; now rewrite IH.
Qed.

Section Columnar.

Variable column : Type.

(** X25.  [split_up_data_by_field] leaves one array per data set and
    tuple, data sets outermost; the array for a data set and a tuple
    keeps exactly the fields that the tuple names or that no tuple names,
    and is [None] when no field is kept.  With no tuple at all the data
    list is emptied. *)
Theorem split_up_data_by_field_spec (data_list : list (recarray column))
  (split_columns : list (list string)) :
  length (split_up_data_by_field column data_list split_columns)
  = (length data_list * length split_columns)%nat /\
  (forall i j, (i < length data_list)%nat ->
     (j < length split_columns)%nat ->
     nth (i * length split_columns + j)
         (split_up_data_by_field column data_list split_columns) None
     = match
         filter (fun f =>
                   existsb (String.eqb (fst f)) (nth j split_columns [])
                   || negb (existsb (String.eqb (fst f))
                                    (concat split_columns)))
                (nth i data_list [])
       with
       | [] => None
       | kept => Some kept
       end) /\
  split_up_data_by_field column data_list [] = [].
Proof.
  assert (E : forall cols,
            split_up_data_by_field column data_list cols
            = flat_map (fun data =>
                map (fun tup =>
                  drop_fields column data
                    (filter (fun g =>
                       forallb (fun name => negb (String.eqb name g)) tup)
                       (concat cols))) cols) data_list).
  { intros cols. unfold split_up_data_by_field.
    rewrite given_col_names_concat. cbv zeta.
    rewrite (fold_left_ext _
               (fun split_data data =>
                  split_data ++
                  map (fun tup =>
                    drop_fields column data
                      (filter (fun g =>
                         forallb (fun name => negb (String.eqb name g)) tup)
                         (concat cols))) cols)).
    - apply (fold_left_append
               (fun data =>
                  map (fun tup =>
                    drop_fields column data
                      (filter (fun g =>
                         forallb (fun name => negb (String.eqb name g)) tup)
                         (concat cols))) cols) data_list []).
    - intros split_data data.
      rewrite (fold_left_ext _
                 (fun split_data tup =>
                    split_data ++
                    [drop_fields column data
                       (filter (fun g =>
                          forallb (fun name => negb (String.eqb name g)) tup)
                          (concat cols))])).
      + now rewrite (fold_left_append
                       (fun tup =>
                          [drop_fields column data
                             (filter (fun g =>
                                forallb (fun name =>
                                           negb (String.eqb name g)) tup)
                                (concat cols))])),
                    flat_map_singleton.
      + intros acc tup. now rewrite removed_names. }
  split; [|split].
  - rewrite E. apply flat_map_length_uniform. intros x. apply length_map.
  - intros i j Hi Hj. rewrite E.
    rewrite (@flat_map_nth_uniform (recarray column)
               (option (recarray column)) _ (length split_columns)
               [] None data_list (fun x => length_map _ _) i j Hi Hj).
    rewrite (nth_map_in_range _ _ _ []) by exact Hj.
    unfold drop_fields.
    assert (Hf : forall f : string * column,
              negb (existsb (String.eqb (fst f))
                      (filter (fun g =>
                         forallb (fun name => negb (String.eqb name g))
                                 (nth j split_columns []))
                         (concat split_columns)))
              = existsb (String.eqb (fst f)) (nth j split_columns [])
                || negb (existsb (String.eqb (fst f))
                                 (concat split_columns))).
    { intros f.
      rewrite existsb_filter, existsb_named_and, forallb_not_named.
      now destruct (existsb (String.eqb (fst f)) (concat split_columns)),
                   (existsb (String.eqb (fst f)) (nth j split_columns [])). }
    now rewrite (filter_ext _ _ Hf).
  - rewrite E. clear E.
    induction data_list as [|d t IH]; [reflexivity|exact IH].
Qed.

End Columnar.

End UtilityFormatDataSpec.

(* ================================================================== *)
(** * misc/format_data.py: what a call reaches *)
(* ================================================================== *)

Module MiscFormatDataSpec.

Import MiscFormatData.

(** X26.  As the module stands, [data_read_write] never reads or writes a
    file: for ['dense'] its first line names a function the module does
    not define, for ['grid'], ['columnar'] and ['transect'] nothing
    assigns [form_data] before it is written, and any other format is
    refused by name.  [format_dense] likewise stops at its first line,
    on the undefined name [evaluate]. *)
Theorem data_read_write_never_writes (frame : Type)
  (dense_branch format_dense_body : F frame)
  (data_path_in data_path_out format_type : string) :
  data_read_write frame dense_branch data_path_in data_path_out format_type
  = ([], inl
      (if (format_type =? "dense")%string then
         NameError
           "global name '_set_dense_defaults_and_eval' is not defined"
       else if ((format_type =? "grid") || (format_type =? "columnar")
                || (format_type =? "transect"))%string then
         Builtin (UnboundLocalError "form_data")
       else
         NameError (format_type ++ " is not a supported data format")))
  /\ format_dense frame format_dense_body
     = ([], inl (NameError "global name 'evaluate' is not defined")).
Proof.
  split; [|reflexivity].
  unfold data_read_write.
  destruct (format_type =? "dense")%string; [reflexivity|].
  destruct (format_type =? "grid")%string; [reflexivity|].
  destruct (format_type =? "columnar")%string; [reflexivity|].
  destruct (format_type =? "transect")%string; reflexivity.
Qed.

End MiscFormatDataSpec.
